(** * Geodesic viewer: the trajectory-to-document pipeline of
    [vizualizacija.py] and the player embedded in its HTML template.

    The Python code computes on IEEE binary64 numbers (Python [float],
    NumPy [float64]).  The program is written once over an interface of
    arithmetic operations, [Arith], and read at two instances:
    - [binary64]: Rocq's primitive floats, which are IEEE binary64, with the
      functions that come from the C library (sine, cosine and [pow]),
      which are not correctly rounded, kept apart in the interface [Trig];
    - [exact]: the real numbers, the reading under which the spec's
      "approximately" and "within tolerance" statements are stated. *)

From Stdlib Require Import ZArith List String Ascii Bool Lia.
From Stdlib Require Import Floats.
From Stdlib Require Import Reals Lra.
Import ListNotations.

Set Implicit Arguments.
Set Warnings "-inexact-float".

(** ** Python exceptions and results *)

Inductive exn : Type :=
| ValueError (msg : string)
| ZeroDivisionError (msg : string)
| OverflowError (msg : string)
| OSError (msg : string)
| SystemExit (code : Z).

Inductive result (A : Type) : Type :=
| Ok (a : A)
| Raise (e : exn).

Arguments Ok {A} a.
Arguments Raise {A} e.

Definition bind {A B : Type} (m : result A) (k : A -> result B) : result B :=
  match m with
  | Ok a => k a
  | Raise e => Raise e
  end.

Declare Scope py_scope.
Delimit Scope py_scope with py.
Notation "x <- m ;; k" := (bind m (fun x => k))
  (at level 61, m at next level, right associativity) : py_scope.
Notation "' p <- m ;; k" := (bind m (fun p => k))
  (at level 61, p pattern, m at next level, right associativity) : py_scope.

(** ** The arithmetic interface *)

Class Arith (F : Type) : Type := {
  lit_0 : F;                (* 0.0 *)
  lit_1 : F;                (* 1.0 *)
  lit_2 : F;                (* 2.0 *)
  lit_1_05 : F;             (* 1.05 *)
  mul : F -> F -> F;
  div : F -> F -> F;
  fabs : F -> F;
  ltb : F -> F -> bool;
  leb : F -> F -> bool;
  eqb : F -> F -> bool;
  isnan : F -> bool;
  isinf : F -> bool
}.

(** What the program takes from the C library: [np.sin] and [np.cos] on
    one element, and [pow(v, 2.0)], which Python's [v ** 2] calls on a
    float.  The library does not round them correctly (its [pow(v, 2.0)]
    may differ from the product [v * v] in the last bit), so on binary64
    they stay abstract. *)
Class Trig (F : Type) : Type := {
  sin : F -> F;
  cos : F -> F;
  pow2 : F -> F
}.

Definition isfinite {F} `{Arith F} (v : F) : bool := negb (isnan v || isinf v).

(** IEEE binary64. *)
#[export] Instance binary64 : Arith float := {|
  lit_0 := 0%float;
  lit_1 := 1%float;
  lit_2 := 2%float;
  lit_1_05 := 1.05%float;
  mul := PrimFloat.mul;
  div := PrimFloat.div;
  fabs := PrimFloat.abs;
  ltb := PrimFloat.ltb;
  leb := PrimFloat.leb;
  eqb := PrimFloat.eqb;
  isnan := PrimFloat.is_nan;
  isinf := PrimFloat.is_infinity
|}.

(** Exact real arithmetic: every value is finite. *)
#[export] Instance exact : Arith R := {|
  lit_0 := 0%R;
  lit_1 := 1%R;
  lit_2 := 2%R;
  lit_1_05 := 1.05%R;
  mul := Rmult;
  div := Rdiv;
  fabs := Rabs;
  ltb := fun a b => if Rlt_dec a b then true else false;
  leb := fun a b => if Rle_dec a b then true else false;
  eqb := fun a b => if Req_dec_T a b then true else false;
  isnan := fun _ => false;
  isinf := fun _ => false
|}.

#[export] Instance exact_trig : Trig R := {|
  sin := Rtrigo_def.sin;
  cos := Rtrigo_def.cos;
  pow2 := fun v => (v * v)%R
|}.

(** ** One-dimensional NumPy arrays and the transform *)

Section Transform.
Context {F : Type} `{Arith F} `{Trig F}.

(** The element-by-element product of two arrays of one length. *)
Definition zip_mul (a b : list F) : list F :=
  map (fun p => mul (fst p) (snd p)) (combine a b).

(** [a * b] on one-dimensional arrays: element by element on equal
    shapes, a one-element array is broadcast, any other pair of shapes
    raises. *)
Definition np_mul (a b : list F) : result (list F) :=
  if Nat.eqb (List.length a) (List.length b) then Ok (zip_mul a b)
  else match a, b with
       | [u], _ => Ok (map (mul u) b)
       | _, [v] => Ok (map (fun e => mul e v) a)
       | _, _ => Raise (ValueError "operands could not be broadcast together")
       end.

Definition np_sin (a : list F) : list F := map sin a.
Definition np_cos (a : list F) : list F := map cos a.

Definition spherical_to_cartesian (r th ph : list F)
  : result (list F * list F * list F) :=
  (rs <- np_mul r (np_sin th) ;;
   x <- np_mul rs (np_cos ph) ;;
   rs' <- np_mul r (np_sin th) ;;
   y <- np_mul rs' (np_sin ph) ;;
   z <- np_mul r (np_cos th) ;;
   Ok (x, y, z))%py.

End Transform.

(** ** Paths: [Path], [Path.suffix] and [str.lower] *)

Open Scope string_scope.

Definition lower_ascii (ch : ascii) : ascii :=
  let n := nat_of_ascii ch in
  if (65 <=? n)%nat && (n <=? 90)%nat then ascii_of_nat (n + 32) else ch.

Fixpoint lower (s : string) : string :=
  match s with
  | EmptyString => EmptyString
  | String ch r => String (lower_ascii ch) (lower r)
  end.

Fixpoint mem_char (ch : ascii) (s : string) : bool :=
  match s with
  | EmptyString => false
  | String ch' r => Ascii.eqb ch ch' || mem_char ch r
  end.

(** [s.split('/')] *)
Fixpoint split_sep (s : string) : list string :=
  match s with
  | EmptyString => [EmptyString]
  | String ch r =>
      if Ascii.eqb ch "/" then EmptyString :: split_sep r
      else match split_sep r with
           | c :: cs => String ch c :: cs
           | [] => [String ch EmptyString]
           end
  end.

(** [s.lstrip('/')] *)
Fixpoint lstrip_sep (s : string) : string :=
  match s with
  | EmptyString => EmptyString
  | String ch r => if Ascii.eqb ch "/" then lstrip_sep r else s
  end.

(** [str(Path(s))] on a POSIX system.  The root is [//] for exactly two
    leading separators and [/] for any other number of them; empty
    components and [.] components are dropped, so a trailing [/] or [/.]
    goes; the path with no root and no component is [.]. *)
Definition Path (s : string) : string :=
  let rel := lstrip_sep s in
  let k := (String.length s - String.length rel)%nat in
  let root := if (k =? 0)%nat then "" else if (k =? 2)%nat then "//" else "/" in
  let parts := filter (fun c => negb (c =? "") && negb (c =? ".")) (split_sep rel) in
  match root ++ String.concat "/" parts with
  | EmptyString => "."
  | p => p
  end.

(** What follows the last separator. *)
Fixpoint after_sep (s : string) : string :=
  match s with
  | EmptyString => EmptyString
  | String ch r =>
      if mem_char "/" r then after_sep r
      else if Ascii.eqb ch "/" then r else s
  end.

(** [PurePath.name] of a path as [Path] writes it: its last component;
    the path [.], which has no component, and a bare root have the empty
    name. *)
Definition name (p : string) : string :=
  if p =? "." then "" else after_sep p.

(** The substring from the last dot on, if there is a dot. *)
Fixpoint last_dot_tail (s : string) : option string :=
  match s with
  | EmptyString => None
  | String ch r =>
      match last_dot_tail r with
      | Some t => Some t
      | None => if Ascii.eqb ch "." then Some s else None
      end
  end.

(** [PurePath.suffix]: with [i = name.rfind('.')], [name[i:]] when
    [0 < i < len(name) - 1] and the empty string otherwise. *)
Definition suffix (p : string) : string :=
  match name p with
  | EmptyString => ""
  | String _ rest =>
      match last_dot_tail rest with
      | Some t => if (1 <? String.length t)%nat then t else ""
      | None => ""
      end
  end.

(** ** The pipeline *)

(** The two streams [print] writes to. *)
Inductive stream : Type := Stdout | Stderr.

(** The values argparse lets through for [--format]:
    [choices=["npy", "csv"]]. *)
Inductive fmt : Type := npy | csv.

Definition fmt_name (f : fmt) : string :=
  match f with npy => "npy" | csv => "csv" end.

Section Pipeline.
Context {F : Type} `{Arith F} `{Trig F}.

(** An n-dimensional array: its shape and its elements in row-major
    order. *)
Record ndarray : Type := { shape : list nat; data : list F }.

Definition ndim (a : ndarray) : nat := List.length (shape a).

(** The rows of an [n]-by-[m] array whose elements are [d]. *)
Fixpoint rows (n m : nat) (d : list F) : list (list F) :=
  match n with
  | O => []
  | S n' => firstn m d :: rows n' m (skipn m d)
  end.

Definition nrows (a : ndarray) : nat := nth 0 (shape a) 0%nat.
Definition ncols (a : ndarray) : nat := nth 1 (shape a) 0%nat.

(** [arr[i, j]] of a two-dimensional array. *)
Definition get2 (a : ndarray) (i j : nat) : option F :=
  nth_error (data a) (i * ncols a + j).

(** [arr[:, :k]] of a two-dimensional array. *)
Definition slice_cols (k : nat) (a : ndarray) : ndarray :=
  {| shape := [nrows a; Nat.min k (ncols a)];
     data := List.concat (map (firstn k) (rows (nrows a) (ncols a) (data a))) |}.

(** Column [j] of a list of rows. *)
Definition column (j : nat) (rs : list (list F)) : list F :=
  flat_map (fun row => firstn 1 (skipn j row)) rs.

(** Iterating over [arr.T] for a two-dimensional [arr]: its columns. *)
Definition T (a : ndarray) : list (list F) :=
  map (fun j => column j (rows (nrows a) (ncols a) (data a))) (seq 0 (ncols a)).

(** What the program takes from its host: the file system, NumPy's two
    readers (on files that hold arrays of floats: an array of another
    dtype, which [np.load] can return, is outside this model), path
    resolution, number formatting, and which writes the host refuses:
    [Path.write_text] and [print] raise what the host says, if anything.
    [Path.exists], [Path.resolve], [Path.as_uri] and [webbrowser.open] are
    taken to return. *)
Record host : Type := {
  path_exists : string -> bool;
  np_load : string -> result ndarray;
  np_loadtxt : string -> result ndarray;      (* delimiter="," *)
  path_resolve : string -> string;
  as_uri : string -> string;
  format_4g : F -> string;                     (* f"{v:.4g}" *)
  write_error : string -> option exn;          (* raised by write_text there *)
  print_error : stream -> string -> option exn (* raised by print of a line *)
}.

Definition InvalidShape : exn :=
  ValueError "Trajectory must be an array with columns [t, r, theta, phi].".

Definition UnsupportedFormat : exn :=
  ValueError "Unsupported format. Use 'npy' or 'csv'.".

Definition load_trajectory (h : host) (path file_format : string)
  : result ndarray :=
  (arr <- (if file_format =? "npy" then np_load h path
           else if file_format =? "csv" then np_loadtxt h path
           else Raise UnsupportedFormat) ;;
   if negb (ndim arr =? 2)%nat || (ncols arr <? 4)%nat
   then Raise InvalidShape
   else Ok (slice_cols 4 arr))%py.

(** The parsed command line: the namespace [p.parse_args()] returns. *)
Record args : Type := {
  args_input : string;
  args_format : option fmt;
  args_output : string;
  args_tail : Z;
  args_rs : option F;
  args_mass : option F;
  args_G : option F;
  args_c : option F;
  args_open : bool
}.

(** Python's [v ** 2] on a float, as [float.__pow__] computes it: a NaN
    is returned as it is, an infinity gives [fabs(v)], a zero gives 0.0, a
    negative base is replaced by its absolute value (the exponent is an
    even integer), the base 1.0 gives 1.0, and every other base goes to the
    C library's [pow(v, 2.0)]; an infinite result there is an
    [OverflowError] (the library reports a range error otherwise only for
    an underflow to zero, which Python lets pass). *)
Definition py_pow2 (v : F) : result F :=
  if isnan v then Ok v
  else if isinf v then Ok (fabs v)
  else if eqb v lit_0 then Ok lit_0
  else
    let iv := fabs v in
    if eqb iv lit_1 then Ok lit_1
    else
      let ix := pow2 iv in
      if isinf ix then Raise (OverflowError "(34, 'Numerical result out of range')")
      else Ok ix.

(** Python's [a / b] on floats. *)
Definition py_truediv (a b : F) : result F :=
  if eqb b lit_0 then Raise (ZeroDivisionError "float division by zero")
  else Ok (div a b).

Definition compute_rs (a : args) : result (option F) :=
  match args_rs a with
  | Some v => Ok (Some v)
  | None =>
      match args_mass a, args_G a, args_c a with
      | Some m, Some g, Some c =>
          (c2 <- py_pow2 c ;;
           v <- py_truediv (mul (mul lit_2 g) m) c2 ;;
           Ok (Some v))%py
      | _, _, _ => Ok None
      end
  end.

(** [np.maximum] and the reduction [np.max]: a NaN wins. *)
Definition maximum (a b : F) : F := if leb b a || isnan a then a else b.

Definition np_max (l : list F) : result F :=
  match l with
  | [] => Raise (ValueError "zero-size array to reduction operation maximum which has no identity")
  | v :: r => Ok (fold_left maximum r v)
  end.

Definition np_abs (l : list F) : list F := map fabs l.

(** [rmax = float(np.max(np.abs([x, y, z])))] *)
Definition rmax (x y z : list F) : result F := np_max (np_abs (x ++ y ++ z)).

(** [lim = 1.05 * rmax if np.isfinite(rmax) and rmax > 0 else 1.0] *)
Definition lim (rmax : F) : F :=
  if isfinite rmax && ltb lit_0 rmax then mul lit_1_05 rmax else lit_1.

(** [show_horizon = rs is not None and np.isfinite(rs) and rs > 0] *)
Definition show_horizon (rs : option F) : bool :=
  match rs with
  | Some v => isfinite v && ltb lit_0 v
  | None => false
  end.

(** [min(max(0, args.tail), N - 1)] *)
Definition tail (a : args) (N : Z) : Z := Z.min (Z.max 0 (args_tail a)) (N - 1).

(** JSON values of the payload. *)
Inductive json : Type :=
| JFloat (v : F)
| JInt (n : Z)
| JBool (b : bool)
| JList (l : list F).

(** [a.tolist()] of a one-dimensional array of floats. *)
Definition tolist (l : list F) : json := JList l.

(** The dictionary [data], in insertion order. *)
Definition data_of (x y z : list F) (N : nat) (lim : F) (rs : option F)
  : list (string * json) :=
  [ ("x", tolist x);
    ("y", tolist y);
    ("z", tolist z);
    ("N", JInt (Z.of_nat N));
    ("lim", JFloat lim);
    ("rs", JFloat (match rs with Some v => v | None => lit_0 end));
    ("show_horizon", JBool (show_horizon rs)) ].

(** Lookup of a key of a dictionary. *)
Fixpoint lookup (k : string) (d : list (string * json)) : option json :=
  match d with
  | [] => None
  | (k', v) :: r => if k =? k' then Some v else lookup k r
  end.

(** The document: [HTML_TEMPLATE] with its five fields filled in. *)
Record document : Type := {
  Nmax : Z;
  doc_tail : Z;
  rs_text : string;
  horizon_checked : string;
  data_json : list (string * json)
}.

(** *** Effects of [main]: what is printed, written and opened, and how
    the run ends. *)

Record io : Type := {
  stdout : list string;
  stderr : list string;
  files : list (string * document);
  browser : list string
}.

Definition io0 : io := {| stdout := []; stderr := []; files := []; browser := [] |}.

Definition py (A : Type) : Type := io -> result A * io.

Definition ret {A : Type} (a : A) : py A := fun w => (Ok a, w).

Definition pbind {A B : Type} (m : py A) (k : A -> py B) : py B :=
  fun w => match m w with
           | (Ok a, w') => k a w'
           | (Raise e, w') => (Raise e, w')
           end.

Definition lift {A : Type} (r : result A) : py A := fun w => (r, w).

(** Lines written to a stream. *)
Definition emit (f : stream) (lines : list string) (w : io) : io :=
  match f with
  | Stdout => {| stdout := stdout w ++ lines; stderr := stderr w;
                 files := files w; browser := browser w |}
  | Stderr => {| stdout := stdout w; stderr := stderr w ++ lines;
                 files := files w; browser := browser w |}
  end.

(** [print(s)] and [print(s, file=sys.stderr)]: the line is written,
    unless the host refuses it, and then [print] raises. *)
Definition print_out (h : host) (s : string) : py unit :=
  fun w => match print_error h Stdout s with
           | Some e => (Raise e, w)
           | None => (Ok tt, emit Stdout [s] w)
           end.

Definition print_err (h : host) (s : string) : py unit :=
  fun w => match print_error h Stderr s with
           | Some e => (Raise e, w)
           | None => (Ok tt, emit Stderr [s] w)
           end.

Definition sys_exit {A : Type} (code : Z) : py A := lift (Raise (SystemExit code)).

(** [path.write_text(html, encoding="utf-8")]: the document is at [path],
    unless the host refuses the write, and then [write_text] raises. *)
Definition write_text (h : host) (path : string) (d : document) : py unit :=
  fun w => match write_error h path with
           | Some e => (Raise e, w)
           | None => (Ok tt, {| stdout := stdout w; stderr := stderr w;
                                files := (path, d) :: files w;
                                browser := browser w |})
           end.

Definition webbrowser_open (uri : string) : py unit :=
  fun w => (Ok tt, {| stdout := stdout w; stderr := stderr w;
                      files := files w; browser := browser w ++ [uri] |}).

Declare Scope io_scope.
Delimit Scope io_scope with io.
Notation "x <- m ;; k" := (pbind m (fun x => k))
  (at level 61, m at next level, right associativity) : io_scope.
Notation "' p <- m ;; k" := (pbind m (fun p => k))
  (at level 61, p pattern, m at next level, right associativity) : io_scope.
Notation "m ;; k" := (pbind m (fun _ => k))
  (at level 61, right associativity) : io_scope.

(** [t, r, th, ph = traj.T] *)
Definition unpack4 (l : list (list F))
  : result (list F * list F * list F * list F) :=
  match l with
  | [t; r; th; ph] => Ok (t, r, th, ph)
  | _ => Raise (ValueError "wrong number of values to unpack")
  end.

(** What [p.parse_args()] does with the command line of the process.
    argparse is a library: it returns the namespace; or, on a command line
    it rejects (a missing [--input], a [--format] outside its choices, a
    [--tail] that is no integer, ...), it writes the usage and the error to
    stderr and calls [sys.exit(2)]; or, on [-h] and [--help], it writes the
    help to stdout and calls [sys.exit(0)].  Which command lines it
    rejects, and its texts, are the library's and come with the command
    line; argparse does not raise when a stream refuses its text. *)
Inductive cmdline : Type :=
| Parsed (a : args)
| Rejected (usage : list string)
| HelpAsked (help : list string).

Definition parse_args (c : cmdline) : py args :=
  match c with
  | Parsed a => ret a
  | Rejected usage => pbind (fun w => (Ok tt, emit Stderr usage w)) (fun _ => sys_exit 2)
  | HelpAsked help => pbind (fun w => (Ok tt, emit Stdout help w)) (fun _ => sys_exit 0)
  end.

Definition main (h : host) (c : cmdline) : py unit :=
  (a <- parse_args c ;;
   let in_path := Path (args_input a) in
   (if negb (path_exists h in_path)
    then print_err h ("ERROR: File not found: " ++ in_path) ;; sys_exit 1
    else ret tt) ;;
   file_format <-
     match args_format a with
     | Some f => ret (fmt_name f)
     | None =>
         let ext := lower (suffix in_path) in
         if ext =? ".npy" then ret "npy"
         else if ext =? ".csv" then ret "csv"
         else print_err h "ERROR: Could not infer format from extension. Use --format npy|csv" ;;
              sys_exit 1
     end ;;
   traj <- lift (load_trajectory h in_path file_format) ;;
   '(t, r, th, ph) <- lift (unpack4 (T traj)) ;;
   '(x, y, z) <- lift (spherical_to_cartesian r th ph) ;;
   let N := List.length x in
   (if (N <? 2)%nat
    then print_err h "ERROR: Need at least 2 trajectory samples." ;; sys_exit 1
    else ret tt) ;;
   rmax <- lift (rmax x y z) ;;
   let lim := lim rmax in
   rs <- lift (compute_rs a) ;;
   let show_horizon := show_horizon rs in
   let data := data_of x y z N lim rs in
   let html :=
     {| Nmax := Z.of_nat N - 1;
        doc_tail := tail a (Z.of_nat N);
        rs_text := match rs with Some v => format_4g h v | None => "—" end;
        horizon_checked := if show_horizon then "checked" else "";
        data_json := data |} in
   let out_path := Path (args_output a) in
   write_text h out_path html ;;
   print_out h ("Wrote " ++ path_resolve h out_path) ;;
   if args_open a then webbrowser_open (as_uri h (path_resolve h out_path))
   else ret tt)%io.

(** The interpreter around [main]: a normal return is exit code 0,
    [sys.exit(n)] is exit code [n], any other uncaught exception prints a
    traceback on stderr and is exit code 1. *)
Definition traceback (e : exn) : string :=
  match e with
  | ValueError m => "Traceback (most recent call last): ValueError: " ++ m
  | ZeroDivisionError m => "Traceback (most recent call last): ZeroDivisionError: " ++ m
  | OverflowError m => "Traceback (most recent call last): OverflowError: " ++ m
  | OSError m => "Traceback (most recent call last): OSError: " ++ m
  | SystemExit _ => ""
  end.

Definition run (h : host) (c : cmdline) : Z * io :=
  match main h c io0 with
  | (Ok _, w) => (0%Z, w)
  | (Raise (SystemExit code), w) => (code, w)
  | (Raise e, w) =>
      (1%Z, {| stdout := stdout w; stderr := stderr w ++ [traceback e];
               files := files w; browser := browser w |})
  end.

End Pipeline.

Arguments ndarray F : clear implicits.
Arguments host F : clear implicits.
Arguments args F : clear implicits.
Arguments cmdline F : clear implicits.
Arguments json F : clear implicits.
Arguments document F : clear implicits.
Arguments io F : clear implicits.
Arguments py F A : clear implicits.

(** A namespace stands for the command line argparse accepted with it. *)
Coercion Parsed : args >-> cmdline.

(** ** What the theorems speak of: well-formed arrays, the arrays and the
    document of a run *)

Section Runs.
Context {F : Type} `{Arith F} `{Trig F}.

(** An array holds as many elements as its shape says. *)
Definition wf (a : ndarray F) : Prop :=
  List.length (data a) = fold_right Nat.mul 1%nat (shape a).

(** NumPy's readers return well-formed arrays. *)
Definition host_wf (h : host F) : Prop :=
  forall p arr, np_load h p = Ok arr \/ np_loadtxt h p = Ok arr -> wf arr.

(** The rows of the loaded trajectory: the first four entries of each row
    of the parsed array. *)
Definition traj_rows (arr : ndarray F) : list (list F) :=
  map (firstn 4) (rows (nrows arr) (ncols arr) (data arr)).

(** The Cartesian arrays computed from a parsed array. *)
Definition cartesian_of (arr : ndarray F) : list F * list F * list F :=
  let r := column 1 (traj_rows arr) in
  let th := column 2 (traj_rows arr) in
  let ph := column 3 (traj_rows arr) in
  (zip_mul (zip_mul r (np_sin th)) (np_cos ph),
   zip_mul (zip_mul r (np_sin th)) (np_sin ph),
   zip_mul r (np_cos th)).

(** [in_path] and [out_path] of [main]. *)
Definition input_path (a : args F) : string := Path (args_input a).
Definition output_path (a : args F) : string := Path (args_output a).

(** The format [main] loads with: the one given, or the one the
    extension stands for. *)
Definition infer_format (a : args F) : option string :=
  match args_format a with
  | Some f => Some (fmt_name f)
  | None =>
      let ext := lower (suffix (input_path a)) in
      if ext =? ".npy" then Some "npy"
      else if ext =? ".csv" then Some "csv"
      else None
  end.

Definition err_io (msg : string) : io F :=
  {| stdout := []; stderr := [msg]; files := []; browser := [] |}.

(** The document [main] writes for Cartesian arrays [x], [y], [z], maximum
    [m] and horizon radius [rs]. *)
Definition html_of (h : host F) (a : args F) (x y z : list F) (m : F)
  (rs : option F) : document F :=
  let N := List.length x in
  {| Nmax := Z.of_nat N - 1;
     doc_tail := tail a (Z.of_nat N);
     rs_text := match rs with Some v => format_4g h v | None => "—" end;
     horizon_checked := if show_horizon rs then "checked" else "";
     data_json := data_of x y z N (lim m) rs |}.

(** The line [main] prints last. *)
Definition wrote (h : host F) (a : args F) : string :=
  "Wrote " ++ path_resolve h (output_path a).

Definition done_io (h : host F) (a : args F) (d : document F) : io F :=
  {| stdout := [wrote h a];
     stderr := [];
     files := [(output_path a, d)];
     browser := if args_open a
                then [as_uri h (path_resolve h (output_path a))] else [] |}.

(** How [print(msg, file=sys.stderr); sys.exit(1)] ends a run that has
    written nothing so far. *)
Definition exit1 (h : host F) (msg : string) : result unit * io F :=
  match print_error h Stderr msg with
  | Some e => (Raise e, io0)
  | None => (Raise (SystemExit 1), err_io msg)
  end.

(** How the last statements of [main] end a run that has written nothing
    so far: [write_text] of the document [d], [print] of the resolved
    path, [webbrowser.open] under [--open]. *)
Definition finish (h : host F) (a : args F) (d : document F)
  : result unit * io F :=
  match write_error h (output_path a) with
  | Some e => (Raise e, io0)
  | None =>
      match print_error h Stdout (wrote h a) with
      | Some e => (Raise e, {| stdout := []; stderr := [];
                               files := [(output_path a, d)]; browser := [] |})
      | None => (Ok tt, done_io h a d)
      end
  end.

(** The message with which [main] calls [sys.exit(1)], if it does: for a
    missing input file, for a format that is neither given nor told by the
    extension, for fewer than 2 samples. *)
Definition error_message (h : host F) (a : args F) : option string :=
  if negb (path_exists h (input_path a))
  then Some ("ERROR: File not found: " ++ input_path a)
  else match infer_format a with
       | None => Some "ERROR: Could not infer format from extension. Use --format npy|csv"
       | Some f =>
           match load_trajectory h (input_path a) f with
           | Ok traj =>
               if (nrows traj <? 2)%nat
               then Some "ERROR: Need at least 2 trajectory samples."
               else None
           | Raise _ => None
           end
       end.

End Runs.

(** ** The player of the HTML template *)

Module Player.
Local Open Scope Z_scope.

Section Player.
Context {F : Type}.

(** The document the script runs in. *)
Variable d : document F.

(** [D.N], [D.x], [D.y], [D.z], [D.show_horizon] of the payload. *)
Definition D_N : Z :=
  match lookup "N" (data_json d) with Some (JInt n) => n | _ => 0 end.

Definition D_list (k : string) : list F :=
  match lookup k (data_json d) with Some (JList l) => l | _ => [] end.

Definition D_show_horizon : bool :=
  match lookup "show_horizon" (data_json d) with Some (JBool b) => b | _ => false end.

(** [i|0]: conversion to a signed 32-bit integer. *)
Definition to_int32 (i : Z) : Z := (i + 2 ^ 31) mod 2 ^ 32 - 2 ^ 31.

(** [a.slice(j, k)] for indices that are not negative. *)
Definition slice (a : list F) (j k : Z) : list F :=
  firstn (Z.to_nat (k - j)) (skipn (Z.to_nat j) a).

(** [a[i]]: the element, or [undefined]. *)
Definition at_index (a : list F) (i : Z) : option F :=
  if i <? 0 then None else nth_error a (Z.to_nat i).

(** The value a range input with bounds [lo] and [hi] keeps when it is
    set to [v]. *)
Definition range_value (lo hi v : Z) : Z :=
  if hi <? lo then lo else Z.max lo (Z.min hi v).

(** The page: the two range inputs, the button, the timer and what the
    plot shows in its "Recent segment", "Particle" and horizon traces. *)
Record dom : Type := {
  slider : Z;                                   (* slider.value *)
  tailInput : Z;                                (* tailInput.value *)
  timer : option Z;                             (* null, or the interval in ms *)
  playBtn : string;                             (* playBtn.textContent *)
  tail_trace : list F * list F * list F;
  particle_trace : option F * option F * option F;
  horizon_visible : option bool                 (* no trace; true; 'legendonly' *)
}.

Definition setIndex (i : Z) (s : dom) : dom :=
  let i := Z.max 0 (Z.min (D_N - 1) (to_int32 i)) in
  let tailLen := tailInput s in
  let j0 := Z.max 0 (i - tailLen) in
  {| slider := slider s;
     tailInput := tailInput s;
     timer := timer s;
     playBtn := playBtn s;
     tail_trace := (slice (D_list "x") j0 (i + 1),
                    slice (D_list "y") j0 (i + 1),
                    slice (D_list "z") j0 (i + 1));
     particle_trace := (at_index (D_list "x") i,
                        at_index (D_list "y") i,
                        at_index (D_list "z") i);
     horizon_visible := horizon_visible s |}.

Definition set_slider (v : Z) (s : dom) : dom :=
  {| slider := range_value 0 (Nmax d) v;
     tailInput := tailInput s;
     timer := timer s;
     playBtn := playBtn s;
     tail_trace := tail_trace s;
     particle_trace := particle_trace s;
     horizon_visible := horizon_visible s |}.

Definition set_tail (v : Z) (s : dom) : dom :=
  {| slider := slider s;
     tailInput := range_value 0 (Nmax d) v;
     timer := timer s;
     playBtn := playBtn s;
     tail_trace := tail_trace s;
     particle_trace := particle_trace s;
     horizon_visible := horizon_visible s |}.

(** The user drags the step slider to [i]: the input takes the value, then
    the listener runs [setIndex(e.target.value)]. *)
Definition on_slider_input (i : Z) (s : dom) : dom :=
  let s' := set_slider i s in setIndex (slider s') s'.

(** The user drags the tail slider to [L]: the listener runs
    [setIndex(slider.value)]. *)
Definition on_tail_input (L : Z) (s : dom) : dom :=
  let s' := set_tail L s in setIndex (slider s') s'.

Definition on_horizon_change (checked : bool) (s : dom) : dom :=
  {| slider := slider s;
     tailInput := tailInput s;
     timer := timer s;
     playBtn := playBtn s;
     tail_trace := tail_trace s;
     particle_trace := particle_trace s;
     horizon_visible := match horizon_visible s with
                        | Some _ => Some checked
                        | None => None
                        end |}.

(** The callback given to [setInterval]. *)
Definition on_tick (s : dom) : dom :=
  let i := Z.rem (1 + slider s) D_N in
  let s' := set_slider i s in
  setIndex i s'.

(** The click listener of the play button. *)
Definition on_play_click (s : dom) : dom :=
  match timer s with
  | Some _ =>
      {| slider := slider s;
         tailInput := tailInput s;
         timer := None;
         playBtn := "▶ Play";
         tail_trace := tail_trace s;
         particle_trace := particle_trace s;
         horizon_visible := horizon_visible s |}
  | None =>
      {| slider := slider s;
         tailInput := tailInput s;
         timer := Some 20;
         playBtn := "⏸ Pause";
         tail_trace := tail_trace s;
         particle_trace := particle_trace s;
         horizon_visible := horizon_visible s |}
  end.

(** The page once the script has run: the inputs as the template sets
    them, then [setIndex(0)]. *)
Definition init : dom :=
  setIndex 0
    {| slider := range_value 0 (Nmax d) 0;
       tailInput := range_value 0 (Nmax d) (doc_tail d);
       timer := None;
       playBtn := "▶ Play";
       tail_trace := (firstn 1 (D_list "x"), firstn 1 (D_list "y"), firstn 1 (D_list "z"));
       particle_trace := (at_index (D_list "x") 0, at_index (D_list "y") 0,
                          at_index (D_list "z") 0);
       horizon_visible := if D_show_horizon then Some true else None |}.

Inductive event : Type :=
| PlayPause
| Tick
| Scrub (i : Z)
| SetTail (L : Z)
| ToggleHorizon (checked : bool).

(** One event of the page.  The interval callback runs only while the
    timer is set. *)
Inductive step : dom -> event -> dom -> Prop :=
| step_play_pause s : step s PlayPause (on_play_click s)
| step_tick s ms : timer s = Some ms -> step s Tick (on_tick s)
| step_scrub s i : step s (Scrub i) (on_slider_input i s)
| step_set_tail s L : step s (SetTail L) (on_tail_input L s)
| step_toggle s b : step s (ToggleHorizon b) (on_horizon_change b s).

Inductive reachable : dom -> Prop :=
| reach_init : reachable init
| reach_step s ev s' : reachable s -> step s ev s' -> reachable s'.

Definition Paused (s : dom) : Prop := timer s = None.
Definition Playing (s : dom) : Prop := exists ms, timer s = Some ms.

End Player.
End Player.

(** ** The polar form of a Cartesian point *)

Section Recovery.
Local Open Scope R_scope.

(** The two-argument arctangent, with values in (-pi, pi]. *)
Definition atan2 (y x : R) : R :=
  if Rlt_dec 0 x then atan (y / x)
  else if Rlt_dec x 0 then
         if Rle_dec 0 y then atan (y / x) + PI else atan (y / x) - PI
       else if Rlt_dec 0 y then PI / 2
            else if Rlt_dec y 0 then - (PI / 2) else 0.


End Recovery.


(** ** Inputs of the scenarios *)

Section Inputs.
Local Open Scope R_scope.
Local Abbreviation rsin := Rtrigo_def.sin.
Local Abbreviation rcos := Rtrigo_def.cos.

(** A host whose only file is [file], holding the table [t]. *)
Definition file_host (file : string) (t : ndarray R) : host R :=
  {| path_exists := fun p => (p =? file)%string;
     np_load := fun _ => Raise (OSError "Failed to interpret file as a pickle");
     np_loadtxt := fun p => if (p =? file)%string then Ok t
                            else Raise (OSError "not found");
     path_resolve := fun p => ("/home/user/" ++ p)%string;
     as_uri := fun p => ("file://" ++ p)%string;
     format_4g := fun _ => ""%string;
     write_error := fun _ => None;
     print_error := fun _ _ => None |}.

Definition csv_host (t : ndarray R) : host R := file_host "orbit.csv" t.

(** The same host where the output cannot be written, and where standard
    output is closed. *)
Definition readonly_host (t : ndarray R) : host R :=
  {| path_exists := path_exists (csv_host t);
     np_load := np_load (csv_host t);
     np_loadtxt := np_loadtxt (csv_host t);
     path_resolve := path_resolve (csv_host t);
     as_uri := as_uri (csv_host t);
     format_4g := format_4g (csv_host t);
     write_error := fun _ => Some (OSError "[Errno 13] Permission denied");
     print_error := fun _ _ => None |}.

Definition closed_stdout_host (t : ndarray R) : host R :=
  {| path_exists := path_exists (csv_host t);
     np_load := np_load (csv_host t);
     np_loadtxt := np_loadtxt (csv_host t);
     path_resolve := path_resolve (csv_host t);
     as_uri := as_uri (csv_host t);
     format_4g := format_4g (csv_host t);
     write_error := fun _ => None;
     print_error := fun f _ =>
       match f with
       | Stdout => Some (OSError "[Errno 9] Bad file descriptor")
       | Stderr => None
       end |}.

(** The command line [--input orbit.csv]. *)
Definition args_orbit : args R :=
  {| args_input := "orbit.csv"; args_format := None;
     args_output := "geodesic_viewer.html"; args_tail := 800;
     args_rs := None; args_mass := None; args_G := None; args_c := None;
     args_open := false |}.

(** The command line [--input orbit.csv/]. *)
Definition args_slash : args R :=
  {| args_input := "orbit.csv/"; args_format := None;
     args_output := "geodesic_viewer.html"; args_tail := 800;
     args_rs := None; args_mass := None; args_G := None; args_c := None;
     args_open := false |}.

(** The command line [--input orbit.txt]. *)
Definition args_txt : args R :=
  {| args_input := "orbit.txt"; args_format := None;
     args_output := "geodesic_viewer.html"; args_tail := 800;
     args_rs := None; args_mass := None; args_G := None; args_c := None;
     args_open := false |}.


(** The table [[0,1,0,0],[1,2,1.5708,0]]. *)
Definition table : ndarray R :=
  {| shape := [2; 4]%nat; data := [0; 1; 0; 0; 1; 2; 1.5708; 0] |}.


(** The scenario's samples followed by two more columns. *)
Definition table6 : ndarray R :=
  {| shape := [2; 6]%nat;
     data := [0; 1; 0; 0; 7; 8; 1; 2; 1.5708; 0; 7; 8] |}.

(** Half of the scenario's polar angle 1.5708. *)
Definition half_angle : R := 0.7854.

(** The second point of the scenario: its x and z coordinates. *)
Definition px : R := 2 * rsin 1.5708.
Definition pz : R := 2 * rcos 1.5708.

(** The document written for the scenario. *)
Definition orbit_doc : document R :=
  html_of (csv_host table) args_orbit [0; px] [0; 0] [1; pz] px None.

(** The command line [--input orbit.csv --mass 1 --G 1 --c 0], read in
    exact arithmetic and on binary64. *)
Definition args_c_zero_exact : args R :=
  {| args_input := "orbit.csv"; args_format := None;
     args_output := "geodesic_viewer.html"; args_tail := 800;
     args_rs := None; args_mass := Some 1; args_G := Some 1;
     args_c := Some 0;
     args_open := false |}.

Definition args_c_zero : args float :=
  {| args_input := "orbit.csv"; args_format := None;
     args_output := "geodesic_viewer.html"; args_tail := 800;
     args_rs := None; args_mass := Some 1%float; args_G := Some 1%float;
     args_c := Some 0%float;
     args_open := false |}.

End Inputs.

(** ** More arithmetic: sums, integers as numbers, pi *)

Class MathOps (F : Type) : Type := {
  fadd : F -> F -> F;
  of_int : Z -> F;          (* an integer used as a number; on binary64
                               for integers below 2^63 in absolute value *)
  fpi : F                   (* Math.PI *)
}.

#[export] Instance binary64_math : MathOps float := {|
  fadd := PrimFloat.add;
  of_int := fun z =>
    if (z <? 0)%Z then PrimFloat.opp (PrimFloat.of_uint63 (Uint63.of_Z (- z)))
    else PrimFloat.of_uint63 (Uint63.of_Z z);
  fpi := 3.141592653589793%float
|}.

#[export] Instance exact_math : MathOps R := {|
  fadd := Rplus;
  of_int := IZR;
  fpi := PI
|}.

(** ** The horizon mesh of the HTML template *)

Module Mesh.
Section Mesh.
Context {F : Type} `{Arith F} `{Trig F} `{MathOps F}.

Variable d : document F.

(** [D.rs] of the payload, read like [D.N] above: [main] always writes a
    number under this key. *)
Definition D_rs : F :=
  match lookup "rs" (data_json d) with Some (JFloat v) => v | _ => lit_0 end.

(** [Array.from({length:nT}, (_,i)=> i*(Math.PI/(nT-1)))] *)
Definition th (nT : nat) : list F :=
  map (fun i => mul (of_int (Z.of_nat i)) (div fpi (of_int (Z.of_nat nT - 1))))
      (seq 0 nT).

(** [Array.from({length:nP}, (_,j)=> j*(2*Math.PI/(nP-1)))] *)
Definition ph (nP : nat) : list F :=
  map (fun j => mul (of_int (Z.of_nat j))
                    (div (mul lit_2 fpi) (of_int (Z.of_nat nP - 1))))
      (seq 0 nP).

(** [horizonMesh(rs, nT, nP)]: the rows of x, of y and of z.  The body
    reads [D.rs], not its first argument. *)
Definition horizonMesh (rs : F) (nT nP : nat)
  : list (list F) * list (list F) * list (list F) :=
  (map (fun t => map (fun p => mul (mul D_rs (sin t)) (cos p)) (ph nP)) (th nT),
   map (fun t => map (fun p => mul (mul D_rs (sin t)) (sin p)) (ph nP)) (th nT),
   map (fun t => map (fun _ => mul D_rs (cos t)) (ph nP)) (th nT)).

(** The entry of row [i] and column [j]. *)
Definition entry (m : list (list F)) (i j : nat) : option F :=
  match nth_error m i with
  | Some row => nth_error row j
  | None => None
  end.

End Mesh.
End Mesh.

(** ** The animation script [pygameSkripta.py] *)

Module Pygame.
Local Open Scope Z_scope.

Section Pygame.
Context {F : Type} `{Arith F} `{Trig F} `{MathOps F}.

Definition KartezijskeKoordinate (r theta : list F) (xProzora yProzora : Z)
  : result (list F * list F) :=
  (c <- np_mul (np_cos theta) r ;;
   s <- np_mul (np_sin theta) r ;;
   Ok (map (fun v => fadd (mul v (of_int 10)) (div (of_int xProzora) (of_int 2))) c,
       map (fun v => fadd (mul v (of_int 10)) (div (of_int yProzora) (of_int 2))) s))%py.

(** An event of one poll: the window's close request, or any other. *)
Inductive event : Type := QUIT | OTHER.

Definition is_quit (e : event) : bool :=
  match e with QUIT => true | OTHER => false end.

(** [a[t]] for an index that is not negative: the element, or no element
    ([IndexError]). *)
Definition index (a : list F) (t : Z) : option F :=
  if t <? 0 then None else nth_error a (Z.to_nat t).

(** How the frame loop stands after the polls it was given: still
    running, left through [sys.exit()], or stopped by the [IndexError] of
    [x[t]]; each with the centres of the moving dot drawn so far. *)
Inductive outcome : Type :=
| Running (t : Z) (drawn : list (F * F))
| Exited (drawn : list (F * F))
| IndexError (t : Z) (drawn : list (F * F)).

(** The loop [while True], one iteration for each poll of the event
    queue.  The arrays are one-dimensional; the calls into pygame ([fill],
    [draw.circle], [flip], [tick]) are taken to return, so that only
    [sys.exit()] and the indexing [x[t]], [y[t]] leave the loop. *)
Fixpoint frame_loop (x y : list F) (t : Z) (drawn : list (F * F))
  (polls : list (list event)) : outcome :=
  match polls with
  | [] => Running t drawn
  | events :: rest =>
      let t := t + 1000 in
      if existsb is_quit events then Exited drawn
      else match index x t, index y t with
           | Some a, Some b => frame_loop x y t (drawn ++ [(a, b)]) rest
           | _, _ => IndexError t drawn
           end
  end.

(** The script from the two unpickled arrays on: the coordinates raise, or
    [print(x[0], y[0])] raises, or the loop starts. *)
Inductive script_outcome : Type :=
| Failed (e : exn)
| PrintFailed
| Started (x0 y0 : F) (o : outcome).

Definition script (ugao precnik : list F) (polls : list (list event))
  : script_outcome :=
  match KartezijskeKoordinate precnik ugao 1000 1000 with
  | Raise e => Failed e
  | Ok (x, y) =>
      match index x 0, index y 0 with
      | Some x0, Some y0 => Started x0 y0 (frame_loop x y 0 [] polls)
      | _, _ => PrintFailed
      end
  end.

(** The samples [1000*k] for [k] from [first] on, [n] of them. *)
Definition samples (x y : list F) (first n : nat) : list (F * F) :=
  flat_map (fun k => match index x (1000 * Z.of_nat k), index y (1000 * Z.of_nat k) with
                     | Some a, Some b => [(a, b)]
                     | _, _ => []
                     end)
           (seq first n).

(** The centres drawn so far. *)
Definition drawn_of (o : outcome) : list (F * F) :=
  match o with
  | Running _ drawn => drawn
  | Exited drawn => drawn
  | IndexError _ drawn => drawn
  end.

(** The largest [k] with [1000*k] an index of [x] (0 for an empty [x]). *)
Definition frames (x : list F) : nat := ((List.length x - 1) / 1000)%nat.

(** The position of the first poll that holds a close request. *)
Fixpoint first_quit (polls : list (list event)) : option nat :=
  match polls with
  | [] => None
  | events :: rest =>
      if existsb is_quit events then Some O
      else match first_quit rest with
           | Some q => Some (S q)
           | None => None
           end
  end.

End Pygame.
End Pygame.

(** ** The page in step with its sliders *)

Module Sync.
Import Player.
Local Open Scope Z_scope.

Section Sync.
Context {F : Type}.
Variable d : document F.

(** What is drawn is what [setIndex] draws for the two sliders. *)
Definition drawn_in_sync (s : dom (F:=F)) : Prop :=
  let i := slider s in
  let j0 := Z.max 0 (i - tailInput s) in
  tail_trace s = (slice (D_list d "x") j0 (i + 1),
                  slice (D_list d "y") j0 (i + 1),
                  slice (D_list d "z") j0 (i + 1)) /\
  particle_trace s = (at_index (D_list d "x") i,
                      at_index (D_list d "y") i,
                      at_index (D_list d "z") i).

(** The index [setIndex] draws for the value of the step slider: [i|0]
    clamped into [0, N-1]. *)
Definition shown_index (s : dom (F:=F)) : Z :=
  Z.max 0 (Z.min (D_N d - 1) (to_int32 (slider s))).

(** What is drawn is what [setIndex(slider.value)] draws: the recent
    segment ends at the shown index and starts the tail length before it,
    or at 0; the particle is the sample of the shown index. *)
Definition drawn_for_slider (s : dom (F:=F)) : Prop :=
  let k := shown_index s in
  let j0 := Z.max 0 (k - tailInput s) in
  tail_trace s = (slice (D_list d "x") j0 (k + 1),
                  slice (D_list d "y") j0 (k + 1),
                  slice (D_list d "z") j0 (k + 1)) /\
  particle_trace s = (at_index (D_list d "x") k,
                      at_index (D_list d "y") k,
                      at_index (D_list d "z") k).

(** [k] runs of the interval callback. *)
Fixpoint ticks (k : nat) (s : dom (F:=F)) : dom :=
  match k with
  | O => s
  | S k' => on_tick d (ticks k' s)
  end.

End Sync.
End Sync.

(** * Facts *)

(** ** The definitions on small inputs *)

Example suffix_lower_examples :
  suffix "orbit.csv" = ".csv" /\ suffix "runs/orbit.v2.NPY" = ".NPY" /\
  suffix ".hidden" = "" /\ suffix "orbit." = "" /\ suffix "runs.d/orbit" = "" /\
  lower ".NPY" = ".npy".
Proof. repeat split. Qed.

Example Path_examples :
  Path "orbit.csv" = "orbit.csv" /\ Path "orbit.csv/" = "orbit.csv" /\
  Path "runs//orbit.csv/." = "runs/orbit.csv" /\ Path "./orbit.csv" = "orbit.csv" /\
  Path "/tmp/../orbit.npy" = "/tmp/../orbit.npy" /\
  Path "" = "." /\ Path "/" = "/" /\ Path "//srv/x" = "//srv/x" /\
  Path "///srv/x" = "/srv/x" /\
  suffix (Path "orbit.csv/") = ".csv" /\ suffix (Path "runs.d/") = ".d" /\
  suffix (Path ".") = "" /\ suffix (Path "..") = "" /\
  name (Path "runs/orbit.csv/") = "orbit.csv" /\ name (Path "./") = "" /\
  name (Path "/") = "" /\ name (Path "..") = "..".
Proof. repeat split. Qed.

Example infer_format_examples :
  infer_format args_orbit = Some "csv" /\ infer_format args_txt = None.
Proof. split; reflexivity. Qed.

Example binary64_examples :
  rmax [0; 2]%float [0; 0]%float [1; 0]%float = Ok 2%float /\
  lim 2%float = 2.1%float /\ lim 0%float = 1%float /\
  lim nan = 1%float /\ lim neg_infinity = 1%float /\
  np_max [1; nan; 3]%float = Ok nan /\
  show_horizon (Some infinity) = false.
Proof. repeat split. Qed.

Example player_examples :
  Player.to_int32 5 = 5%Z /\ Player.to_int32 (2 ^ 31) = (- 2 ^ 31)%Z /\
  Player.range_value 0 9 12 = 9%Z /\ Player.range_value 0 9 (-3) = 0%Z /\
  Player.slice [1; 2; 3; 4; 5]%Z 1 4 = [2; 3; 4]%Z /\
  Player.at_index [1; 2; 3]%Z 5 = None.
Proof. repeat split. Qed.

(** A file [orbit.txt] given without --format: exit code 1, the message
    on stderr names the format that could not be inferred. *)
Example txt_extension_exit_code :
  run (file_host "orbit.txt" table) args_txt
  = (1%Z, err_io "ERROR: Could not infer format from extension. Use --format npy|csv").
Proof. reflexivity. Qed.

(** ** Facts about the transform *)

Section TransformFacts.
Context {F : Type} `{Arith F} `{Trig F}.

Lemma np_mul_same_length (a b : list F) :
  List.length a = List.length b -> np_mul a b = Ok (zip_mul a b).
Proof.
  intros E. unfold np_mul. rewrite E, Nat.eqb_refl. reflexivity.
Qed.

Lemma zip_mul_length (a b : list F) :
  List.length a = List.length b -> List.length (zip_mul a b) = List.length a.
Proof.
  intros E. unfold zip_mul. rewrite length_map, length_combine, <- E. apply Nat.min_id.
Qed.

Lemma zip_mul_nth (a b : list F) (i : nat) (u v : F) :
  nth_error a i = Some u -> nth_error b i = Some v ->
  nth_error (zip_mul a b) i = Some (mul u v).
Proof.
  unfold zip_mul.
  revert b i. induction a as [|a0 a IH]; intros [|b0 b] [|i]; simpl; try discriminate.
  - intros [= ->] [= ->]. reflexivity.
  - apply IH.
Qed.

Lemma np_sin_length (a : list F) : List.length (np_sin a) = List.length a.
Proof. apply length_map. Qed.

Lemma np_cos_length (a : list F) : List.length (np_cos a) = List.length a.
Proof. apply length_map. Qed.

(** On arrays of one length the transform succeeds, with these arrays. *)
Lemma spherical_to_cartesian_same_length (r th ph : list F) :
  List.length th = List.length r -> List.length ph = List.length r ->
  spherical_to_cartesian r th ph
  = Ok (zip_mul (zip_mul r (np_sin th)) (np_cos ph),
        zip_mul (zip_mul r (np_sin th)) (np_sin ph),
        zip_mul r (np_cos th)).
Proof.
  intros Lt Lp. unfold spherical_to_cartesian.
  assert (Lrs : List.length (zip_mul r (np_sin th)) = List.length r)
    by (apply zip_mul_length; rewrite np_sin_length; congruence).
  rewrite (np_mul_same_length r (np_sin th)) by (rewrite np_sin_length; congruence).
  cbn [bind].
  rewrite (np_mul_same_length _ (np_cos ph)) by (rewrite np_cos_length; congruence).
  cbn [bind].
  rewrite (np_mul_same_length _ (np_sin ph)) by (rewrite np_sin_length; congruence).
  cbn [bind].
  rewrite (np_mul_same_length r (np_cos th)) by (rewrite np_cos_length; congruence).
  reflexivity.
Qed.

(** C1. On three arrays of one length N the transform returns three
    arrays of length N, and at every index i
    x[i] = r[i]*sin(theta[i])*cos(phi[i]),
    y[i] = r[i]*sin(theta[i])*sin(phi[i]),
    z[i] = r[i]*cos(theta[i]). *)
Theorem spherical_to_cartesian_pointwise (r th ph : list F) (N : nat) :
  List.length r = N -> List.length th = N -> List.length ph = N ->
  exists x y z,
    spherical_to_cartesian r th ph = Ok (x, y, z) /\
    List.length x = N /\ List.length y = N /\ List.length z = N /\
    forall i ri ti pi,
      nth_error r i = Some ri -> nth_error th i = Some ti ->
      nth_error ph i = Some pi ->
      nth_error x i = Some (mul (mul ri (sin ti)) (cos pi)) /\
      nth_error y i = Some (mul (mul ri (sin ti)) (sin pi)) /\
      nth_error z i = Some (mul ri (cos ti)).
Proof.
  intros Lr Lt Lp.
  do 3 eexists. split.
  { apply spherical_to_cartesian_same_length; congruence. }
  assert (Lrs : List.length (zip_mul r (np_sin th)) = N)
    by (rewrite zip_mul_length; [assumption | rewrite np_sin_length; congruence]).
  split; [rewrite zip_mul_length; [assumption | rewrite np_cos_length; congruence]|].
  split; [rewrite zip_mul_length; [assumption | rewrite np_sin_length; congruence]|].
  split; [rewrite zip_mul_length; [assumption | rewrite np_cos_length; congruence]|].
  intros i ri ti pi Hr Ht Hp.
  assert (Hrs : nth_error (zip_mul r (np_sin th)) i = Some (mul ri (sin ti))).
  { apply zip_mul_nth; [assumption|].
    unfold np_sin. rewrite nth_error_map, Ht. reflexivity. }
  split; [|split].
  - apply zip_mul_nth; [assumption|].
    unfold np_cos. rewrite nth_error_map, Hp. reflexivity.
  - apply zip_mul_nth; [assumption|].
    unfold np_sin. rewrite nth_error_map, Hp. reflexivity.
  - apply zip_mul_nth; [assumption|].
    unfold np_cos. rewrite nth_error_map, Ht. reflexivity.
Qed.

End TransformFacts.

(** ** Facts about the loader *)

Section LoaderFacts.
Context {F : Type} `{Arith F} `{Trig F}.

Lemma concat_firstn_rows_nth (k n m : nat) (d : list F) (i j : nat) :
  (k <= m)%nat -> (n * m <= List.length d)%nat -> (i < n)%nat -> (j < k)%nat ->
  nth_error (List.concat (map (firstn k) (rows n m d))) (i * k + j)
  = nth_error d (i * m + j).
Proof.
  intros Hkm. revert d i.
  induction n as [|n IH]; intros d i Hlen Hi Hj; [lia|].
  simpl rows. simpl map. simpl List.concat.
  assert (Lf : List.length (firstn k (firstn m d)) = k).
  { rewrite !length_firstn. simpl in Hlen. lia. }
  destruct i as [|i].
  - simpl. rewrite nth_error_app1 by lia.
    rewrite !nth_error_firstn.
    destruct (Nat.ltb_spec j k); [|lia].
    destruct (Nat.ltb_spec j m); [reflexivity|lia].
  - rewrite nth_error_app2 by (rewrite Lf; simpl; lia).
    rewrite Lf.
    replace (S i * k + j - k)%nat with (i * k + j)%nat by (simpl; lia).
    rewrite IH.
    + rewrite nth_error_skipn. f_equal. simpl. lia.
    + rewrite length_skipn. simpl in Hlen. lia.
    + lia.
    + assumption.
Qed.

Lemma get2_slice_cols (a : ndarray F) (i j : nat) :
  (4 <= ncols a)%nat ->
  List.length (data a) = (nrows a * ncols a)%nat ->
  (i < nrows a)%nat -> (j < 4)%nat ->
  get2 (slice_cols 4 a) i j = get2 a i j.
Proof.
  intros Hc Hd Hi Hj. unfold get2.
  change (ncols (slice_cols 4 a)) with (Nat.min 4 (ncols a)).
  rewrite Nat.min_l by assumption.
  change (data (slice_cols 4 a))
    with (List.concat (map (firstn 4) (rows (nrows a) (ncols a) (data a)))).
  apply concat_firstn_rows_nth; lia.
Qed.

(** C2. On a parsed array the loader raises the shape error exactly when
    the array is not two-dimensional or has fewer than 4 columns;
    otherwise it returns the array's first 4 columns, every row in place:
    the result has shape (rows, 4) and its element (i, j) is the element
    (i, j) of the parsed array. *)
Theorem load_trajectory_first_four_columns
  (h : host F) (path file_format : string) (arr : ndarray F) :
  (file_format = "npy" /\ np_load h path = Ok arr) \/
  (file_format = "csv" /\ np_loadtxt h path = Ok arr) ->
  (load_trajectory h path file_format = Raise InvalidShape
   <-> (ndim arr <> 2 \/ ncols arr < 4)%nat) /\
  ((exists e, load_trajectory h path file_format = Raise e)
   <-> (ndim arr <> 2 \/ ncols arr < 4)%nat) /\
  (~ (ndim arr <> 2 \/ ncols arr < 4)%nat ->
   load_trajectory h path file_format = Ok (slice_cols 4 arr) /\
   shape (slice_cols 4 arr) = [nrows arr; 4%nat] /\
   (List.length (data arr) = (nrows arr * ncols arr)%nat ->
    forall i j, (i < nrows arr)%nat -> (j < 4)%nat ->
      get2 (slice_cols 4 arr) i j = get2 arr i j /\
      exists v, get2 arr i j = Some v)).
Proof.
  intros Hparse.
  assert (E : load_trajectory h path file_format
              = if negb (ndim arr =? 2)%nat || (ncols arr <? 4)%nat
                then Raise InvalidShape else Ok (slice_cols 4 arr)).
  { unfold load_trajectory.
    destruct Hparse as [[-> ->] | [-> ->]]; reflexivity. }
  assert (B : negb (ndim arr =? 2)%nat || (ncols arr <? 4)%nat = true
              <-> (ndim arr <> 2 \/ ncols arr < 4)%nat).
  { rewrite orb_true_iff, negb_true_iff, Nat.eqb_neq, Nat.ltb_lt. tauto. }
  destruct (negb (ndim arr =? 2)%nat || (ncols arr <? 4)%nat).
  - assert (Hbad : (ndim arr <> 2 \/ ncols arr < 4)%nat) by (apply B; reflexivity).
    split; [tauto|]. split; [|tauto].
    split; [intros _; exact Hbad | intros _; eexists; exact E].
  - assert (Hgood : ~ (ndim arr <> 2 \/ ncols arr < 4)%nat)
      by (intros Hbad; apply B in Hbad; discriminate).
    rewrite E.
    split; [split; [discriminate | tauto]|].
    split; [split; [intros [e He]; discriminate | tauto]|].
    intros _.
    assert (Hc : (4 <= ncols arr)%nat) by lia.
    split; [reflexivity|]. split.
    + unfold slice_cols. cbn [shape]. rewrite Nat.min_l by exact Hc. reflexivity.
    + intros Hwf i j Hi Hj. split.
      * apply get2_slice_cols; assumption.
      * unfold get2.
        destruct (nth_error (data arr) (i * ncols arr + j)) eqn:En; [eauto|].
        apply nth_error_None in En. nia.
Qed.

End LoaderFacts.

(** ** Well-formed arrays and their columns *)

Section ArrayFacts.
Context {F : Type} `{Arith F} `{Trig F}.

Lemma wf_2d (a : ndarray F) :
  wf a -> ndim a = 2%nat -> List.length (data a) = (nrows a * ncols a)%nat.
Proof.
  unfold wf, ndim, nrows, ncols. destruct (shape a) as [|n [|m [|? ?]]]; simpl; try discriminate.
  intros -> _. lia.
Qed.

Lemma rows_length (n m : nat) (d : list F) : List.length (rows n m d) = n.
Proof. revert d. induction n; intros d; simpl; [reflexivity | f_equal; apply IHn]. Qed.

Lemma rows_each (n m : nat) (d : list F) :
  (n * m <= List.length d)%nat ->
  Forall (fun r => List.length r = m) (rows n m d).
Proof.
  revert d. induction n as [|n IH]; intros d Hd; simpl; constructor.
  - rewrite length_firstn. simpl in Hd. lia.
  - apply IH. rewrite length_skipn. simpl in Hd. lia.
Qed.

Lemma rows_concat (m : nat) (rs : list (list F)) :
  Forall (fun r => List.length r = m) rs ->
  rows (List.length rs) m (List.concat rs) = rs.
Proof.
  induction 1 as [|r rs Hr _ IH]; simpl; [reflexivity|].
  rewrite firstn_app, skipn_app, Hr, Nat.sub_diag, firstn_all2, skipn_all2 by lia.
  simpl. rewrite app_nil_r, IH. reflexivity.
Qed.

Lemma column_length (j : nat) (rs : list (list F)) :
  Forall (fun r => (j < List.length r)%nat) rs ->
  List.length (column j rs) = List.length rs.
Proof.
  unfold column. induction 1 as [|r rs Hr _ IH]; [reflexivity|].
  cbn [flat_map]. rewrite length_app, IH, length_firstn, length_skipn.
  cbn [List.length]. lia.
Qed.

Lemma traj_rows_each (arr : ndarray F) :
  List.length (data arr) = (nrows arr * ncols arr)%nat -> (4 <= ncols arr)%nat ->
  Forall (fun r => List.length r = 4%nat) (traj_rows arr).
Proof.
  intros Hd Hc. unfold traj_rows. apply Forall_map.
  eapply Forall_impl; [|apply (rows_each (nrows arr) (ncols arr)); lia].
  intros r Hr. simpl in Hr. rewrite length_firstn. lia.
Qed.

Lemma traj_rows_length (arr : ndarray F) :
  List.length (traj_rows arr) = nrows arr.
Proof. unfold traj_rows. rewrite length_map. apply rows_length. Qed.

Lemma T_slice_cols (arr : ndarray F) :
  List.length (data arr) = (nrows arr * ncols arr)%nat -> (4 <= ncols arr)%nat ->
  T (slice_cols 4 arr)
  = [column 0 (traj_rows arr); column 1 (traj_rows arr);
     column 2 (traj_rows arr); column 3 (traj_rows arr)].
Proof.
  intros Hd Hc. unfold T.
  change (ncols (slice_cols 4 arr)) with (Nat.min 4 (ncols arr)).
  rewrite Nat.min_l by exact Hc.
  change (nrows (slice_cols 4 arr)) with (nrows arr).
  change (data (slice_cols 4 arr)) with (List.concat (traj_rows arr)).
  assert (E : rows (nrows arr) 4 (List.concat (traj_rows arr)) = traj_rows arr).
  { rewrite <- (traj_rows_length arr) at 1.
    apply rows_concat, traj_rows_each; assumption. }
  rewrite E. reflexivity.
Qed.

Lemma traj_column_length (arr : ndarray F) (j : nat) :
  List.length (data arr) = (nrows arr * ncols arr)%nat -> (4 <= ncols arr)%nat ->
  (j < 4)%nat ->
  List.length (column j (traj_rows arr)) = nrows arr.
Proof.
  intros Hd Hc Hj. rewrite column_length, traj_rows_length; [reflexivity|].
  eapply Forall_impl; [|apply (traj_rows_each arr Hd Hc)].
  intros r Hr. simpl in Hr. lia.
Qed.

End ArrayFacts.

(** ** Runs of [main] *)

Section MainFacts.
Context {F : Type} `{Arith F} `{Trig F}.

Lemma exit1_run (h : host F) (msg : string) :
  pbind (print_err h msg) (fun _ => sys_exit 1) io0 = exit1 h msg :> result unit * io F.
Proof.
  unfold pbind, print_err, exit1. destruct (print_error h Stderr msg); reflexivity.
Qed.

Lemma main_missing_file (h : host F) (a : args F) :
  path_exists h (input_path a) = false ->
  main h a io0 = exit1 h ("ERROR: File not found: " ++ input_path a).
Proof.
  intros E. unfold input_path in *. rewrite <- exit1_run.
  unfold main. unfold pbind at 1. cbn [parse_args ret].
  unfold pbind at 1. rewrite E. cbn [negb].
  unfold pbind, print_err. destruct (print_error h Stderr _); reflexivity.
Qed.

Lemma main_format (h : host F) (a : args F) (f : string) (k : string -> py F unit) :
  infer_format a = Some f ->
  pbind match args_format a with
        | Some f => ret (fmt_name f)
        | None =>
            let ext := lower (suffix (Path (args_input a))) in
            if ext =? ".npy" then ret "npy"
            else if ext =? ".csv" then ret "csv"
            else pbind (print_err h "ERROR: Could not infer format from extension. Use --format npy|csv")
                       (fun _ => sys_exit 1)
        end k io0
  = k f io0.
Proof.
  unfold infer_format, input_path. destruct (args_format a).
  - intros [= <-]. reflexivity.
  - cbv zeta. destruct (lower (suffix (Path (args_input a))) =? ".npy").
    + intros [= <-]. reflexivity.
    + destruct (lower (suffix (Path (args_input a))) =? ".csv"); [|discriminate].
      intros [= <-]. reflexivity.
Qed.

Lemma main_no_format (h : host F) (a : args F) :
  path_exists h (input_path a) = true ->
  infer_format a = None ->
  main h a io0
  = exit1 h "ERROR: Could not infer format from extension. Use --format npy|csv".
Proof.
  intros E Hf. unfold input_path in *. rewrite <- exit1_run.
  unfold main. unfold pbind at 1. cbn [parse_args ret].
  unfold pbind at 1. rewrite E. cbn [negb ret].
  unfold infer_format, input_path in Hf.
  destruct (args_format a); [discriminate|].
  cbv zeta in Hf. cbv zeta.
  destruct (lower (suffix (Path (args_input a))) =? ".npy"); [discriminate|].
  destruct (lower (suffix (Path (args_input a))) =? ".csv"); [discriminate|].
  unfold pbind, print_err. destruct (print_error h Stderr _); reflexivity.
Qed.

Lemma main_load_raises (h : host F) (a : args F) (f : string) (e : exn) :
  path_exists h (input_path a) = true ->
  infer_format a = Some f ->
  load_trajectory h (input_path a) f = Raise e ->
  main h a io0 = (Raise e, io0).
Proof.
  intros E Hf Hl. unfold input_path in *.
  unfold main. unfold pbind at 1. cbn [parse_args ret].
  unfold pbind at 1. rewrite E. cbn [negb ret].
  rewrite (main_format h a _ Hf).
  unfold pbind, lift. rewrite Hl. reflexivity.
Qed.

Lemma cartesian_of_length (arr : ndarray F) :
  List.length (data arr) = (nrows arr * ncols arr)%nat -> (4 <= ncols arr)%nat ->
  let '(x, y, z) := cartesian_of arr in
  List.length x = nrows arr /\ List.length y = nrows arr /\ List.length z = nrows arr.
Proof.
  intros Hd Hc. unfold cartesian_of.
  pose proof (traj_column_length arr Hd Hc (j:=1) ltac:(lia)) as L1.
  pose proof (traj_column_length arr Hd Hc (j:=2) ltac:(lia)) as L2.
  pose proof (traj_column_length arr Hd Hc (j:=3) ltac:(lia)) as L3.
  assert (Lrs : List.length (zip_mul (column 1 (traj_rows arr))
                               (np_sin (column 2 (traj_rows arr)))) = nrows arr)
    by (rewrite zip_mul_length; [assumption | rewrite np_sin_length; congruence]).
  repeat split.
  - rewrite zip_mul_length; [assumption | rewrite np_cos_length; congruence].
  - rewrite zip_mul_length; [assumption | rewrite np_sin_length; congruence].
  - rewrite zip_mul_length; [assumption | rewrite np_cos_length; congruence].
Qed.

Lemma finish_run (h : host F) (a : args F) (d : document F) :
  pbind (write_text h (output_path a) d)
    (fun _ => pbind (print_out h ("Wrote " ++ path_resolve h (output_path a)))
       (fun _ => if args_open a
                 then webbrowser_open (as_uri h (path_resolve h (output_path a)))
                 else ret tt)) io0
  = finish h a d.
Proof.
  unfold finish, wrote, pbind, write_text, print_out.
  destruct (write_error h (output_path a)); [reflexivity|].
  cbn [stdout stderr files browser io0].
  destruct (print_error h Stdout _); [reflexivity|].
  unfold done_io, wrote, webbrowser_open, ret, emit. cbn.
  destruct (args_open a); reflexivity.
Qed.

(** What [main] does once a well-formed array with at least 4 columns is
    loaded. *)
Lemma main_loaded (h : host F) (a : args F) (f : string) (arr : ndarray F) :
  path_exists h (input_path a) = true ->
  infer_format a = Some f ->
  load_trajectory h (input_path a) f = Ok (slice_cols 4 arr) ->
  List.length (data arr) = (nrows arr * ncols arr)%nat -> (4 <= ncols arr)%nat ->
  main h a io0
  = let '(x, y, z) := cartesian_of arr in
    if (nrows arr <? 2)%nat
    then exit1 h "ERROR: Need at least 2 trajectory samples."
    else match rmax x y z with
         | Raise e => (Raise e, io0)
         | Ok m =>
             match compute_rs a with
             | Raise e => (Raise e, io0)
             | Ok rs => finish h a (html_of h a x y z m rs)
             end
         end.
Proof.
  intros E Hf Hl Hd Hc.
  pose proof (cartesian_of_length arr Hd Hc) as HL.
  unfold input_path in *.
  unfold main. unfold pbind at 1. cbn [parse_args ret].
  unfold pbind at 1. rewrite E. cbn [negb ret].
  rewrite (main_format h a _ Hf).
  unfold pbind at 1. unfold lift at 1. rewrite Hl.
  unfold pbind at 1. unfold lift at 1. rewrite (T_slice_cols arr Hd Hc). cbn [unpack4].
  unfold pbind at 1. unfold lift at 1.
  rewrite spherical_to_cartesian_same_length
    by (rewrite !traj_column_length by (assumption || lia); reflexivity).
  unfold cartesian_of in *.
  destruct HL as (Lx & Ly & Lz).
  rewrite Lx.
  unfold pbind at 1.
  destruct (nrows arr <? 2)%nat.
  { rewrite exit1_run. unfold exit1.
    destruct (print_error h Stderr _); reflexivity. }
  cbn [ret].
  unfold pbind at 1. unfold lift at 1.
  destruct (rmax _ _ _) as [m|e]; [|reflexivity].
  unfold pbind at 1. unfold lift at 1.
  destruct (compute_rs a) as [rs|e]; [|reflexivity].
  unfold html_of. rewrite Lx.
  apply (finish_run h a).
Qed.

Lemma rmax_ok (x y z : list F) :
  x <> [] -> exists m, rmax x y z = Ok m.
Proof.
  intros Hx. unfold rmax, np_max, np_abs.
  destruct x as [|x0 x]; [congruence|]. cbn. eauto.
Qed.

Lemma load_trajectory_inv (h : host F) (p f : string) (traj : ndarray F) :
  load_trajectory h p f = Ok traj ->
  exists arr,
    (np_load h p = Ok arr \/ np_loadtxt h p = Ok arr) /\
    ndim arr = 2%nat /\ (4 <= ncols arr)%nat /\ traj = slice_cols 4 arr.
Proof.
  unfold load_trajectory. intros Hl.
  assert (P : exists arr,
             (np_load h p = Ok arr \/ np_loadtxt h p = Ok arr) /\
             (if negb (ndim arr =? 2)%nat || (ncols arr <? 4)%nat
              then Raise InvalidShape else Ok (slice_cols 4 arr)) = Ok traj).
  { destruct (f =? "npy").
    - destruct (np_load h p) as [arr|e] eqn:E; [|discriminate]. eauto.
    - destruct (f =? "csv"); [|discriminate].
      destruct (np_loadtxt h p) as [arr|e] eqn:E; [|discriminate]. eauto. }
  destruct P as (arr & Hp & Hs). exists arr. split; [exact Hp|].
  destruct (Nat.eqb_spec (ndim arr) 2) as [Hd|Hd]; [|discriminate].
  destruct (Nat.ltb_spec (ncols arr) 4) as [Hc|Hc]; [discriminate|].
  cbn in Hs. injection Hs as <-. auto.
Qed.

(** The six ways a run of [main] goes once the command line is parsed. *)
Lemma main_runs (h : host F) (a : args F) :
  host_wf h ->
  (path_exists h (input_path a) = false /\
   main h a io0 = exit1 h ("ERROR: File not found: " ++ input_path a)) \/
  (path_exists h (input_path a) = true /\ infer_format a = None /\
   main h a io0
   = exit1 h "ERROR: Could not infer format from extension. Use --format npy|csv") \/
  (exists f e,
     path_exists h (input_path a) = true /\ infer_format a = Some f /\
     load_trajectory h (input_path a) f = Raise e /\
     main h a io0 = (Raise e, io0)) \/
  (exists f traj,
     path_exists h (input_path a) = true /\ infer_format a = Some f /\
     load_trajectory h (input_path a) f = Ok traj /\ (nrows traj < 2)%nat /\
     main h a io0 = exit1 h "ERROR: Need at least 2 trajectory samples.") \/
  (exists f traj e,
     path_exists h (input_path a) = true /\ infer_format a = Some f /\
     load_trajectory h (input_path a) f = Ok traj /\ (2 <= nrows traj)%nat /\
     compute_rs a = Raise e /\
     main h a io0 = (Raise e, io0)) \/
  (exists f traj rs x y z m,
     path_exists h (input_path a) = true /\ infer_format a = Some f /\
     load_trajectory h (input_path a) f = Ok traj /\ (2 <= nrows traj)%nat /\
     compute_rs a = Ok rs /\
     List.length x = nrows traj /\ rmax x y z = Ok m /\
     main h a io0 = finish h a (html_of h a x y z m rs)).
Proof.
  intros Hwf.
  destruct (path_exists h (input_path a)) eqn:E.
  2:{ left. split; [reflexivity|]. apply main_missing_file, E. }
  right.
  destruct (infer_format a) as [f|] eqn:Hf.
  2:{ left. repeat split; try assumption. apply main_no_format; assumption. }
  right.
  destruct (load_trajectory h (input_path a) f) as [traj|e] eqn:Hl.
  2:{ left. exists f, e. repeat split; try assumption.
      apply (main_load_raises h a E Hf Hl). }
  right.
  destruct (load_trajectory_inv h _ _ Hl) as (arr & Hp & Hd & Hc & ->).
  assert (Hlen : List.length (data arr) = (nrows arr * ncols arr)%nat)
    by (apply wf_2d; [eapply Hwf; exact Hp | exact Hd]).
  pose proof (main_loaded h a E Hf Hl Hlen Hc) as Hm.
  pose proof (cartesian_of_length arr Hlen Hc) as HL.
  destruct (cartesian_of arr) as [[x y] z]. destruct HL as (Lx & Ly & Lz).
  change (nrows (slice_cols 4 arr)) with (nrows arr).
  destruct (Nat.ltb_spec (nrows arr) 2) as [Hn|Hn].
  { left. exists f, (slice_cols 4 arr). repeat split; assumption. }
  right.
  destruct (rmax_ok (x:=x) y z) as [m Hr].
  { intros ->. simpl in Lx. lia. }
  rewrite Hr in Hm.
  destruct (compute_rs a) as [rs|e] eqn:Hrs.
  - right. exists f, (slice_cols 4 arr), rs, x, y, z, m. repeat split; assumption.
  - left. exists f, (slice_cols 4 arr), e. repeat split; assumption.
Qed.

(** How [exit1] and [finish] end. *)
Lemma exit1_not_ok (h : host F) (msg : string) (w : io F) :
  exit1 h msg <> (Ok tt, w).
Proof.
  unfold exit1. destruct (print_error h Stderr msg); discriminate.
Qed.


Lemma finish_ok (h : host F) (a : args F) (d : document F) :
  write_error h (output_path a) = None ->
  print_error h Stdout (wrote h a) = None ->
  finish h a d = (Ok tt, done_io h a d).
Proof. unfold finish. intros -> ->. reflexivity. Qed.

Lemma finish_ok_inv (h : host F) (a : args F) (d : document F) (w : io F) :
  finish h a d = (Ok tt, w) ->
  w = done_io h a d /\ write_error h (output_path a) = None /\
  print_error h Stdout (wrote h a) = None.
Proof.
  unfold finish.
  destruct (write_error h (output_path a)); [discriminate|].
  destruct (print_error h Stdout (wrote h a)); [discriminate|].
  intros [= <-]. auto.
Qed.


(** A run by its message: [main] ends as [exit1] does exactly when there
    is a message; otherwise a format is resolved, and the run ends with
    the loader's exception, or with that of [compute_rs], or as [finish]
    does on the document. *)
Lemma main_by_message (h : host F) (a : args F) :
  host_wf h ->
  match error_message h a with
  | Some msg => main h a io0 = exit1 h msg
  | None =>
      exists f,
        path_exists h (input_path a) = true /\ infer_format a = Some f /\
        match load_trajectory h (input_path a) f with
        | Raise e => main h a io0 = (Raise e, io0)
        | Ok traj =>
            (2 <= nrows traj)%nat /\
            match compute_rs a with
            | Raise e => main h a io0 = (Raise e, io0)
            | Ok rs =>
                exists x y z m,
                  List.length x = nrows traj /\ rmax x y z = Ok m /\
                  main h a io0 = finish h a (html_of h a x y z m rs)
            end
        end
  end.
Proof.
  intros Hwf. unfold error_message.
  destruct (main_runs a Hwf)
    as [(E & Hm) | [(E & Hf & Hm) | [(f & e & E & Hf & Hl & Hm)
       | [(f & t & E & Hf & Hl & Hn & Hm)
       | [(f & t & e & E & Hf & Hl & Hn & Hrs & Hm)
       | (f & t & rs & x & y & z & m & E & Hf & Hl & Hn & Hrs & Lx & Hr & Hm)]]]]];
    rewrite E; cbn [negb].
  - exact Hm.
  - rewrite Hf. exact Hm.
  - rewrite Hf, Hl. exists f. rewrite Hl. auto.
  - rewrite Hf, Hl. destruct (Nat.ltb_spec (nrows t) 2); [exact Hm | lia].
  - rewrite Hf, Hl. destruct (Nat.ltb_spec (nrows t) 2); [lia|].
    exists f. rewrite Hl, Hrs. auto.
  - rewrite Hf, Hl. destruct (Nat.ltb_spec (nrows t) 2); [lia|].
    exists f. rewrite Hl, Hrs. split; [reflexivity|]. split; [reflexivity|].
    split; [exact Hn|]. exists x, y, z, m. auto.
Qed.

(** The document of a run that loads at least two samples and resolves the
    horizon: the run ends as [finish] does on it. *)
Lemma main_done (h : host F) (a : args F) (f : string) (traj : ndarray F)
  (rs : option F) :
  host_wf h ->
  path_exists h (input_path a) = true ->
  infer_format a = Some f ->
  load_trajectory h (input_path a) f = Ok traj ->
  (2 <= nrows traj)%nat ->
  compute_rs a = Ok rs ->
  exists x y z m,
    List.length x = nrows traj /\ rmax x y z = Ok m /\
    main h a io0 = finish h a (html_of h a x y z m rs).
Proof.
  intros Hwf E Hf Hl Hn Hrs.
  destruct (main_runs a Hwf)
    as [(E' & _) | [(_ & Hf' & _) | [(f' & e & _ & Hf' & Hl' & _)
       | [(f' & t' & _ & Hf' & Hl' & Hn' & _)
       | [(f' & t' & e & _ & Hf' & Hl' & _ & Hrs' & _)
       | (f' & t' & rs' & x & y & z & m & _ & Hf' & Hl' & _ & Hrs' & Lx & Hm & Hmain)]]]]].
  - congruence.
  - congruence.
  - assert (f' = f) by congruence. subst f'. congruence.
  - assert (f' = f) by congruence. subst f'.
    assert (t' = traj) by congruence. subst t'. lia.
  - congruence.
  - assert (f' = f) by congruence. subst f'.
    assert (t' = traj) by congruence. subst t'.
    assert (rs' = rs) by congruence. subst rs'.
    exists x, y, z, m. auto.
Qed.

(** A run that returns has gone all the way: no message, a trajectory of
    at least 2 samples, a resolved horizon, and a host that took the file
    and the line. *)
Lemma main_returned (h : host F) (a : args F) (w : io F) :
  host_wf h ->
  main h a io0 = (Ok tt, w) ->
  error_message h a = None /\
  write_error h (output_path a) = None /\
  print_error h Stdout (wrote h a) = None /\
  exists f traj rs x y z m,
    path_exists h (input_path a) = true /\ infer_format a = Some f /\
    load_trajectory h (input_path a) f = Ok traj /\ (2 <= nrows traj)%nat /\
    compute_rs a = Ok rs /\
    List.length x = nrows traj /\ rmax x y z = Ok m /\
    main h a io0 = finish h a (html_of h a x y z m rs) /\
    w = done_io h a (html_of h a x y z m rs).
Proof.
  intros Hwf Hmain. pose proof (main_by_message a Hwf) as M.
  destruct (error_message h a) as [msg|].
  { rewrite Hmain in M. symmetry in M. apply exit1_not_ok in M. contradiction. }
  destruct M as (f & E & Hf & M).
  destruct (load_trajectory h (input_path a) f) as [traj|e] eqn:Hl;
    [|rewrite Hmain in M; discriminate].
  destruct M as (Hn & M).
  destruct (compute_rs a) as [rs|e] eqn:Hrs; [|rewrite Hmain in M; discriminate].
  destruct M as (x & y & z & m & Lx & Hr & M).
  pose proof M as M'. rewrite Hmain in M'. symmetry in M'.
  destruct (finish_ok_inv _ _ _ M') as (-> & Hw & Hp).
  split; [reflexivity|]. split; [exact Hw|]. split; [exact Hp|].
  exists f, traj, rs, x, y, z, m. auto 12.
Qed.

Lemma run_of_main (h : host F) (c : cmdline F) (w : io F) :
  (main h c io0 = (Ok tt, w) -> run h c = (0%Z, w)) /\
  (forall code, main h c io0 = (Raise (SystemExit code), w) -> run h c = (code, w)).
Proof.
  unfold run. split; [intros -> | intros code ->]; reflexivity.
Qed.


(** C6. In a run on a trajectory of N >= 2 samples the document that
    [main] writes has as its initial tail value the requested value
    clamped into [0, N-1]: the request itself when it lies in the range, 0
    below it (so for -5) and N-1 above it (so for N+100).  The run ends as
    [finish] does on that document: it returns with the document written
    when the host takes the file and the line. *)
Theorem tail_clamped (h : host F) (a : args F) (f : string) (traj : ndarray F)
  (rs : option F) :
  host_wf h ->
  path_exists h (input_path a) = true ->
  infer_format a = Some f ->
  load_trajectory h (input_path a) f = Ok traj ->
  (2 <= nrows traj)%nat ->
  compute_rs a = Ok rs ->
  exists d,
    main h a io0 = finish h a d /\
    (write_error h (output_path a) = None ->
     print_error h Stdout (wrote h a) = None ->
     main h a io0 = (Ok tt, done_io h a d)) /\
    let N := Z.of_nat (nrows traj) in
    (Nmax d = N - 1 /\
     0 <= doc_tail d <= N - 1 /\
     (0 <= args_tail a <= N - 1 -> doc_tail d = args_tail a) /\
     (args_tail a < 0 -> doc_tail d = 0) /\
     (N - 1 < args_tail a -> doc_tail d = N - 1) /\
     (args_tail a = -5 -> doc_tail d = 0) /\
     (args_tail a = N + 100 -> doc_tail d = N - 1))%Z.
Proof.
  intros Hwf E Hf Hl Hn Hrs.
  destruct (main_done a Hwf E Hf Hl Hn Hrs) as (x & y & z & m & Lx & _ & Hmain).
  eexists. split; [exact Hmain|].
  split; [intros Hw Hp; rewrite Hmain; apply finish_ok; assumption|].
  cbn [html_of Nmax doc_tail]. unfold tail. rewrite Lx.
  repeat split; intros; lia.
Qed.

Lemma compute_rs_unset (a : args F) :
  args_rs a = None ->
  args_mass a = None \/ args_G a = None \/ args_c a = None ->
  compute_rs a = Ok None.
Proof.
  intros Hrs Hm. unfold compute_rs. rewrite Hrs.
  destruct (args_mass a); [|reflexivity].
  destruct (args_G a); [|reflexivity].
  destruct (args_c a); [|reflexivity].
  destruct Hm as [Hm | [Hm | Hm]]; discriminate.
Qed.

(** C10. In a run on at least 2 samples with the horizon radius unresolved
    (no --rs, and not all of --mass, --G, --c) the payload of the document
    that [main] writes holds "rs" with the float 0.0 and "show_horizon"
    with false, the badge text is an em dash and the checkbox is
    unchecked; the run ends as [finish] does on that document, returning
    with it written when the host takes the file and the line.  And
    whatever document a run writes, its payload holds a float under
    "rs". *)
Theorem unresolved_horizon_payload (h : host F) (a : args F) (f : string)
  (traj : ndarray F) :
  host_wf h ->
  path_exists h (input_path a) = true ->
  infer_format a = Some f ->
  load_trajectory h (input_path a) f = Ok traj ->
  (2 <= nrows traj)%nat ->
  args_rs a = None ->
  args_mass a = None \/ args_G a = None \/ args_c a = None ->
  (exists d,
     main h a io0 = finish h a d /\
     (write_error h (output_path a) = None ->
      print_error h Stdout (wrote h a) = None ->
      main h a io0 = (Ok tt, done_io h a d)) /\
     lookup "rs" (data_json d) = Some (JFloat lit_0) /\
     lookup "show_horizon" (data_json d) = Some (JBool false) /\
     rs_text d = "—" /\
     horizon_checked d = "") /\
  (forall (a' : args F) w p d,
     main h a' io0 = (Ok tt, w) -> In (p, d) (files w) ->
     exists v, lookup "rs" (data_json d) = Some (JFloat v)).
Proof.
  intros Hwf E Hf Hl Hn Hrs Hm.
  split.
  - destruct (main_done a Hwf E Hf Hl Hn (compute_rs_unset a Hrs Hm))
      as (x & y & z & m & _ & _ & Hmain).
    eexists. split; [exact Hmain|].
    split; [intros Hw Hp; rewrite Hmain; apply finish_ok; assumption|].
    repeat split.
  - intros a' w p d Hmain Hin.
    destruct (main_returned a' Hwf Hmain)
      as (_ & _ & _ & f' & t' & rs' & x & y & z & m & _ & _ & _ & _ & _ & _ & _ & _ & ->).
    cbn [done_io files] in Hin.
    destruct Hin as [[= _ <-] | []].
    cbn. eauto.
Qed.

End MainFacts.

(** ** Facts about the player *)

Module PlayerFacts.
Import Player Sync.
Local Open Scope Z_scope.

Section PlayerFacts.
Context {F : Type}.
Variable d : document F.

(** What the template's fields and the payload of a written document
    satisfy: see [written_lists] below. *)
Hypothesis HN : 2 <= D_N d.
Hypothesis HNmax : Nmax d = D_N d - 1.

Lemma range_value_bounds (v : Z) : 0 <= range_value 0 (Nmax d) v <= D_N d - 1.
Proof.
  unfold range_value. rewrite HNmax.
  destruct (Z.ltb_spec (D_N d - 1) 0); lia.
Qed.

Lemma range_value_id (v : Z) :
  0 <= v <= D_N d - 1 -> range_value 0 (Nmax d) v = v.
Proof.
  intros Hv. unfold range_value. rewrite HNmax.
  destruct (Z.ltb_spec (D_N d - 1) 0); lia.
Qed.

Lemma slider_setIndex (i : Z) (s : dom) : slider (setIndex d i s) = slider s.
Proof. reflexivity. Qed.

Lemma timer_setIndex (i : Z) (s : dom) : timer (setIndex d i s) = timer s.
Proof. reflexivity. Qed.

Lemma slider_in_range (s : dom (F:=F)) :
  reachable d s -> 0 <= slider s <= D_N d - 1.
Proof.
  induction 1 as [|s ev s' _ IH Hstep].
  - unfold init. rewrite slider_setIndex. cbn [slider]. apply range_value_bounds.
  - destruct Hstep as [s | s ms _ | s i | s L | s b].
    + unfold on_play_click. destruct (timer s); exact IH.
    + unfold on_tick. rewrite slider_setIndex. cbn [set_slider slider].
      apply range_value_bounds.
    + unfold on_slider_input. rewrite slider_setIndex. cbn [set_slider slider].
      apply range_value_bounds.
    + unfold on_tail_input. rewrite slider_setIndex. exact IH.
    + exact IH.
Qed.

Lemma tick_index (v : Z) :
  0 <= v <= D_N d - 1 ->
  Z.rem (1 + v) (D_N d) = (v + 1) mod D_N d /\
  0 <= Z.rem (1 + v) (D_N d) <= D_N d - 1 /\
  (v = D_N d - 1 -> Z.rem (1 + v) (D_N d) = 0) /\
  (v < D_N d - 1 -> Z.rem (1 + v) (D_N d) = v + 1).
Proof.
  intros Hv.
  assert (E : Z.rem (1 + v) (D_N d) = (v + 1) mod D_N d).
  { rewrite Z.rem_mod_nonneg by lia. f_equal. lia. }
  rewrite E. split; [reflexivity|].
  split; [pose proof (Z.mod_pos_bound (v + 1) (D_N d)); lia|].
  split; intros Hc.
  - replace (v + 1) with (D_N d) by lia. apply Z.mod_same. lia.
  - apply Z.mod_small. lia.
Qed.

Lemma on_tick_as_scrub (s : dom (F:=F)) :
  0 <= slider s <= D_N d - 1 ->
  on_tick d s = on_slider_input d (Z.rem (1 + slider s) (D_N d)) s.
Proof.
  intros Hs. unfold on_tick, on_slider_input. cbv zeta.
  cbn [set_slider slider].
  rewrite range_value_id by (apply tick_index; exact Hs).
  reflexivity.
Qed.

Lemma setIndex_drawn (i : Z) (s : dom (F:=F)) :
  slider s = i -> drawn_for_slider d (setIndex d i s).
Proof.
  intros <-. unfold drawn_for_slider, shown_index, setIndex. cbn. split; reflexivity.
Qed.

(** Every event that moves a slider redraws through [setIndex] at the
    slider's value, and no other event touches the slider or the traces. *)
Lemma drawn_reachable (s : dom (F:=F)) :
  reachable d s -> drawn_for_slider d s.
Proof.
  induction 1 as [|s ev s' Hs IH Hstep].
  - unfold init. apply setIndex_drawn. cbn [slider]. apply range_value_id. lia.
  - destruct Hstep as [s | s ms _ | s i | s L | s b].
    + unfold on_play_click. destruct (timer s); exact IH.
    + unfold on_tick. cbv zeta. apply setIndex_drawn. cbn [set_slider slider].
      apply range_value_id. apply tick_index. apply slider_in_range. exact Hs.
    + unfold on_slider_input. cbv zeta. apply setIndex_drawn. reflexivity.
    + unfold on_tail_input. cbv zeta. apply setIndex_drawn. reflexivity.
    + exact IH.
Qed.

Lemma shown_index_bounds (s : dom (F:=F)) : 0 <= shown_index d s <= D_N d - 1.
Proof. unfold shown_index. lia. Qed.

Lemma shown_index_slider (s : dom (F:=F)) :
  D_N d <= 2 ^ 31 -> 0 <= slider s <= D_N d - 1 -> shown_index d s = slider s.
Proof.
  intros H32 Hs. unfold shown_index, to_int32.
  rewrite Z.mod_small by (change (2 ^ 32) with (2 * 2 ^ 31); lia). lia.
Qed.

End PlayerFacts.
End PlayerFacts.


(** ** IEEE binary64: classes of values *)

Section Binary64.
Local Open Scope float_scope.

Lemma SFcompare_refl (x : spec_float) :
  x <> S754_nan -> SFcompare x x = Some Eq.
Proof.
  destruct x as [s | s | | s m e]; intros Hx; try congruence.
  - reflexivity.
  - destruct s; reflexivity.
  - simpl. rewrite Z.compare_refl.
    fold (Pos.compare m m). rewrite Pos.compare_refl. destruct s; reflexivity.
Qed.

Lemma is_nan_spec (v : float) :
  is_nan v = true <-> Prim2SF v = S754_nan.
Proof.
  unfold is_nan. rewrite eqb_spec. unfold SFeqb.
  destruct (Prim2SF v) as [s | s | | s m e] eqn:E.
  - simpl. split; discriminate.
  - rewrite SFcompare_refl by discriminate. split; discriminate.
  - simpl. tauto.
  - rewrite SFcompare_refl by discriminate. split; discriminate.
Qed.

Lemma is_infinity_spec (v : float) :
  is_infinity v = true <-> exists s, Prim2SF v = S754_infinity s.
Proof.
  unfold is_infinity. rewrite eqb_spec, abs_spec.
  change (Prim2SF infinity) with (S754_infinity false). unfold SFeqb.
  destruct (Prim2SF v) as [s | s | | s m e] eqn:E; simpl.
  - split; [discriminate | intros [s' Hs]; discriminate].
  - split; [eauto | reflexivity].
  - split; [discriminate | intros [s' Hs]; discriminate].
  - split; [discriminate | intros [s' Hs]; discriminate].
Qed.

(** A value is finite exactly when it is a zero or a finite nonzero
    number. *)
Lemma isfinite_spec (v : float) :
  isfinite v = true <->
  (exists s, Prim2SF v = S754_zero s) \/ (exists s m e, Prim2SF v = S754_finite s m e).
Proof.
  unfold isfinite. cbn [isnan isinf binary64].
  rewrite negb_true_iff, orb_false_iff.
  rewrite <- !not_true_iff_false, is_nan_spec, is_infinity_spec.
  destruct (Prim2SF v) as [s | s | | s m e].
  - split; [eauto|]. intros _. split; [discriminate | intros [s' Hs]; discriminate].
  - split.
    + intros [_ Hi]. exfalso. apply Hi. eauto.
    + intros [[s' Hs] | (s' & m & e & Hs)]; discriminate.
  - split.
    + intros [Hn _]. exfalso. apply Hn. reflexivity.
    + intros [[s' Hs] | (s' & m & e & Hs)]; discriminate.
  - split; [eauto 6|]. intros _. split; [discriminate | intros [s' Hs]; discriminate].
Qed.

Lemma pos_spec (v : float) :
  (0 <? v) = true <->
  Prim2SF v = S754_infinity false \/ exists m e, Prim2SF v = S754_finite false m e.
Proof.
  rewrite ltb_spec. change (Prim2SF 0) with (S754_zero false). unfold SFltb.
  destruct (Prim2SF v) as [s | [|] | | [|] mv ev]; simpl.
  - split; [discriminate | intros [Hs | (m & e & Hs)]; discriminate].
  - split; [discriminate | intros [Hs | (m & e & Hs)]; discriminate].
  - split; [auto | reflexivity].
  - split; [discriminate | intros [Hs | (m & e & Hs)]; discriminate].
  - split; [discriminate | intros [Hs | (m & e & Hs)]; discriminate].
  - split; [eauto | reflexivity].
Qed.

Lemma neg_spec (v : float) :
  (v <? 0) = true <->
  Prim2SF v = S754_infinity true \/ exists m e, Prim2SF v = S754_finite true m e.
Proof.
  rewrite ltb_spec. change (Prim2SF 0) with (S754_zero false). unfold SFltb.
  destruct (Prim2SF v) as [s | [|] | | [|] mv ev]; simpl.
  - split; [discriminate | intros [Hs | (m & e & Hs)]; discriminate].
  - split; [auto | reflexivity].
  - split; [discriminate | intros [Hs | (m & e & Hs)]; discriminate].
  - split; [discriminate | intros [Hs | (m & e & Hs)]; discriminate].
  - split; [eauto | reflexivity].
  - split; [discriminate | intros [Hs | (m & e & Hs)]; discriminate].
Qed.

Lemma zero_spec (v : float) :
  (v =? 0) = true <-> exists s, Prim2SF v = S754_zero s.
Proof.
  rewrite eqb_spec. change (Prim2SF 0) with (S754_zero false). unfold SFeqb.
  destruct (Prim2SF v) as [s | [|] | | [|] mv ev]; simpl;
    (split; [try discriminate; eauto | try reflexivity; intros [s' Hs]; discriminate]).
Qed.

End Binary64.

(** ** IEEE binary64: rounding of a product *)

Section Rounding.
Local Open Scope Z_scope.

Lemma digits2_pos_size (p : positive) : digits2_pos p = Pos.size p.
Proof. induction p; simpl; congruence. Qed.

Lemma digits_bounds (p : positive) :
  2 ^ (Zpos (digits2_pos p) - 1) <= Zpos p < 2 ^ Zpos (digits2_pos p).
Proof.
  rewrite digits2_pos_size.
  pose proof (Pos.size_gt p) as G. pose proof (Pos.size_le p) as L.
  assert (E : Zpos (2 ^ Pos.size p) = 2 ^ Zpos (Pos.size p)) by apply Pos2Z.inj_pow.
  split.
  - assert (2 * 2 ^ (Zpos (Pos.size p) - 1) = 2 ^ Zpos (Pos.size p)).
    { rewrite <- Z.pow_succ_r by lia. f_equal. lia. }
    lia.
  - lia.
Qed.

Lemma digits_between (p : positive) (a b : Z) :
  0 <= a -> 2 ^ a <= Zpos p < 2 ^ b -> a < Zpos (digits2_pos p) <= b.
Proof.
  intros Ha [Hl Hu]. destruct (digits_bounds p) as [Dl Du]. split.
  - apply (Z.pow_lt_mono_r_iff 2); lia.
  - assert (Zpos (digits2_pos p) - 1 < b); [|lia].
    apply (Z.pow_lt_mono_r_iff 2); try lia.
    destruct (Z.le_gt_cases 0 b) as [Hb|Hb]; [exact Hb|].
    rewrite (Z.pow_neg_r 2 b) in Hu by lia. lia.
Qed.

Lemma shr_1_m (r : shr_record) :
  0 <= shr_m r -> shr_m (shr_1 r) = shr_m r / 2.
Proof.
  destruct r as [m r s]. cbn [shr_m]. intros Hm.
  destruct m as [|[p|p|]|p]; cbn [shr_1 shr_m]; try lia.
  - reflexivity.
  - apply Z.div_unique with 1; lia.
  - apply Z.div_unique with 0; lia.
  - reflexivity.
Qed.

Lemma iter_shr_1_m (n : positive) (r : shr_record) :
  0 <= shr_m r -> shr_m (SpecFloat.iter_pos shr_1 n r) = shr_m r / 2 ^ Zpos n.
Proof.
  revert r. induction n as [n IH | n IH |]; intros r Hr; simpl SpecFloat.iter_pos.
  - assert (H1 : 0 <= shr_m (shr_1 r)) by (rewrite shr_1_m by exact Hr; apply Z.div_pos; lia).
    assert (H2 : 0 <= shr_m (SpecFloat.iter_pos shr_1 n (shr_1 r)))
      by (rewrite IH by exact H1; apply Z.div_pos; [exact H1 | apply Z.pow_pos_nonneg; lia]).
    rewrite IH by exact H2. rewrite IH by exact H1. rewrite shr_1_m by exact Hr.
    rewrite !Z.div_div by (try apply Z.pow_pos_nonneg; lia).
    f_equal. rewrite (Pos2Z.inj_xI n).
    replace (2 * Zpos n + 1) with (1 + Zpos n + Zpos n) by lia.
    rewrite !Z.pow_add_r by lia. rewrite Z.pow_1_r. ring.
  - assert (H2 : 0 <= shr_m (SpecFloat.iter_pos shr_1 n r))
      by (rewrite IH by exact Hr; apply Z.div_pos; [exact Hr | apply Z.pow_pos_nonneg; lia]).
    rewrite IH by exact H2. rewrite IH by exact Hr.
    rewrite !Z.div_div by (try apply Z.pow_pos_nonneg; lia).
    f_equal. rewrite (Pos2Z.inj_xO n).
    replace (2 * Zpos n) with (Zpos n + Zpos n) by lia.
    rewrite !Z.pow_add_r by lia. ring.
  - rewrite shr_1_m by exact Hr. reflexivity.
Qed.

(** shr_fexp on an exact positive mantissa *)
Lemma shr_fexp_exact (m : positive) (e : Z) :
  let n := fexp prec emax (Zpos (digits2_pos m) + e) - e in
  exists r,
    shr_fexp prec emax (Zpos m) e loc_Exact = (r, e + Z.max n 0) /\
    shr_m r = Zpos m / 2 ^ Z.max n 0.
Proof.
  intros n. unfold shr_fexp. cbn [Zdigits2 shr_record_of_loc]. fold n.
  unfold shr. destruct n as [|p|p] eqn:En.
  - eexists. split; [f_equal; lia|]. cbn [shr_m]. rewrite Z.max_r by lia.
    rewrite Z.pow_0_r, Z.div_1_r. reflexivity.
  - eexists. split; [f_equal; lia|].
    rewrite iter_shr_1_m by (cbn; lia). cbn [shr_m]. rewrite Z.max_l by lia. reflexivity.
  - eexists. split; [f_equal; lia|]. cbn [shr_m]. rewrite Z.max_r by lia.
    rewrite Z.pow_0_r, Z.div_1_r. reflexivity.
Qed.

Lemma round_nearest_even_bounds (m : Z) (l : location) :
  m <= round_nearest_even m l <= m + 1.
Proof.
  destruct l as [|[| |]]; simpl; try lia.
  destruct (Z.even m); lia.
Qed.

Lemma bounded_canonical (mm : positive) (em : Z) :
  SpecFloat.bounded prec emax mm em = true ->
  let d := Zpos (digits2_pos mm) in
  1 <= d <= 53 /\ -1074 <= em /\ em = Z.max (d + em - 53) (-1074).
Proof.
  unfold SpecFloat.bounded, canonical_mantissa, fexp, SpecFloat.emin, prec, emax.
  intros Hb. apply andb_true_iff in Hb. destruct Hb as [Hc _].
  apply Z.eqb_eq in Hc. cbv zeta. lia.
Qed.

Lemma mul_ge_one_factor (c mm : positive) (em : Z) :
  2 ^ 52 <= Zpos c < 2 ^ 53 ->
  SpecFloat.bounded prec emax mm em = true ->
  SFleb (S754_finite false mm em)
        (binary_round_aux prec emax false (Zpos (c * mm)) (-52 + em) loc_Exact) = true.
Proof.
  intros Hc Hb.
  destruct (bounded_canonical mm em Hb) as (Hd & Hem & Hcan).
  destruct (digits_bounds mm) as [Ml Mu].
  set (dy := Zpos (digits2_pos mm)) in *.
  (* digits of the product *)
  assert (HM : 2 ^ (dy + 51) <= Zpos (c * mm) < 2 ^ (dy + 53)).
  { replace (dy + 51) with (dy - 1 + 52) by lia.
    rewrite !Z.pow_add_r by lia. rewrite Pos2Z.inj_mul.
    assert (0 < 2 ^ (dy - 1)) by (apply Z.pow_pos_nonneg; lia).
    assert (0 < 2 ^ dy) by (apply Z.pow_pos_nonneg; lia).
    nia. }
  pose proof (@digits_between (c * mm)%positive (dy + 51) (dy + 53) ltac:(lia) HM) as HdM.
  destruct (digits_bounds (c * mm)%positive) as [PMl _].
  unfold binary_round_aux.
  destruct (shr_fexp_exact (c * mm)%positive (-52 + em)) as (r1 & E1 & M1).
  cbv zeta in E1, M1. rewrite E1. clear E1.
  set (dM := Zpos (digits2_pos (c * mm))) in *.
  set (n1 := fexp prec emax (dM + (-52 + em)) - (-52 + em)) in *.
  assert (Hn1 : (n1 = 52 /\ Zpos mm <= shr_m r1) \/ (n1 = 53 /\ 1 <= shr_m r1)).
  { assert (Hn : n1 = 52 \/ (n1 = 53 /\ dy = 53 /\ dM = 106)).
    { unfold n1, fexp, SpecFloat.emin, prec, emax. lia. }
    destruct Hn as [Hn | (Hn & Hdy & HdM')].
    - left. split; [exact Hn|]. rewrite M1, Hn. change (Z.max 52 0) with 52.
      apply Z.div_le_lower_bound; [reflexivity|].
      rewrite Pos2Z.inj_mul. nia.
    - right. split; [exact Hn|]. rewrite M1, Hn. change (Z.max 53 0) with 53.
      apply Z.div_le_lower_bound; [reflexivity|].
      rewrite HdM' in PMl. change (106 - 1) with 105 in PMl.
      assert (2 ^ 53 * 1 <= 2 ^ 105) by (vm_compute; discriminate). lia. }
  pose proof (round_nearest_even_bounds (shr_m r1) (loc_of_shr_record r1)) as Hr.
  set (m2 := round_nearest_even (shr_m r1) (loc_of_shr_record r1)) in *.
  set (e1 := -52 + em + Z.max n1 0) in *.
  assert (He1 : (e1 = em /\ Zpos mm <= m2) \/ (e1 = em + 1 /\ 1 <= m2)).
  { unfold e1. destruct Hn1 as [[-> Hm] | [-> Hm]]; [left | right]; split; lia. }
  destruct m2 as [|p2|p2]; [lia| |lia].
  destruct (shr_fexp_exact p2 e1) as (r2 & E2 & M2).
  cbv zeta in E2, M2. rewrite E2. clear E2.
  destruct (digits_bounds p2) as [P2l _].
  set (d2 := Zpos (digits2_pos p2)) in *.
  set (n2 := fexp prec emax (d2 + e1) - e1) in *.
  assert (Hn2 : (n2 <= 0 /\ shr_m r2 = Zpos p2) \/ (0 < n2 /\ 0 < shr_m r2)).
  { destruct (Z.le_gt_cases n2 0) as [Hle | Hgt].
    - left. split; [exact Hle|]. rewrite M2, Z.max_r by exact Hle.
      rewrite Z.pow_0_r. apply Z.div_1_r.
    - right. split; [exact Hgt|]. rewrite M2, Z.max_l by lia.
      assert (En2 : n2 = d2 - 53).
      { unfold n2, fexp, SpecFloat.emin, prec, emax in *. lia. }
      apply Z.div_str_pos. split; [apply Z.pow_pos_nonneg; lia|].
      rewrite En2. etransitivity; [|exact P2l].
      apply Z.pow_le_mono_r; lia. }
  set (e2 := e1 + Z.max n2 0) in *.
  destruct (shr_m r2) as [|p3|p3] eqn:E3; [lia| |lia].
  destruct (e2 <=? emax - prec); [|reflexivity].
  unfold SFleb, SFcompare.
  destruct (Z.compare_spec em e2) as [Heq | Hlt | Hgt].
  - assert (Hp : (mm <= p3)%positive).
    { destruct Hn2 as [[Hle Hm] | [Hgt _]]; [|unfold e2 in Heq; lia].
      destruct He1 as [[_ Hm2] | [He _]]; [|unfold e2 in Heq; lia].
      injection Hm as ->. exact Hm2. }
    fold (Pos.compare mm p3).
    destruct (Pos.compare_spec mm p3); [reflexivity | reflexivity | lia].
  - reflexivity.
  - exfalso. unfold e2 in Hgt. lia.
Qed.

End Rounding.

(** ** IEEE binary64: the order of values *)

Section Order.
Local Open Scope Z_scope.

Ltac cmp_cases :=
  repeat match goal with
  | |- context [Z.compare ?a ?b] => destruct (Z.compare_spec a b)
  | H : context [Z.compare ?a ?b] |- _ => destruct (Z.compare_spec a b)
  | |- context [Pos.compare_cont Eq ?a ?b] =>
      change (Pos.compare_cont Eq a b) with (Pos.compare a b);
      destruct (Pos.compare_spec a b)
  | H : context [Pos.compare_cont Eq ?a ?b] |- _ =>
      change (Pos.compare_cont Eq a b) with (Pos.compare a b) in H;
      destruct (Pos.compare_spec a b)
  end.

Lemma SFleb_trans (x y z : spec_float) :
  SFleb x y = true -> SFleb y z = true -> SFleb x z = true.
Proof.
  unfold SFleb, SFcompare.
  destruct x as [sx | sx | | sx mx ex], y as [sy | sy | | sy my ey],
           z as [sz | sz | | sz mz ez];
    try destruct sx; try destruct sy; try destruct sz;
    try reflexivity; try discriminate;
    intros Hxy Hyz; cmp_cases; simpl in *;
    try reflexivity; try discriminate; try (exfalso; lia).
Qed.

Lemma SFleb_total (x y : spec_float) :
  x <> S754_nan -> y <> S754_nan -> SFleb x y = false -> SFleb y x = true.
Proof.
  unfold SFleb, SFcompare.
  destruct x as [sx | sx | | sx mx ex], y as [sy | sy | | sy my ey];
    try destruct sx; try destruct sy;
    try reflexivity; try discriminate; try congruence;
    intros _ _ Hxy; cmp_cases; simpl in *;
    try reflexivity; try discriminate; try (exfalso; lia).
Qed.

End Order.

Section Binary64Order.
Local Open Scope float_scope.

Lemma not_nan_spec (v : float) :
  is_nan v = false <-> Prim2SF v <> S754_nan.
Proof.
  rewrite <- is_nan_spec. destruct (is_nan v); split; congruence.
Qed.

Lemma leb_trans (a b c : float) :
  (a <=? b) = true -> (b <=? c) = true -> (a <=? c) = true.
Proof. rewrite !leb_spec. apply SFleb_trans. Qed.

Lemma leb_total (a b : float) :
  is_nan a = false -> is_nan b = false -> (a <=? b) = false -> (b <=? a) = true.
Proof. rewrite !leb_spec, !not_nan_spec. apply SFleb_total. Qed.

Lemma leb_refl (a : float) : is_nan a = false -> (a <=? a) = true.
Proof.
  rewrite leb_spec, not_nan_spec. intros Ha. unfold SFleb.
  rewrite SFcompare_refl by exact Ha. reflexivity.
Qed.

Lemma leb_nan_l (a b : float) : is_nan a = true -> (a <=? b) = false.
Proof. rewrite leb_spec, is_nan_spec. intros ->. reflexivity. Qed.

Lemma abs_nan (v : float) : is_nan (abs v) = is_nan v.
Proof.
  apply eq_true_iff_eq. rewrite !is_nan_spec, abs_spec.
  destruct (Prim2SF v); simpl; split; congruence.
Qed.

Lemma abs_finite (v : float) : isfinite v = true -> isfinite (abs v) = true.
Proof.
  rewrite !isfinite_spec, abs_spec.
  intros [[s ->] | (s & m & e & ->)]; simpl; eauto 6.
Qed.

Lemma abs_zero (v : float) : (v =? 0) = true -> (abs v =? 0) = true.
Proof.
  rewrite !zero_spec, abs_spec. intros [s ->]. simpl. eauto.
Qed.

(** *** [np.maximum] and [np.max] *)

Lemma maximum_cases (a b : float) : maximum a b = a \/ maximum a b = b.
Proof. unfold maximum. destruct (leb b a || isnan a); auto. Qed.

Lemma fold_maximum_in (r : list float) (v : float) :
  In (fold_left maximum r v) (v :: r).
Proof.
  revert v. induction r as [|b r IH]; intros v; [left; reflexivity|].
  cbn [fold_left]. destruct (IH (maximum v b)) as [E | Hin].
  - destruct (maximum_cases v b) as [Em | Em]; rewrite Em in E |- *.
    + left. exact E.
    + right. left. exact E.
  - right. right. exact Hin.
Qed.

Lemma maximum_upper (a b : float) :
  is_nan a = false -> is_nan b = false ->
  is_nan (maximum a b) = false /\
  (a <=? maximum a b) = true /\ (b <=? maximum a b) = true.
Proof.
  intros Ha Hb. unfold maximum. cbn [leb isnan binary64].
  rewrite Ha, orb_false_r.
  destruct (b <=? a) eqn:E.
  - split; [exact Ha|]. split; [apply leb_refl; exact Ha | exact E].
  - split; [exact Hb|]. split; [apply leb_total; assumption | apply leb_refl; exact Hb].
Qed.

Lemma fold_maximum_upper (r : list float) (v : float) :
  is_nan v = false -> Forall (fun u => is_nan u = false) r ->
  forall u, In u (v :: r) -> (u <=? fold_left maximum r v) = true.
Proof.
  revert v. induction r as [|b r IH]; intros v Hv Hr u Hu.
  - destruct Hu as [<- | []]. apply leb_refl. exact Hv.
  - inversion Hr as [|? ? Hb Hr']; subst.
    destruct (maximum_upper v b Hv Hb) as (Hm & Hva & Hba).
    cbn [fold_left].
    assert (Hstep : (maximum v b <=? fold_left maximum r (maximum v b)) = true)
      by (apply IH; [exact Hm | exact Hr' | left; reflexivity]).
    destruct Hu as [<- | [<- | Hu]].
    + eapply leb_trans; eassumption.
    + eapply leb_trans; eassumption.
    + apply IH; [exact Hm | exact Hr' | right; exact Hu].
Qed.

Lemma maximum_nan (a b : float) :
  is_nan a = true \/ is_nan b = true -> is_nan (maximum a b) = true.
Proof.
  unfold maximum. cbn [leb isnan binary64].
  destruct (is_nan a) eqn:Ha.
  - intros _. rewrite orb_true_r. exact Ha.
  - intros [Hc | Hb]; [discriminate|].
    rewrite (leb_nan_l b a Hb). exact Hb.
Qed.

Lemma fold_maximum_nan (r : list float) (v : float) :
  is_nan v = true \/ Exists (fun u => is_nan u = true) r ->
  is_nan (fold_left maximum r v) = true.
Proof.
  revert v. induction r as [|b r IH]; intros v Hn; cbn [fold_left].
  - destruct Hn as [Hv | Hr]; [exact Hv | inversion Hr].
  - apply IH. destruct Hn as [Hv | Hr].
    + left. apply maximum_nan. left. exact Hv.
    + inversion Hr as [? ? Hb | ? ? Hr']; subst.
      * left. apply maximum_nan. right. exact Hb.
      * right. exact Hr'.
Qed.

(** *** The limit against its argument *)

Lemma mul_1_05_ge (m : float) (mm : positive) (em : Z) :
  Prim2SF m = S754_finite false mm em -> (m <=? 1.05 * m) = true.
Proof.
  intros Hm. rewrite leb_spec, mul_spec, Hm.
  change (Prim2SF 1.05) with (S754_finite false 4728779608739021 (-52)).
  unfold SF64mul, SFmul. cbn [xorb].
  apply mul_ge_one_factor.
  - split; [vm_compute; discriminate | reflexivity].
  - pose proof (Prim2SF_valid m) as V. rewrite Hm in V. exact V.
Qed.

Lemma lim_unfold (m : float) :
  lim m = if isfinite m && (0 <? m) then 1.05 * m else 1.
Proof. reflexivity. Qed.

Lemma lim_ge (m : float) : isfinite m = true -> (m <=? lim m) = true.
Proof.
  intros Hf. rewrite lim_unfold, Hf. cbn [andb].
  destruct (0 <? m) eqn:Hp.
  - apply pos_spec in Hp. apply isfinite_spec in Hf.
    destruct Hp as [Hp | (mm & em & Hp)].
    + destruct Hf as [[s Hs] | (s & mm & em & Hs)]; congruence.
    + exact (mul_1_05_ge m Hp).
  - rewrite leb_spec. change (Prim2SF 1) with (S754_finite false 4503599627370496 (-52)).
    apply isfinite_spec in Hf.
    destruct Hf as [[s Hs] | (s & mm & em & Hs)]; rewrite Hs.
    + reflexivity.
    + destruct s; [reflexivity|].
      exfalso. apply not_true_iff_false in Hp. apply Hp, pos_spec. eauto.
Qed.

Lemma lim_cases (m : float) :
  (isfinite m = true -> (0 <? m) = true -> lim m = 1.05 * m) /\
  ((m =? 0) = true \/ (m <? 0) = true \/ isfinite m = false -> lim m = 1) /\
  ((isfinite m = true /\ (0 <? m) = true) \/
   (m =? 0) = true \/ (m <? 0) = true \/ isfinite m = false).
Proof.
  rewrite lim_unfold. split; [|split].
  - intros -> ->. reflexivity.
  - intros [Hz | [Hn | Hf]].
    + assert (Hp : (0 <? m) = false).
      { apply not_true_iff_false. rewrite pos_spec. apply zero_spec in Hz.
        destruct Hz as [s Hs]. rewrite Hs.
        intros [Hc | (mm & em & Hc)]; discriminate. }
      rewrite Hp, andb_false_r. reflexivity.
    + assert (Hp : (0 <? m) = false).
      { apply not_true_iff_false. rewrite pos_spec. apply neg_spec in Hn.
        destruct Hn as [Hs | (mm' & em' & Hs)]; rewrite Hs;
          intros [Hc | (mm & em & Hc)]; discriminate. }
      rewrite Hp, andb_false_r. reflexivity.
    + rewrite Hf. reflexivity.
  - destruct (isfinite m) eqn:Hf; [|auto].
    destruct (0 <? m) eqn:Hp; [auto|]. right.
    apply isfinite_spec in Hf.
    destruct Hf as [[s Hs] | (s & mm & em & Hs)].
    + left. apply zero_spec. eauto.
    + right. left. apply neg_spec. right. destruct s; [eauto|].
      exfalso. apply not_true_iff_false in Hp. apply Hp, pos_spec. eauto.
Qed.

End Binary64Order.

(** ** The axis limit and the horizon radius on binary64 *)

Section Binary64Claims.
Local Open Scope float_scope.

(** The C library of the host. *)
Context {libm : Trig float}.

Lemma rmax_value (x y z : list float) :
  x <> [] ->
  exists v r, np_abs (x ++ y ++ z) = v :: r /\ rmax x y z = Ok (fold_left maximum r v).
Proof.
  intros Hx. destruct x as [|x0 x]; [congruence|].
  unfold rmax, np_max, np_abs. cbn [app map]. eauto.
Qed.

(** C4, as the code has it.  With m the maximum of the absolute values of
    all coordinates (a NaN coordinate makes it NaN): the limit is 1.05*m
    when m is finite and above zero, and 1.0 when m is zero, negative or
    not finite, which covers every m.  When m is finite the limit is at
    least m, so when all coordinates are finite it is at least every
    absolute coordinate; when all coordinates are zero it is 1.0. *)
Theorem axis_limit (x y z : list float) :
  x <> [] ->
  exists m,
    rmax x y z = Ok m /\
    In m (np_abs (x ++ y ++ z)) /\
    (Forall (fun v => is_nan v = false) (x ++ y ++ z) ->
     forall v, In v (x ++ y ++ z) -> (abs v <=? m) = true) /\
    (Exists (fun v => is_nan v = true) (x ++ y ++ z) -> is_nan m = true) /\
    (isfinite m = true -> (0 <? m) = true -> lim m = 1.05 * m) /\
    ((m =? 0) = true \/ (m <? 0) = true \/ isfinite m = false -> lim m = 1) /\
    ((isfinite m = true /\ (0 <? m) = true) \/
     (m =? 0) = true \/ (m <? 0) = true \/ isfinite m = false) /\
    (isfinite m = true -> (m <=? lim m) = true) /\
    (Forall (fun v => isfinite v = true) (x ++ y ++ z) ->
     isfinite m = true /\
     forall v, In v (x ++ y ++ z) -> (abs v <=? lim m) = true) /\
    (Forall (fun v => (v =? 0) = true) (x ++ y ++ z) -> lim m = 1).
Proof.
  intros Hx.
  destruct (rmax_value y z Hx) as (v0 & r & El & Hm).
  set (m := fold_left maximum r v0) in *.
  assert (Hin : In m (np_abs (x ++ y ++ z)))
    by (rewrite El; apply fold_maximum_in).
  assert (Hup : Forall (fun v => is_nan v = false) (x ++ y ++ z) ->
                forall v, In v (x ++ y ++ z) -> (abs v <=? m) = true).
  { intros Hall v Hv.
    assert (Habs : Forall (fun u => is_nan u = false) (v0 :: r)).
    { rewrite <- El. unfold np_abs. apply Forall_map.
      eapply Forall_impl; [|exact Hall]. intros u Hu. cbn [fabs binary64].
      rewrite abs_nan. exact Hu. }
    inversion Habs as [|? ? H0 Hr]; subst.
    apply fold_maximum_upper; [exact H0 | exact Hr |].
    rewrite <- El. unfold np_abs. apply (in_map abs). exact Hv. }
  destruct (lim_cases m) as (Hpos & Hone & Hcover).
  exists m. split; [exact Hm|]. split; [exact Hin|]. split; [exact Hup|].
  split; [|split; [exact Hpos | split; [exact Hone | split; [exact Hcover|]]]].
  - intros Hex. apply fold_maximum_nan.
    assert (Habs : Exists (fun u => is_nan u = true) (v0 :: r)).
    { rewrite <- El. unfold np_abs. apply Exists_exists.
      apply Exists_exists in Hex. destruct Hex as (u & Hu & Hn).
      exists (abs u). split; [apply (in_map abs); exact Hu|].
      rewrite abs_nan. exact Hn. }
    inversion Habs; subst; auto.
  - split; [apply lim_ge|]. split.
    + intros Hall.
      assert (Hfm : isfinite m = true).
      { unfold np_abs in Hin. apply in_map_iff in Hin.
        destruct Hin as (u & <- & Hu). apply abs_finite.
        rewrite Forall_forall in Hall. apply Hall, Hu. }
      split; [exact Hfm|]. intros v Hv.
      apply leb_trans with m; [|apply lim_ge; exact Hfm].
      apply Hup; [|exact Hv].
      eapply Forall_impl; [|exact Hall]. intros u Hu.
      apply isfinite_spec in Hu. apply not_nan_spec.
      destruct Hu as [[s ->] | (s & mm & em & ->)]; discriminate.
    + intros Hall. apply Hone. left.
      unfold np_abs in Hin. apply in_map_iff in Hin.
      destruct Hin as (u & <- & Hu). apply abs_zero.
      rewrite Forall_forall in Hall. apply Hall, Hu.
Qed.

(** An infinite coordinate: the limit is 1.0, below the maximum. *)
Lemma axis_limit_below_infinite_coordinate :
  rmax [infinity; 0] [0; 0] [0; 0] = Ok infinity /\
  lim infinity = 1 /\
  (infinity <=? lim infinity) = false.
Proof. repeat split. Qed.

(** Python's [c ** 2] on binary64, case by case. *)
Lemma py_pow2_cases (c : float) :
  (is_nan c = true -> py_pow2 c = Ok c) /\
  (is_nan c = false -> is_infinity c = true -> py_pow2 c = Ok (abs c)) /\
  (isfinite c = true -> (c =? 0) = true -> py_pow2 c = Ok 0) /\
  (isfinite c = true -> (c =? 0) = false -> (abs c =? 1) = true ->
   py_pow2 c = Ok 1) /\
  (isfinite c = true -> (c =? 0) = false -> (abs c =? 1) = false ->
   py_pow2 c
   = if is_infinity (pow2 (abs c))
     then Raise (OverflowError "(34, 'Numerical result out of range')")
     else Ok (pow2 (abs c))).
Proof.
  unfold py_pow2, isfinite. cbn [isnan isinf eqb fabs lit_0 lit_1 binary64].
  repeat split.
  - intros ->. reflexivity.
  - intros -> ->. reflexivity.
  - rewrite negb_true_iff, orb_false_iff. intros [-> ->] ->. reflexivity.
  - rewrite negb_true_iff, orb_false_iff. intros [-> ->] -> ->. reflexivity.
  - rewrite negb_true_iff, orb_false_iff. intros [-> ->] -> ->. reflexivity.
Qed.

Lemma nonfinite_not_zero (c : float) : isfinite c = false -> (c =? 0) = false.
Proof.
  intros Hf. apply not_true_iff_false. intros Hz.
  apply zero_spec in Hz. apply not_true_iff_false in Hf. apply Hf.
  apply isfinite_spec. left. exact Hz.
Qed.

Lemma abs_infinite_not_zero (c : float) :
  is_infinity c = true -> (abs c =? 0) = false.
Proof.
  intros Hi. apply not_true_iff_false. rewrite zero_spec, abs_spec.
  apply is_infinity_spec in Hi. destruct Hi as [s ->]. intros [s' Hs]. discriminate.
Qed.

Lemma compute_rs_by_c (a : args float) (M G c : float) :
  args_rs a = None -> args_mass a = Some M -> args_G a = Some G ->
  args_c a = Some c ->
  compute_rs a
  = if is_nan c then Ok (Some (2 * G * M / c))
    else if is_infinity c then Ok (Some (2 * G * M / abs c))
    else if c =? 0 then Raise (ZeroDivisionError "float division by zero")
    else if abs c =? 1 then Ok (Some (2 * G * M / 1))
    else if is_infinity (pow2 (abs c))
    then Raise (OverflowError "(34, 'Numerical result out of range')")
    else if pow2 (abs c) =? 0 then Raise (ZeroDivisionError "float division by zero")
    else Ok (Some (2 * G * M / pow2 (abs c))).
Proof.
  intros Hrs HM HG Hc. unfold compute_rs. rewrite Hrs, HM, HG, Hc.
  unfold py_pow2, py_truediv.
  cbn [isnan isinf eqb fabs lit_0 lit_1 lit_2 mul div binary64].
  destruct (is_nan c) eqn:Hn.
  { cbn [bind]. rewrite (@nonfinite_not_zero c); [reflexivity|].
    unfold isfinite. cbn [isnan isinf binary64]. rewrite Hn. reflexivity. }
  destruct (is_infinity c) eqn:Hi.
  { cbn [bind]. rewrite (abs_infinite_not_zero Hi). reflexivity. }
  destruct (c =? 0) eqn:Hz; [reflexivity|].
  destruct (abs c =? 1) eqn:H1; [reflexivity|].
  destruct (is_infinity (pow2 (abs c))) eqn:Ho; [reflexivity|].
  cbn [bind]. destruct (pow2 (abs c) =? 0); reflexivity.
Qed.

(** C5, as the code has it.  An --rs value is the radius.  Without --rs
    and with --mass, --G and --c all given, the radius is
    (2.0*G*M)/(c**2), where c**2 is Python's power of a float: 1.0 for
    c = 1 and c = -1, and for any other finite c that is not zero the C
    library's pow(|c|, 2.0) (which need not be the correctly rounded
    product c*c), provided that result is neither infinite nor zero; so
    mass = G = c = 1 gives 2.0.  An infinite power raises
    [OverflowError], a power that is zero raises [ZeroDivisionError], as
    does c = 0; a NaN or infinite c raises nothing.  Without --rs and with
    one of the three missing, the radius is unset.  The horizon is shown
    exactly when the radius is set, finite and above zero (not for
    --rs 0). *)
Theorem horizon_radius (a : args float) :
  (forall v, args_rs a = Some v -> compute_rs a = Ok (Some v)) /\
  (forall M G c,
     args_rs a = None -> args_mass a = Some M -> args_G a = Some G ->
     args_c a = Some c ->
     compute_rs a
     = if is_nan c then Ok (Some (2 * G * M / c))
       else if is_infinity c then Ok (Some (2 * G * M / abs c))
       else if c =? 0 then Raise (ZeroDivisionError "float division by zero")
       else if abs c =? 1 then Ok (Some (2 * G * M / 1))
       else if is_infinity (pow2 (abs c))
       then Raise (OverflowError "(34, 'Numerical result out of range')")
       else if pow2 (abs c) =? 0
       then Raise (ZeroDivisionError "float division by zero")
       else Ok (Some (2 * G * M / pow2 (abs c)))) /\
  (forall M G c,
     args_rs a = None -> args_mass a = Some M -> args_G a = Some G ->
     args_c a = Some c ->
     isfinite c = true -> (c =? 0) = false -> (abs c =? 1) = false ->
     is_infinity (pow2 (abs c)) = false -> (pow2 (abs c) =? 0) = false ->
     py_pow2 c = Ok (pow2 (abs c)) /\
     compute_rs a = Ok (Some (2 * G * M / pow2 (abs c)))) /\
  (forall M G c,
     args_rs a = None -> args_mass a = Some M -> args_G a = Some G ->
     args_c a = Some c ->
     isfinite c = true -> (c =? 0) = false -> (abs c =? 1) = true ->
     py_pow2 c = Ok 1 /\
     compute_rs a = Ok (Some (2 * G * M / 1))) /\
  (args_rs a = None ->
   args_mass a = Some 1 -> args_G a = Some 1 -> args_c a = Some 1 ->
   compute_rs a = Ok (Some 2)) /\
  (args_rs a = None ->
   args_mass a = None \/ args_G a = None \/ args_c a = None ->
   compute_rs a = Ok None) /\
  (forall rs,
     show_horizon rs = true
     <-> exists v, rs = Some v /\ isfinite v = true /\ (0 <? v) = true) /\
  show_horizon (Some 0) = false.
Proof.
  split; [|split; [|split; [|split; [|split; [|split; [|split]]]]]].
  - intros v Hv. unfold compute_rs. rewrite Hv. reflexivity.
  - intros M G c. apply compute_rs_by_c.
  - intros M G c Hrs HM HG Hc Hf Hz H1 Ho Hp.
    destruct (py_pow2_cases c) as (_ & _ & _ & _ & P).
    specialize (P Hf Hz H1). rewrite Ho in P.
    split; [exact P|].
    unfold compute_rs. rewrite Hrs, HM, HG, Hc, P. cbn [bind].
    unfold py_truediv. cbn [eqb lit_0 lit_2 mul div binary64].
    rewrite Hp. reflexivity.
  - intros M G c Hrs HM HG Hc Hf Hz H1.
    destruct (py_pow2_cases c) as (_ & _ & _ & P & _).
    specialize (P Hf Hz H1).
    split; [exact P|].
    unfold compute_rs. rewrite Hrs, HM, HG, Hc, P. reflexivity.
  - intros Hrs HM HG Hc. unfold compute_rs. rewrite Hrs, HM, HG, Hc. reflexivity.
  - intros Hrs Hm. unfold compute_rs. rewrite Hrs.
    destruct (args_mass a); [|reflexivity].
    destruct (args_G a); [|reflexivity].
    destruct (args_c a); [|reflexivity].
    destruct Hm as [Hm | [Hm | Hm]]; discriminate.
  - intros [v|]; cbn [show_horizon ltb lit_0 binary64].
    + rewrite andb_true_iff. split.
      * intros [Hf Hp]. eauto.
      * intros (v' & [= <-] & Hf & Hp). auto.
    + split; [discriminate | intros (v' & Hc & _); discriminate].
  - reflexivity.
Qed.

End Binary64Claims.

(** ** The polar form of a Cartesian point, in exact arithmetic *)

Section RoundTrip.
Local Open Scope R_scope.
Local Abbreviation rsin := Rtrigo_def.sin.
Local Abbreviation rcos := Rtrigo_def.cos.



Lemma atan2_origin : atan2 0 0 = 0.
Proof.
  unfold atan2.
  destruct (Rlt_dec 0 0) as [Hc|_]; [lra|]. reflexivity.
Qed.







End RoundTrip.

(** ** The two-sample scenario, in exact arithmetic *)

Section Scenario.
Local Open Scope R_scope.
Local Abbreviation rsin := Rtrigo_def.sin.
Local Abbreviation rcos := Rtrigo_def.cos.


Lemma INR_fact (n : nat) (z : Z) : Z.of_nat (fact n) = z -> INR (fact n) = IZR z.
Proof. intros <-. apply INR_IZR_INZ. Qed.

Lemma sin_h_bounds : 0.707107 <= rsin half_angle <= 0.707109.
Proof.
  assert (Hpi : 1 < PI / 2) by apply PI2_1.
  destruct (SIN half_angle) as [Hl Hu]; [unfold half_angle; lra | unfold half_angle; lra |].
  unfold sin_lb, sin_ub, sin_approx, sin_term in Hl, Hu.
  cbn [sum_f_R0] in Hl, Hu.
  change (2 * 0 + 1)%nat with 1%nat in *. change (2 * 1 + 1)%nat with 3%nat in *.
  change (2 * 2 + 1)%nat with 5%nat in *. change (2 * 3 + 1)%nat with 7%nat in *.
  change (2 * 4 + 1)%nat with 9%nat in *.
  rewrite (@INR_fact 1%nat 1%Z), (@INR_fact 3%nat 6%Z), (@INR_fact 5%nat 120%Z), (@INR_fact 7%nat 5040%Z)
    in Hl, Hu by (vm_compute; reflexivity).
  rewrite (@INR_fact 9%nat 362880%Z) in Hu by (vm_compute; reflexivity).
  unfold half_angle in *. cbn [pow] in Hl, Hu.
  split; lra.
Qed.

Lemma cos_h_bounds : 0.707101 <= rcos half_angle.
Proof.
  assert (Hpi : 1 < PI / 2) by apply PI2_1.
  destruct (COS half_angle) as [Hl _]; [unfold half_angle; lra | unfold half_angle; lra |].
  unfold cos_lb, cos_approx, cos_term in Hl.
  cbn [sum_f_R0] in Hl.
  change (2 * 0)%nat with 0%nat in *. change (2 * 1)%nat with 2%nat in *.
  change (2 * 2)%nat with 4%nat in *. change (2 * 3)%nat with 6%nat in *.
  rewrite (@INR_fact 0%nat 1%Z), (@INR_fact 2%nat 2%Z), (@INR_fact 4%nat 24%Z), (@INR_fact 6%nat 720%Z)
    in Hl by (vm_compute; reflexivity).
  unfold half_angle in *. cbn [pow] in Hl.
  lra.
Qed.

Lemma sin_cos_15708 :
  1 - 1 / 100000 <= rsin 1.5708 <= 1 /\ Rabs (rcos 1.5708) <= 1 / 100000.
Proof.
  pose proof sin_h_bounds as [Sl Su]. pose proof cos_h_bounds as Cl.
  replace 1.5708 with (2 * half_angle) by (unfold half_angle; lra).
  rewrite sin_2a, cos_2a_sin.
  pose proof (COS_bound half_angle) as [_ Cu].
  split; [split|].
  - nra.
  - rewrite <- sin_2a. apply SIN_bound.
  - apply Rabs_le. nra.
Qed.

Lemma px_pz_bounds :
  2 - 2 / 100000 <= px <= 2 /\ Rabs pz <= 2 / 100000.
Proof.
  destruct sin_cos_15708 as [[Sl Su] Hc]. unfold px, pz. split; [lra|].
  rewrite Rabs_mult, (Rabs_pos_eq 2) by lra. lra.
Qed.

Lemma transform_orbit :
  spherical_to_cartesian [1; 2] [0; 1.5708] [0; 0]
  = Ok ([0; px], [0; 0], [1; pz]).
Proof.
  change (spherical_to_cartesian [1; 2] [0; 1.5708] [0; 0])
    with (Ok ([1 * rsin 0 * rcos 0; 2 * rsin 1.5708 * rcos 0],
              [1 * rsin 0 * rsin 0; 2 * rsin 1.5708 * rsin 0],
              [1 * rcos 0; 2 * rcos 1.5708])).
  unfold px, pz. rewrite sin_0, cos_0.
  rewrite ?Rmult_1_r, ?Rmult_0_r. reflexivity.
Qed.

Lemma cartesian_of_table : cartesian_of table = ([0; px], [0; 0], [1; pz]).
Proof.
  change (cartesian_of table)
    with ([1 * rsin 0 * rcos 0; 2 * rsin 1.5708 * rcos 0],
          [1 * rsin 0 * rsin 0; 2 * rsin 1.5708 * rsin 0],
          [1 * rcos 0; 2 * rcos 1.5708]).
  unfold px, pz. rewrite sin_0, cos_0.
  rewrite ?Rmult_1_r, ?Rmult_0_r. reflexivity.
Qed.

Lemma maximum_exact (a b : R) :
  (b <= a -> maximum a b = a) /\ (a < b -> maximum a b = b).
Proof.
  unfold maximum. cbn [leb isnan exact].
  destruct (Rle_dec b a) as [Hle | Hgt]; cbn [orb]; split; intros; lra || reflexivity.
Qed.

Lemma rmax_orbit : rmax [0; px] [0; 0] [1; pz] = Ok px.
Proof.
  destruct px_pz_bounds as [[Pl Pu] Pz].
  unfold rmax, np_abs, np_max. cbn [app map fabs exact].
  rewrite Rabs_R0, Rabs_R1, (Rabs_pos_eq px) by lra.
  cbn [fold_left].
  rewrite (proj2 (maximum_exact 0 px)) by lra.
  rewrite (proj1 (maximum_exact px 0)) by lra.
  rewrite (proj1 (maximum_exact px 0)) by lra.
  rewrite (proj1 (maximum_exact px 1)) by lra.
  rewrite (proj1 (maximum_exact px (Rabs pz))) by lra.
  reflexivity.
Qed.

Lemma lim_orbit : lim px = 1.05 * px.
Proof.
  destruct px_pz_bounds as [[Pl Pu] _].
  unfold lim, isfinite. cbn [isnan isinf ltb lit_0 lit_1_05 mul exact].
  destruct (Rlt_dec 0 px) as [_ | Hc]; [reflexivity | lra].
Qed.

Lemma wf_table : wf table.
Proof. reflexivity. Qed.

Lemma csv_host_wf (t : ndarray R) : wf t -> host_wf (csv_host t).
Proof.
  intros Ht p arr [E | E]; cbn in E; [discriminate|].
  destruct (p =? "orbit.csv")%string; [|discriminate].
  injection E as <-. exact Ht.
Qed.

Lemma main_orbit :
  main (csv_host table) args_orbit io0
  = (Ok tt, done_io (csv_host table) args_orbit orbit_doc).
Proof.
  assert (Hc : (4 <= ncols table)%nat) by (cbn; lia).
  rewrite (@main_loaded R _ _ (csv_host table) args_orbit "csv" table
             eq_refl eq_refl eq_refl eq_refl Hc).
  rewrite cartesian_of_table.
  change (nrows table <? 2)%nat with false. cbv iota.
  rewrite rmax_orbit.
  change (compute_rs args_orbit) with (@Ok (option R) None).
  reflexivity.
Qed.

Lemma main_on_table (h : host R) (a : args R) :
  path_exists h (input_path a) = true ->
  infer_format a = Some "csv"%string ->
  load_trajectory h (input_path a) "csv" = Ok (slice_cols 4 table) ->
  compute_rs a = Ok None ->
  main h a io0 = finish h a (html_of h a [0; px] [0; 0] [1; pz] px None).
Proof.
  intros E Hf Hl Hrs.
  assert (Hc : (4 <= ncols table)%nat) by (cbn; lia).
  rewrite (@main_loaded R _ _ h a "csv" table E Hf Hl eq_refl Hc).
  rewrite cartesian_of_table.
  change (nrows table <? 2)%nat with false. cbv iota.
  rewrite rmax_orbit, Hrs. reflexivity.
Qed.

(** Runs that end in none of the ways the claim lists.  A command line
    argparse rejects: exit code 2.  An output the host refuses: the
    exception of [write_text] is not caught, exit code 1, nothing written.
    A closed standard output: the exception of [print] is not caught, and
    the document is left behind.  And an input given with a trailing
    separator names the same file: the extension is found and the run
    returns. *)
Example other_endings :
  run (csv_host table)
      (Rejected ["usage: vizualizacija.py [-h] --input INPUT"%string;
                 "vizualizacija.py: error: the following arguments are required: --input"%string])
  = (2%Z, {| stdout := [];
             stderr := ["usage: vizualizacija.py [-h] --input INPUT"%string;
                        "vizualizacija.py: error: the following arguments are required: --input"%string];
             files := []; browser := [] |}) /\
  run (readonly_host table) args_orbit
  = (1%Z, {| stdout := [];
             stderr := [traceback (OSError "[Errno 13] Permission denied")];
             files := []; browser := [] |}) /\
  main (closed_stdout_host table) args_orbit io0
  = (Raise (OSError "[Errno 9] Bad file descriptor"),
     {| stdout := []; stderr := [];
        files := [("geodesic_viewer.html"%string, orbit_doc)]; browser := [] |}) /\
  input_path args_slash = "orbit.csv"%string /\
  run (csv_host table) args_slash
  = (0%Z, done_io (csv_host table) args_slash orbit_doc).
Proof.
  split; [reflexivity|].
  split.
  { unfold run.
    rewrite (@main_on_table (readonly_host table) args_orbit
               eq_refl eq_refl eq_refl eq_refl).
    reflexivity. }
  split.
  { rewrite (@main_on_table (closed_stdout_host table) args_orbit
               eq_refl eq_refl eq_refl eq_refl).
    reflexivity. }
  split; [reflexivity|].
  unfold run.
  rewrite (@main_on_table (csv_host table) args_slash
             eq_refl eq_refl eq_refl eq_refl).
  reflexivity.
Qed.

(** C7, as the code has it.  On the table [[0,1,0,0],[1,2,1.5708,0]] the
    transform gives point0 = (0, 0, 1) and point1 = (px, 0, pz) with px
    within 1e-4 of 2 and pz within 1e-4 of 0; the maximum is px, the axis
    limit is within 1e-4 of 2.1, and the run returns with exit code 0,
    these arrays and this limit in the payload. *)
Theorem scenario_two_samples :
  spherical_to_cartesian [1; 2] [0; 1.5708] [0; 0]
  = Ok ([0; px], [0; 0], [1; pz]) /\
  Rabs (px - 2) <= 1 / 10000 /\ Rabs pz <= 1 / 10000 /\
  rmax [0; px] [0; 0] [1; pz] = Ok px /\
  Rabs (lim px - 2.1) <= 1 / 10000 /\
  run (csv_host table) args_orbit
  = (0%Z, done_io (csv_host table) args_orbit orbit_doc) /\
  lookup "x" (data_json orbit_doc) = Some (JList [0; px]) /\
  lookup "y" (data_json orbit_doc) = Some (JList [0; 0]) /\
  lookup "z" (data_json orbit_doc) = Some (JList [1; pz]) /\
  lookup "N" (data_json orbit_doc) = Some (JInt 2) /\
  lookup "lim" (data_json orbit_doc) = Some (JFloat (lim px)).
Proof.
  destruct px_pz_bounds as [[Pl Pu] Pz].
  split; [exact transform_orbit|].
  split; [apply Rabs_le; lra|].
  split; [lra|].
  split; [exact rmax_orbit|].
  split; [rewrite lim_orbit; apply Rabs_le; lra|].
  split; [exact (proj1 (@run_of_main R _ _ _ _ _) main_orbit)|].
  repeat split.
Qed.

(** The second point's y coordinate is 0, not near 2. *)
Lemma scenario_point1_y :
  exists x y z y1,
    spherical_to_cartesian [1; 2] [0; 1.5708] [0; 0] = Ok (x, y, z) /\
    nth_error y 1 = Some y1 /\ y1 = 0 /\ Rabs (y1 - 2) = 2.
Proof.
  exists [0; px], [0; 0], [1; pz], 0.
  split; [exact transform_orbit|]. split; [reflexivity|]. split; [reflexivity|].
  unfold Rminus. rewrite Rplus_0_l, Rabs_Ropp. apply Rabs_pos_eq. lra.
Qed.


End Scenario.

(** ** The theorems at the scenario's inputs *)

Section Instances.
Local Open Scope R_scope.
Local Abbreviation rsin := Rtrigo_def.sin.
Local Abbreviation rcos := Rtrigo_def.cos.

Lemma spherical_to_cartesian_pointwise_witness :
  (List.length [1; 2] = 2%nat /\ List.length [0; 1.5708] = 2%nat /\
   List.length [0; 0] = 2%nat) /\
  exists x y z,
    spherical_to_cartesian [1; 2] [0; 1.5708] [0; 0] = Ok (x, y, z) /\
    List.length x = 2%nat /\
    nth_error x 1 = Some (2 * rsin 1.5708 * rcos 0).
Proof.
  split; [repeat split|].
  destruct (@spherical_to_cartesian_pointwise R _ _ [1; 2] [0; 1.5708] [0; 0] 2%nat
              eq_refl eq_refl eq_refl)
    as (x & y & z & E & Lx & _ & _ & Hi).
  exists x, y, z. split; [exact E|]. split; [exact Lx|].
  exact (proj1 (Hi 1%nat 2 1.5708 0 eq_refl eq_refl eq_refl)).
Defined.

Lemma load_trajectory_first_four_columns_witness :
  np_loadtxt (csv_host table6) "orbit.csv" = Ok table6 /\
  load_trajectory (csv_host table6) "orbit.csv" "csv" = Ok table.
Proof.
  split; [reflexivity|].
  destruct (@load_trajectory_first_four_columns R (csv_host table6)
              "orbit.csv" "csv" table6 (or_intror (conj eq_refl eq_refl)))
    as (_ & _ & Hok).
  refine (proj1 (Hok _)).
  intros [Hc | Hc]; [apply Hc; reflexivity | cbn in Hc; lia].
Defined.


Lemma tail_clamped_witness :
  (host_wf (csv_host table) /\
   path_exists (csv_host table) (input_path args_orbit) = true /\
   infer_format args_orbit = Some "csv"%string /\
   load_trajectory (csv_host table) (input_path args_orbit) "csv" = Ok table /\
   (2 <= nrows table)%nat /\
   compute_rs args_orbit = Ok None) /\
  exists d,
    main (csv_host table) args_orbit io0
    = (Ok tt, done_io (csv_host table) args_orbit d) /\
    doc_tail d = 1%Z.
Proof.
  assert (Hn : (2 <= nrows table)%nat) by (cbn; lia).
  split; [repeat split; try exact Hn; exact (csv_host_wf wf_table)|].
  destruct (@tail_clamped R _ _ (csv_host table) args_orbit "csv" table None
              (csv_host_wf wf_table) eq_refl eq_refl eq_refl Hn eq_refl)
    as (d & _ & Hmain & _ & _ & _ & _ & Hhigh & _).
  exists d. split; [exact (Hmain eq_refl eq_refl)|].
  apply Hhigh. cbn. lia.
Defined.


Lemma unresolved_horizon_payload_witness :
  (host_wf (csv_host table) /\
   path_exists (csv_host table) (input_path args_orbit) = true /\
   infer_format args_orbit = Some "csv"%string /\
   load_trajectory (csv_host table) (input_path args_orbit) "csv" = Ok table /\
   (2 <= nrows table)%nat /\
   args_rs args_orbit = None /\ args_mass args_orbit = None) /\
  exists d,
    main (csv_host table) args_orbit io0
    = (Ok tt, done_io (csv_host table) args_orbit d) /\
    lookup "rs" (data_json d) = Some (JFloat 0) /\
    rs_text d = "—"%string.
Proof.
  assert (Hn : (2 <= nrows table)%nat) by (cbn; lia).
  split; [repeat split; try exact Hn; exact (csv_host_wf wf_table)|].
  destruct (@unresolved_horizon_payload R _ _ (csv_host table) args_orbit "csv" table
              (csv_host_wf wf_table) eq_refl eq_refl eq_refl Hn eq_refl
              (or_introl eq_refl))
    as ((d & _ & Hmain & Hrs & _ & Htext & _) & _).
  exists d. split; [exact (Hmain eq_refl eq_refl)|]. auto.
Defined.

End Instances.

Section Binary64Instances.
Local Open Scope float_scope.

Lemma axis_limit_witness :
  [0; 2] <> [] /\
  exists m, rmax [0; 2] [0; 0] [1; 0] = Ok m /\ (m <=? lim m) = true.
Proof.
  assert (Hx : [0; 2] <> []) by discriminate.
  split; [exact Hx|].
  destruct (@axis_limit [0; 2] [0; 0] [1; 0] Hx)
    as (m & Hm & _ & _ & _ & _ & _ & _ & Hge & Hall & _).
  exists m. split; [exact Hm|].
  apply Hge. apply Hall. repeat constructor.
Defined.

(** With --mass 1 --G 1 --c 0 the division raises, in exact arithmetic and
    on binary64 with any C library: no radius is resolved. *)
Lemma compute_rs_zero_c :
  compute_rs args_c_zero_exact = Raise (ZeroDivisionError "float division by zero") /\
  forall libm : Trig float,
    compute_rs args_c_zero = Raise (ZeroDivisionError "float division by zero").
Proof.
  split; [|intros libm; reflexivity].
  unfold compute_rs, py_pow2, py_truediv.
  cbn [args_c_zero_exact args_rs args_mass args_G args_c isnan isinf eqb lit_0 exact].
  destruct (Req_dec_T 0 0) as [_|Hc]; [|exfalso; apply Hc; reflexivity].
  cbn [bind eqb lit_0 exact].
  destruct (Req_dec_T 0 0) as [_|Hc]; [|exfalso; apply Hc; reflexivity].
  reflexivity.
Qed.

End Binary64Instances.

(** ** More on runs of [main]: what a run leaves behind *)

Section RunsLeave.
Context {F : Type} `{Arith F} `{Trig F}.

Lemma rows_nth (n m : nat) (dt : list F) (i : nat) :
  (i < n)%nat -> nth_error (rows n m dt) i = Some (firstn m (skipn (i * m) dt)).
Proof.
  revert dt i. induction n as [|n IH]; intros dt i Hi; [lia|].
  destruct i as [|i]; [reflexivity|].
  cbn [rows nth_error]. rewrite IH by lia. rewrite skipn_skipn.
  do 3 f_equal. simpl. lia.
Qed.

Lemma column_nth (j : nat) (rs : list (list F)) (i : nat) :
  Forall (fun r => (j < List.length r)%nat) rs ->
  nth_error (column j rs) i
  = match nth_error rs i with Some row => nth_error row j | None => None end.
Proof.
  unfold column. intros Hall. revert i.
  induction Hall as [|r rs Hr _ IH]; intros i; [destruct i; reflexivity|].
  cbn [flat_map].
  assert (L : List.length (firstn 1 (skipn j r)) = 1%nat)
    by (rewrite length_firstn, length_skipn; lia).
  destruct i as [|i].
  - rewrite nth_error_app1 by lia.
    rewrite nth_error_firstn. change (0 <? 1)%nat with true. cbv iota.
    rewrite nth_error_skipn. cbn [nth_error]. f_equal. lia.
  - rewrite nth_error_app2 by lia. rewrite L.
    replace (S i - 1)%nat with i by lia. cbn [nth_error]. apply IH.
Qed.

(** Entry [i] of column [j] of the loaded trajectory is [arr[i, j]]. *)
Lemma traj_entry (arr : ndarray F) (i j : nat) :
  List.length (data arr) = (nrows arr * ncols arr)%nat -> (4 <= ncols arr)%nat ->
  (i < nrows arr)%nat -> (j < 4)%nat ->
  nth_error (column j (traj_rows arr)) i = get2 arr i j.
Proof.
  intros Hd Hc Hi Hj.
  rewrite column_nth.
  2:{ eapply Forall_impl; [|apply (traj_rows_each arr Hd Hc)].
      intros r Hr. simpl in Hr. lia. }
  unfold traj_rows. rewrite nth_error_map, rows_nth by exact Hi.
  cbn [option_map]. rewrite !nth_error_firstn.
  destruct (Nat.ltb_spec j 4); [|lia].
  destruct (Nat.ltb_spec j (ncols arr)); [|lia].
  rewrite nth_error_skipn. reflexivity.
Qed.

(** A run that returns has loaded a two-dimensional array [arr] of at
    least 4 columns and 2 rows, and left the document of its Cartesian
    arrays. *)
Lemma main_written (h : host F) (a : args F) (w : io F) :
  host_wf h ->
  main h a io0 = (Ok tt, w) ->
  exists arr m rs,
    path_exists h (input_path a) = true /\
    (np_load h (input_path a) = Ok arr \/ np_loadtxt h (input_path a) = Ok arr) /\
    List.length (data arr) = (nrows arr * ncols arr)%nat /\
    (4 <= ncols arr)%nat /\ (2 <= nrows arr)%nat /\
    compute_rs a = Ok rs /\
    let '(x, y, z) := cartesian_of arr in
    List.length x = nrows arr /\ List.length y = nrows arr /\
    List.length z = nrows arr /\
    rmax x y z = Ok m /\
    w = done_io h a (html_of h a x y z m rs).
Proof.
  intros Hwf Hmain.
  destruct (path_exists h (input_path a)) eqn:E.
  2:{ rewrite (main_missing_file h a E) in Hmain.
      apply exit1_not_ok in Hmain. contradiction. }
  destruct (infer_format a) as [f|] eqn:Hf.
  2:{ rewrite (main_no_format h a E Hf) in Hmain.
      apply exit1_not_ok in Hmain. contradiction. }
  destruct (load_trajectory h (input_path a) f) as [traj|e] eqn:Hl.
  2:{ rewrite (main_load_raises h a E Hf Hl) in Hmain. discriminate. }
  destruct (load_trajectory_inv h _ _ Hl) as (arr & Hp & Hd & Hc & ->).
  assert (Hlen : List.length (data arr) = (nrows arr * ncols arr)%nat)
    by (apply wf_2d; [eapply Hwf; exact Hp | exact Hd]).
  rewrite (main_loaded h a E Hf Hl Hlen Hc) in Hmain.
  pose proof (cartesian_of_length arr Hlen Hc) as HL.
  destruct (cartesian_of arr) as [[x y] z] eqn:Ecart. destruct HL as (Lx & Ly & Lz).
  destruct (Nat.ltb_spec (nrows arr) 2) as [Hn|Hn];
    [apply exit1_not_ok in Hmain; contradiction|].
  destruct (rmax x y z) as [m|e] eqn:Hr; [|discriminate].
  destruct (compute_rs a) as [rs|e] eqn:Hrs; [|discriminate].
  apply finish_ok_inv in Hmain. destruct Hmain as (-> & _ & _).
  exists arr, m, rs.
  split; [reflexivity|]. split; [exact Hp|]. split; [exact Hlen|].
  split; [exact Hc|]. split; [exact Hn|]. split; [reflexivity|].
  rewrite Ecart. auto.
Qed.


(** The written document agrees with itself: the payload's N is the
    length of each of its three arrays and at least 2, the sliders'
    maximum is N-1 and the tail value lies within it; the checkbox is
    checked exactly when the payload says the horizon is shown; and then
    the payload's radius is the resolved one and the badge shows it
    formatted. *)
Theorem document_consistent (h : host F) (a : args F) (w : io F) (p : string)
  (dc : document F) :
  host_wf h ->
  main h a io0 = (Ok tt, w) -> In (p, dc) (files w) ->
  exists (x y z : list F),
    lookup "x" (data_json dc) = Some (JList x) /\
    lookup "y" (data_json dc) = Some (JList y) /\
    lookup "z" (data_json dc) = Some (JList z) /\
    lookup "N" (data_json dc) = Some (JInt (Z.of_nat (List.length x))) /\
    List.length y = List.length x /\ List.length z = List.length x /\
    (2 <= List.length x)%nat /\
    Nmax dc = (Z.of_nat (List.length x) - 1)%Z /\
    (0 <= doc_tail dc <= Nmax dc)%Z /\
    (horizon_checked dc = "checked"
     <-> lookup "show_horizon" (data_json dc) = Some (JBool true)) /\
    (lookup "show_horizon" (data_json dc) = Some (JBool true) ->
     exists v, compute_rs a = Ok (Some v) /\
               lookup "rs" (data_json dc) = Some (JFloat v) /\
               rs_text dc = format_4g h v).
Proof.
  intros Hwf Hmain Hin.
  destruct (main_written a Hwf Hmain)
    as (arr & m & rs & _ & _ & _ & _ & Hn & Hrs & Hw).
  destruct (cartesian_of arr) as [[x y] z].
  destruct Hw as (Lx & Ly & Lz & _ & ->).
  cbn [done_io files] in Hin. destruct Hin as [[= _ <-] | []].
  exists x, y, z. cbn [html_of data_json Nmax doc_tail horizon_checked rs_text].
  unfold tail. cbn [data_of lookup String.eqb Ascii.eqb Bool.eqb tolist].
  repeat split; try congruence; try lia.
  - destruct (show_horizon rs); [reflexivity | discriminate].
  - destruct (show_horizon rs); [reflexivity | intros [=]].
  - intros Hs. destruct rs as [v|]; [|discriminate].
    exists v. repeat split. exact Hrs.
Qed.

(** End to end: point [i] of the payload is the transform of row [i] of
    the loaded array, from its columns 1, 2 and 3; column 0, the time, is
    not used. *)
Theorem payload_points (h : host F) (a : args F) (w : io F) (p : string)
  (dc : document F) :
  host_wf h ->
  main h a io0 = (Ok tt, w) -> In (p, dc) (files w) ->
  exists arr x y z,
    (np_load h (input_path a) = Ok arr \/ np_loadtxt h (input_path a) = Ok arr) /\
    lookup "x" (data_json dc) = Some (JList x) /\
    lookup "y" (data_json dc) = Some (JList y) /\
    lookup "z" (data_json dc) = Some (JList z) /\
    List.length x = nrows arr /\
    forall i, (i < nrows arr)%nat ->
      exists ri ti pi,
        get2 arr i 1 = Some ri /\ get2 arr i 2 = Some ti /\ get2 arr i 3 = Some pi /\
        nth_error x i = Some (mul (mul ri (sin ti)) (cos pi)) /\
        nth_error y i = Some (mul (mul ri (sin ti)) (sin pi)) /\
        nth_error z i = Some (mul ri (cos ti)).
Proof.
  intros Hwf Hmain Hin.
  destruct (main_written a Hwf Hmain)
    as (arr & m & rs & _ & Hp & Hd & Hc & Hn & Hrs & Hw).
  pose proof (fun i j Hi Hj => traj_entry arr (i:=i) (j:=j) Hd Hc Hi Hj) as Hent.
  unfold cartesian_of in Hw. destruct Hw as (Lx & Ly & Lz & _ & ->).
  cbn [done_io files] in Hin. destruct Hin as [[= _ <-] | []].
  do 4 eexists. split; [exact Hp|].
  cbn [html_of data_json data_of lookup String.eqb Ascii.eqb Bool.eqb tolist].
  split; [reflexivity|]. split; [reflexivity|]. split; [reflexivity|].
  split; [exact Lx|].
  intros i Hi.
  destruct (get2 arr i 1) as [ri|] eqn:E1.
  2:{ unfold get2 in E1. apply nth_error_None in E1. nia. }
  destruct (get2 arr i 2) as [ti|] eqn:E2.
  2:{ unfold get2 in E2. apply nth_error_None in E2. nia. }
  destruct (get2 arr i 3) as [pi|] eqn:E3.
  2:{ unfold get2 in E3. apply nth_error_None in E3. nia. }
  exists ri, ti, pi. split; [reflexivity|]. split; [reflexivity|]. split; [reflexivity|].
  assert (H1 : nth_error (column 1 (traj_rows arr)) i = Some ri)
    by (rewrite Hent by lia; exact E1).
  assert (H2 : nth_error (column 2 (traj_rows arr)) i = Some ti)
    by (rewrite Hent by lia; exact E2).
  assert (H3 : nth_error (column 3 (traj_rows arr)) i = Some pi)
    by (rewrite Hent by lia; exact E3).
  assert (Hs : nth_error (np_sin (column 2 (traj_rows arr))) i = Some (sin ti))
    by (unfold np_sin; rewrite nth_error_map, H2; reflexivity).
  assert (Hct : nth_error (np_cos (column 2 (traj_rows arr))) i = Some (cos ti))
    by (unfold np_cos; rewrite nth_error_map, H2; reflexivity).
  assert (Hcp : nth_error (np_cos (column 3 (traj_rows arr))) i = Some (cos pi))
    by (unfold np_cos; rewrite nth_error_map, H3; reflexivity).
  assert (Hsp : nth_error (np_sin (column 3 (traj_rows arr))) i = Some (sin pi))
    by (unfold np_sin; rewrite nth_error_map, H3; reflexivity).
  split; [|split].
  - apply zip_mul_nth; [apply zip_mul_nth; assumption | assumption].
  - apply zip_mul_nth; [apply zip_mul_nth; assumption | assumption].
  - apply zip_mul_nth; assumption.
Qed.

(** The loader's result: only for the formats [npy] and [csv]; always
    two-dimensional with exactly 4 columns and the parsed array's rows;
    well-formed when the parsed array is; and taking its first 4 columns
    again changes nothing. *)
Theorem load_trajectory_result (h : host F) (path file_format : string)
  (traj : ndarray F) :
  load_trajectory h path file_format = Ok traj ->
  (file_format = "npy" \/ file_format = "csv") /\
  exists arr,
    (np_load h path = Ok arr \/ np_loadtxt h path = Ok arr) /\
    ndim traj = 2%nat /\ ncols traj = 4%nat /\ nrows traj = nrows arr /\
    (wf arr -> wf traj /\ slice_cols 4 traj = traj).
Proof.
  intros Hl.
  split.
  { unfold load_trajectory in Hl.
    destruct (String.eqb_spec file_format "npy"); [auto|].
    destruct (String.eqb_spec file_format "csv"); [auto|]. discriminate. }
  destruct (load_trajectory_inv h _ _ Hl) as (arr & Hp & Hd & Hc & ->).
  exists arr. split; [exact Hp|]. split; [reflexivity|].
  assert (Ec : ncols (slice_cols 4 arr) = 4%nat).
  { change (ncols (slice_cols 4 arr)) with (Nat.min 4 (ncols arr)). lia. }
  split; [exact Ec|]. split; [reflexivity|].
  intros Hwf. pose proof (wf_2d Hwf Hd) as Hlen.
  pose proof (traj_rows_each arr Hlen Hc) as Hrows.
  assert (Ldata : List.length (data (slice_cols 4 arr)) = (nrows arr * 4)%nat).
  { change (data (slice_cols 4 arr)) with (List.concat (traj_rows arr)).
    rewrite <- (traj_rows_length arr).
    clear - Hrows. induction Hrows as [|r rs Hr _ IH]; [reflexivity|].
    cbn [List.concat List.length]. rewrite length_app, IH, Hr. lia. }
  split.
  - unfold wf. rewrite Ldata. unfold slice_cols. cbn [shape fold_right].
    rewrite Nat.min_l by exact Hc. lia.
  - unfold slice_cols at 1.
    change (nrows (slice_cols 4 arr)) with (nrows arr).
    rewrite Ec.
    change (data (slice_cols 4 arr)) with (List.concat (traj_rows arr)).
    assert (E : rows (nrows arr) 4 (List.concat (traj_rows arr)) = traj_rows arr).
    { rewrite <- (traj_rows_length arr) at 1. apply rows_concat. exact Hrows. }
    rewrite E.
    assert (E2 : map (firstn 4) (traj_rows arr) = traj_rows arr).
    { clear - Hrows. induction Hrows as [|r rs Hr _ IH]; [reflexivity|].
      cbn [map]. rewrite IH, firstn_all2 by lia. reflexivity. }
    rewrite E2. change (Nat.min 4 4) with 4%nat.
    unfold slice_cols. rewrite Nat.min_l by exact Hc.
    reflexivity.
Qed.

End RunsLeave.

(** ** More on binary64: the sign of the limit, the errors of the radius *)

Section Binary64More.
Local Open Scope float_scope.

(** The C library of the host. *)
Context {libm : Trig float}.

Lemma above_finite_positive (mm : positive) (em : Z) (v : float) :
  SFleb (S754_finite false mm em) (Prim2SF v) = true -> (0 <? v) = true.
Proof.
  intros Hle. apply pos_spec. unfold SFleb, SFcompare in Hle.
  destruct (Prim2SF v) as [s | [|] | | [|] mv ev]; try discriminate; eauto.
Qed.

(** The axis limit is above zero, and so not a NaN, whatever the
    maximum is: the plot range from -lim to lim is never empty. *)
Theorem lim_positive (m : float) :
  (0 <? lim m) = true /\ is_nan (lim m) = false.
Proof.
  assert (Hp : (0 <? lim m) = true).
  { rewrite lim_unfold.
    destruct (isfinite m) eqn:Hf; [|reflexivity].
    destruct (0 <? m) eqn:Hm; [|reflexivity]. cbn [andb].
    apply pos_spec in Hm. apply isfinite_spec in Hf.
    destruct Hm as [Hm | (mm & em & Hm)].
    - destruct Hf as [[s Hs] | (s & mm & em & Hs)]; congruence.
    - apply (above_finite_positive mm em).
      rewrite <- Hm, <- leb_spec. exact (mul_1_05_ge m Hm). }
  split; [exact Hp|].
  apply not_nan_spec. apply pos_spec in Hp.
  destruct Hp as [Hp | (mm & em & Hp)]; rewrite Hp; discriminate.
Qed.

(** When the radius computation raises.  It raises only without --rs and
    with --mass, --G and --c all given: [OverflowError] when c is finite,
    not zero, not 1 or -1, and the C library's pow(|c|, 2.0) is infinite;
    [ZeroDivisionError] when c is zero, or that power is zero.  So it
    raises for c = 0 and c = -0.0, and never for an infinite or NaN c (the
    radius is then 2*G*M divided by |c| and by c), nor when --rs is
    given. *)
Theorem compute_rs_raises (a : args float) :
  (forall e,
     compute_rs a = Raise e <->
     args_rs a = None /\
     exists M G c,
       args_mass a = Some M /\ args_G a = Some G /\ args_c a = Some c /\
       ((isfinite c = true /\ (c =? 0) = false /\ (abs c =? 1) = false /\
         is_infinity (pow2 (abs c)) = true /\
         e = OverflowError "(34, 'Numerical result out of range')") \/
        (((c =? 0) = true \/
          (isfinite c = true /\ (abs c =? 1) = false /\
           is_infinity (pow2 (abs c)) = false /\ (pow2 (abs c) =? 0) = true)) /\
         e = ZeroDivisionError "float division by zero"))) /\
  (forall M G c,
     args_rs a = None -> args_mass a = Some M -> args_G a = Some G ->
     args_c a = Some c ->
     ((c =? 0) = true ->
      compute_rs a = Raise (ZeroDivisionError "float division by zero")) /\
     (is_nan c = true -> compute_rs a = Ok (Some (2 * G * M / c))) /\
     (is_nan c = false -> is_infinity c = true ->
      compute_rs a = Ok (Some (2 * G * M / abs c)))).
Proof.
  split.
  - intros e.
    destruct (args_rs a) as [v|] eqn:Hrs.
    { unfold compute_rs. rewrite Hrs.
      split; [discriminate | intros [Hc _]; discriminate]. }
    destruct (args_mass a) as [M|] eqn:HM.
    2:{ unfold compute_rs. rewrite Hrs, HM.
        split; [discriminate | intros (_ & M & G & c & Hc & _); discriminate]. }
    destruct (args_G a) as [G|] eqn:HG.
    2:{ unfold compute_rs. rewrite Hrs, HM, HG.
        split; [discriminate | intros (_ & M' & G & c & _ & Hc & _); discriminate]. }
    destruct (args_c a) as [c|] eqn:Hc.
    2:{ unfold compute_rs. rewrite Hrs, HM, HG, Hc.
        split; [discriminate | intros (_ & M' & G' & c & _ & _ & Hc' & _); discriminate]. }
    rewrite (compute_rs_by_c a Hrs HM HG Hc).
    assert (Hfin : isfinite c = negb (is_nan c || is_infinity c)) by reflexivity.
    assert (Hnz : isfinite c = false -> (c =? 0) = false)
      by apply (@nonfinite_not_zero c).
    destruct (is_nan c) eqn:Hn.
    { cbn in Hfin. specialize (Hnz Hfin). split; [discriminate|].
      intros (_ & M' & G' & c' & _ & _ & [= <-] & [(Hf & _) | [[Hz | (Hf & _)] _]]);
        congruence. }
    destruct (is_infinity c) eqn:Hi.
    { cbn in Hfin. specialize (Hnz Hfin). split; [discriminate|].
      intros (_ & M' & G' & c' & _ & _ & [= <-] & [(Hf & _) | [[Hz | (Hf & _)] _]]);
        congruence. }
    cbn in Hfin. clear Hnz.
    destruct (c =? 0) eqn:Hz.
    { split.
      - intros [= <-]. split; [reflexivity|]. exists M, G, c. auto 10.
      - intros (_ & M' & G' & c' & _ & _ & [= <-] & [(_ & Hz' & _) | [_ ->]]);
          [congruence | reflexivity]. }
    destruct (abs c =? 1) eqn:H1.
    { split; [discriminate|].
      intros (_ & M' & G' & c' & _ & _ & [= <-]
              & [(_ & _ & H1' & _) | [[Hz' | (_ & H1' & _)] _]]); congruence. }
    destruct (is_infinity (pow2 (abs c))) eqn:Ho.
    { split.
      - intros [= <-]. split; [reflexivity|]. exists M, G, c. auto 10.
      - intros (_ & M' & G' & c' & _ & _ & [= <-]
                & [(_ & _ & _ & _ & ->) | [[Hz' | (_ & _ & Ho' & _)] _]]);
          [reflexivity | congruence | congruence]. }
    destruct (pow2 (abs c) =? 0) eqn:Hp.
    { split.
      - intros [= <-]. split; [reflexivity|]. exists M, G, c. auto 12.
      - intros (_ & M' & G' & c' & _ & _ & [= <-]
                & [(_ & _ & _ & Ho' & _) | [_ ->]]);
          [congruence | reflexivity]. }
    split; [discriminate|].
    intros (_ & M' & G' & c' & _ & _ & [= <-]
            & [(_ & _ & _ & Ho' & _) | [[Hz' | (_ & _ & _ & Hp') ] _]]); congruence.
  - intros M G c Hrs HM HG Hc. rewrite (compute_rs_by_c a Hrs HM HG Hc).
    split; [|split].
    + intros Hz.
      destruct (is_nan c) eqn:Hn.
      { rewrite nonfinite_not_zero in Hz; [discriminate|].
        unfold isfinite. cbn [isnan isinf binary64]. rewrite Hn. reflexivity. }
      destruct (is_infinity c) eqn:Hi.
      { rewrite nonfinite_not_zero in Hz; [discriminate|].
        unfold isfinite. cbn [isnan isinf binary64]. rewrite Hn, Hi. reflexivity. }
      rewrite Hz. reflexivity.
    + intros ->. reflexivity.
    + intros -> ->. reflexivity.
Qed.

End Binary64More.

(** ** More on the player: what is drawn, the button, the other controls *)

Module SyncFacts.
Import Player Sync.
Local Open Scope Z_scope.

Section AnyDocument.
Context {F : Type}.
Variable d : document F.

(** The button's label tells the state: "Play" with no timer, "Pause"
    with the 20 ms timer; no other timer is ever set. *)
Theorem button_tells_state (s : dom (F:=F)) :
  reachable d s ->
  (timer s = None /\ playBtn s = "▶ Play"%string) \/
  (timer s = Some 20 /\ playBtn s = "⏸ Pause"%string).
Proof.
  induction 1 as [|s ev s' _ IH Hstep].
  - left. split; reflexivity.
  - destruct Hstep as [s | s ms _ | s i | s L | s b]; try exact IH.
    unfold on_play_click.
    destruct IH as [[Ht _] | [Ht _]]; rewrite Ht; [right | left]; split; reflexivity.
Qed.

Lemma horizon_trace (s : dom (F:=F)) :
  reachable d s ->
  (D_show_horizon d = false -> horizon_visible s = None) /\
  (D_show_horizon d = true -> exists b, horizon_visible s = Some b).
Proof.
  induction 1 as [|s ev s' _ IH Hstep].
  - unfold init. cbn [setIndex horizon_visible].
    destruct (D_show_horizon d); split; try discriminate; eauto.
  - destruct Hstep as [s | s ms _ | s i | s L | s b]; try exact IH.
    + unfold on_play_click. destruct (timer s); exact IH.
    + destruct IH as [I0 I1]. cbn [on_horizon_change horizon_visible]. split.
      * intros Hs. rewrite (I0 Hs). reflexivity.
      * intros Hs. destruct (I1 Hs) as [b' ->]. eauto.
Qed.

(** Only the play button starts or stops playback: every other event
    leaves the timer and the label as they are.  The horizon checkbox
    changes neither slider and nothing that is drawn of the path; with no
    horizon in the payload it changes nothing at all, and with one it sets
    the horizon's visibility to the box's state. *)
Theorem other_controls (s s' : dom (F:=F)) (ev : event) :
  reachable d s -> step d s ev s' ->
  (ev <> PlayPause -> timer s' = timer s /\ playBtn s' = playBtn s) /\
  (forall b, ev = ToggleHorizon b ->
     slider s' = slider s /\ tailInput s' = tailInput s /\
     tail_trace s' = tail_trace s /\ particle_trace s' = particle_trace s /\
     (D_show_horizon d = false -> s' = s) /\
     (D_show_horizon d = true -> horizon_visible s' = Some b)).
Proof.
  intros Hs Hstep. destruct (horizon_trace Hs) as [I0 I1].
  destruct Hstep as [s | s ms _ | s i | s L | s b].
  - split; [intros Hc; congruence | intros b' Hb; discriminate].
  - split; [intros _; split; reflexivity | intros b' Hb; discriminate].
  - split; [intros _; split; reflexivity | intros b' Hb; discriminate].
  - split; [intros _; split; reflexivity | intros b' Hb; discriminate].
  - split; [intros _; split; reflexivity|].
    intros b' Hb. injection Hb as <-.
    split; [reflexivity|]. split; [reflexivity|].
    split; [reflexivity|]. split; [reflexivity|]. split.
    + intros Hh. pose proof (I0 Hh) as Hn. unfold on_horizon_change.
      destruct s. cbn in *. rewrite Hn. reflexivity.
    + intros Hh. destruct (I1 Hh) as [b0 Hb].
      cbn [on_horizon_change horizon_visible]. rewrite Hb. reflexivity.
Qed.

End AnyDocument.

Section WrittenPage.
Context {F : Type}.
Variable d : document F.

Hypothesis HN : 2 <= D_N d.
Hypothesis HNmax : Nmax d = D_N d - 1.
Hypothesis H32 : D_N d <= 2 ^ 31.

Lemma to_int32_id (i : Z) : - 2 ^ 31 <= i < 2 ^ 31 -> to_int32 i = i.
Proof.
  intros Hi. unfold to_int32.
  rewrite Z.mod_small by (change (2 ^ 32) with (2 * 2 ^ 31); lia). lia.
Qed.

Lemma setIndex_in_sync (i : Z) (s : dom (F:=F)) :
  slider s = i -> 0 <= i <= D_N d - 1 -> drawn_in_sync d (setIndex d i s).
Proof.
  intros Hs Hi. unfold drawn_in_sync, setIndex. cbn.
  rewrite to_int32_id by lia.
  replace (Z.max 0 (Z.min (D_N d - 1) i)) with i by lia.
  rewrite Hs. split; reflexivity.
Qed.

Lemma range_bounds (v : Z) : 0 <= range_value 0 (Nmax d) v <= D_N d - 1.
Proof.
  unfold range_value. rewrite HNmax. destruct (Z.ltb_spec (D_N d - 1) 0); lia.
Qed.

Lemma page_invariant (s : dom (F:=F)) :
  reachable d s ->
  0 <= slider s <= D_N d - 1 /\ 0 <= tailInput s <= D_N d - 1 /\
  drawn_in_sync d s.
Proof.
  induction 1 as [|s ev s' _ (Is & It & Id) Hstep].
  - unfold init. split; [|split].
    + cbn [setIndex slider]. apply range_bounds.
    + cbn [setIndex tailInput]. apply range_bounds.
    + assert (E : range_value 0 (Nmax d) 0 = 0)
        by (unfold range_value; rewrite HNmax; destruct (Z.ltb_spec (D_N d - 1) 0); lia).
      apply setIndex_in_sync; [cbn [slider]; exact E | lia].
  - destruct Hstep as [s | s ms _ | s i | s L | s b].
    + unfold on_play_click. destruct (timer s); (split; [exact Is | split; [exact It | exact Id]]).
    + pose proof (range_bounds (Z.rem (1 + slider s) (D_N d))) as Hb.
      assert (Er : 0 <= Z.rem (1 + slider s) (D_N d) <= D_N d - 1).
      { rewrite Z.rem_mod_nonneg by lia.
        pose proof (Z.mod_pos_bound (1 + slider s) (D_N d)). lia. }
      assert (E : range_value 0 (Nmax d) (Z.rem (1 + slider s) (D_N d))
                  = Z.rem (1 + slider s) (D_N d)).
      { unfold range_value. rewrite HNmax.
        destruct (Z.ltb_spec (D_N d - 1) 0); lia. }
      unfold on_tick. cbv zeta. split; [|split].
      * cbn [setIndex set_slider slider]. exact Hb.
      * cbn [setIndex set_slider tailInput]. exact It.
      * apply setIndex_in_sync; [cbn [set_slider slider]; exact E | exact Er].
    + pose proof (range_bounds i) as Hb.
      unfold on_slider_input. cbv zeta. split; [|split].
      * cbn [setIndex set_slider slider]. exact Hb.
      * cbn [setIndex set_slider tailInput]. exact It.
      * apply setIndex_in_sync; [reflexivity | cbn [set_slider slider]; exact Hb].
    + pose proof (range_bounds L) as Hb.
      unfold on_tail_input. cbv zeta. split; [|split].
      * cbn [setIndex set_tail slider]. exact Is.
      * cbn [setIndex set_tail tailInput]. exact Hb.
      * apply setIndex_in_sync; [reflexivity | cbn [set_tail slider]; exact Is].
    + split; [exact Is | split; [exact It | exact Id]].
Qed.

Lemma slice_length (a : list F) (j k : Z) :
  0 <= j <= k -> k <= Z.of_nat (List.length a) ->
  List.length (slice a j k) = Z.to_nat (k - j).
Proof.
  intros Hj Hk. unfold slice. rewrite length_firstn, length_skipn. lia.
Qed.

Lemma slice_last (a : list F) (j k : Z) :
  0 <= j < k -> k <= Z.of_nat (List.length a) ->
  nth_error (slice a j k) (Z.to_nat (k - j - 1)) = at_index a (k - 1).
Proof.
  intros Hj Hk. unfold slice, at_index.
  destruct (Z.ltb_spec (k - 1) 0); [lia|].
  rewrite nth_error_firstn.
  destruct (Nat.ltb_spec (Z.to_nat (k - j - 1)) (Z.to_nat (k - j))); [|lia].
  rewrite nth_error_skipn. f_equal. lia.
Qed.

Lemma at_index_some (a : list F) (i : Z) :
  0 <= i < Z.of_nat (List.length a) -> exists v, at_index a i = Some v.
Proof.
  intros Hi. unfold at_index. destruct (Z.ltb_spec i 0); [lia|].
  destruct (nth_error a (Z.to_nat i)) eqn:E; [eauto|].
  apply nth_error_None in E. lia.
Qed.

(** After [k] ticks the index is [(index + k) mod N]; the tail length,
    the timer, the label and the horizon are as before. *)
Lemma ticks_fields (k : nat) (s : dom (F:=F)) :
  0 <= slider s <= D_N d - 1 ->
  slider (ticks d k s) = (slider s + Z.of_nat k) mod D_N d /\
  tailInput (ticks d k s) = tailInput s /\ timer (ticks d k s) = timer s /\
  playBtn (ticks d k s) = playBtn s /\
  horizon_visible (ticks d k s) = horizon_visible s.
Proof.
  intros Hs. induction k as [|k (Ik & It & Im & Ip & Ih)].
  - cbn [ticks]. rewrite Z.add_0_r, Z.mod_small by lia. repeat split.
  - cbn [ticks]. unfold on_tick. cbv zeta.
    cbn [setIndex set_slider slider tailInput timer playBtn horizon_visible].
    split; [|repeat split; assumption].
    assert (Hb : 0 <= slider (ticks d k s) <= D_N d - 1).
    { rewrite Ik. pose proof (Z.mod_pos_bound (slider s + Z.of_nat k) (D_N d)). lia. }
    assert (Er : Z.rem (1 + slider (ticks d k s)) (D_N d)
                 = (slider s + Z.of_nat (S k)) mod D_N d).
    { rewrite Z.rem_mod_nonneg by lia. rewrite Ik.
      rewrite Zplus_mod_idemp_r. f_equal. lia. }
    rewrite Er. unfold range_value. rewrite HNmax.
    pose proof (Z.mod_pos_bound (slider s + Z.of_nat (S k)) (D_N d)).
    destruct (Z.ltb_spec (D_N d - 1) 0); lia.
Qed.

Lemma ticks_in_sync (k : nat) (s : dom (F:=F)) :
  0 <= slider s <= D_N d - 1 -> drawn_in_sync d (ticks d (S k) s).
Proof.
  intros Hs. cbn [ticks]. unfold on_tick. cbv zeta.
  destruct (ticks_fields k s Hs) as (Ik & _).
  assert (Er : 0 <= Z.rem (1 + slider (ticks d k s)) (D_N d) <= D_N d - 1).
  { rewrite Z.rem_mod_nonneg.
    - pose proof (Z.mod_pos_bound (1 + slider (ticks d k s)) (D_N d)). lia.
    - rewrite Ik. pose proof (Z.mod_pos_bound (slider s + Z.of_nat k) (D_N d)). lia.
    - lia. }
  apply setIndex_in_sync; [|exact Er].
  cbn [set_slider slider]. unfold range_value. rewrite HNmax.
  destruct (Z.ltb_spec (D_N d - 1) 0); lia.
Qed.

Lemma in_sync_unique (s1 s2 : dom (F:=F)) :
  drawn_in_sync d s1 -> drawn_in_sync d s2 ->
  slider s1 = slider s2 -> tailInput s1 = tailInput s2 ->
  timer s1 = timer s2 -> playBtn s1 = playBtn s2 ->
  horizon_visible s1 = horizon_visible s2 -> s1 = s2.
Proof.
  unfold drawn_in_sync. destruct s1, s2. cbn.
  intros [T1 P1] [T2 P2] -> -> -> -> ->. rewrite T1, T2, P1, P2. reflexivity.
Qed.

End WrittenPage.
End SyncFacts.

Section WrittenPageFacts.
Context {F : Type} `{Arith F} `{Trig F}.
Import Player Sync.
Local Open Scope Z_scope.

Lemma written_lists (h : host F) (a : args F) (w : io F) (p : string)
  (d : document F) :
  host_wf h ->
  main h a io0 = (Ok tt, w) -> In (p, d) (files w) ->
  2 <= D_N d /\ Nmax d = D_N d - 1 /\
  Z.of_nat (List.length (D_list d "x")) = D_N d /\
  Z.of_nat (List.length (D_list d "y")) = D_N d /\
  Z.of_nat (List.length (D_list d "z")) = D_N d.
Proof.
  intros Hwf Hmain Hin.
  destruct (main_written a Hwf Hmain)
    as (arr & m & rs & _ & _ & _ & _ & Hn & _ & Hw).
  destruct (cartesian_of arr) as [[x y] z].
  destruct Hw as (Lx & Ly & Lz & _ & ->).
  cbn [done_io files] in Hin. destruct Hin as [[= _ <-] | []].
  unfold D_N, D_list. cbn. lia.
Qed.

(** In the player of a written document of at most 2^31 samples, in every
    state the page can reach: the tail length lies in [0, N-1]; the
    particle is drawn at the sample of the displayed index, which exists;
    the recent segment is the samples from max(0, index - tail) to the
    index, so it has min(index, tail) + 1 points and ends at the
    particle. *)
Theorem page_in_sync (h : host F) (a : args F) (w : io F) (p : string)
  (d : document F) (s : dom (F:=F)) :
  host_wf h ->
  main h a io0 = (Ok tt, w) -> In (p, d) (files w) ->
  D_N d <= 2 ^ 31 ->
  reachable d s ->
  let i := slider s in
  let L := tailInput s in
  0 <= L <= D_N d - 1 /\
  drawn_in_sync d s /\
  (exists vx vy vz, particle_trace s = (Some vx, Some vy, Some vz)) /\
  let '(tx, ty, tz) := tail_trace s in
  List.length tx = Z.to_nat (Z.min i L + 1) /\
  List.length ty = Z.to_nat (Z.min i L + 1) /\
  List.length tz = Z.to_nat (Z.min i L + 1) /\
  (nth_error tx (Z.to_nat (Z.min i L)),
   nth_error ty (Z.to_nat (Z.min i L)),
   nth_error tz (Z.to_nat (Z.min i L))) = particle_trace s.
Proof.
  intros Hwf Hmain Hin H32 Hs i L.
  destruct (@written_lists h a w p d Hwf Hmain Hin) as (HN & HNmax & Lx & Ly & Lz).
  destruct (@SyncFacts.page_invariant F d HN HNmax H32 s Hs) as (Is & It & Id).
  fold i in Is. fold L in It.
  split; [exact It|]. split; [exact Id|].
  destruct Id as [ET EP]. fold i in ET, EP. fold L in ET.
  rewrite ET, EP.
  destruct (@SyncFacts.at_index_some F (D_list d "x") i ltac:(lia)) as [vx Ex].
  destruct (@SyncFacts.at_index_some F (D_list d "y") i ltac:(lia)) as [vy Ey].
  destruct (@SyncFacts.at_index_some F (D_list d "z") i ltac:(lia)) as [vz Ez].
  split; [rewrite Ex, Ey, Ez; eauto|].
  assert (E1 : i + 1 - Z.max 0 (i - L) = Z.min i L + 1) by lia.
  rewrite !SyncFacts.slice_length by lia. rewrite E1.
  split; [reflexivity|]. split; [reflexivity|]. split; [reflexivity|].
  assert (E2 : Z.min i L = i + 1 - Z.max 0 (i - L) - 1) by lia.
  rewrite E2, !SyncFacts.slice_last by lia.
  replace (i + 1 - 1) with i by lia. reflexivity.
Qed.

(** A full lap.  In the player of a written document of at most 2^31
    samples, from any state the page can reach, [k] ticks move the index
    to (index + k) mod N, and N ticks leave the page exactly as it was. *)
Theorem full_lap (h : host F) (a : args F) (w : io F) (p : string)
  (d : document F) (s : dom (F:=F)) :
  host_wf h ->
  main h a io0 = (Ok tt, w) -> In (p, d) (files w) ->
  D_N d <= 2 ^ 31 ->
  reachable d s ->
  (forall k, slider (ticks d k s) = (slider s + Z.of_nat k) mod D_N d) /\
  ticks d (Z.to_nat (D_N d)) s = s.
Proof.
  intros Hwf Hmain Hin H32 Hs.
  destruct (@written_lists h a w p d Hwf Hmain Hin) as (HN & HNmax & _).
  destruct (@SyncFacts.page_invariant F d HN HNmax H32 s Hs) as (Is & It & Id).
  split.
  - intros k. apply (@SyncFacts.ticks_fields F d HN HNmax k s Is).
  - destruct (Z.to_nat (D_N d)) as [|k] eqn:Ek; [lia|].
    destruct (@SyncFacts.ticks_fields F d HN HNmax (S k) s Is)
      as (Ik & Et & Em & Ep & Eh).
    apply (@SyncFacts.in_sync_unique F d); try assumption.
    + apply (@SyncFacts.ticks_in_sync F d HN HNmax H32 k s Is).
    + rewrite Ik, <- Ek, Z2Nat.id by lia.
      rewrite Z.add_mod, Z.mod_same, Z.add_0_r, Z.mod_mod by lia.
      apply Z.mod_small. lia.
Qed.

End WrittenPageFacts.

(** ** The player of a written document *)

Section PlayerOfWrittenDocument.
Context {F : Type} `{Arith F} `{Trig F}.
Import Player Sync.
Local Open Scope Z_scope.

(** C9. In the player of every written document, with N samples: the page
    starts Paused at index 0 and the displayed index stays within
    [0, N-1].  In every state the page can reach, what is drawn is what
    [setIndex] draws for the displayed index: the particle at the sample
    of the shown index, which exists, and the recent segment from the tail
    length before it (or from 0) up to it; the shown index is the
    displayed index for at most 2^31 samples.  Pressing play-pause while
    Paused sets the interval timer (20 ms) and leaves the index where it
    is, and no tick happens while Paused.  While Playing, every tick moves
    the index to (index + 1) mod N, from N-1 to 0, keeps the tail length
    and leaves the page as scrubbing to that index does, redrawn for the
    new index; pressing play-pause clears the timer and changes neither the
    index nor what is drawn. *)
Theorem play_pause_cycle (h : host F) (a : args F) (w : io F) (p : string)
  (d : document F) :
  host_wf h ->
  main h a io0 = (Ok tt, w) -> In (p, d) (files w) ->
  let N := D_N d in
  Paused (init d) /\ slider (init d) = 0 /\
  forall s, reachable d s ->
    0 <= slider s <= N - 1 /\
    drawn_for_slider d s /\
    0 <= shown_index d s <= N - 1 /\
    (N <= 2 ^ 31 -> shown_index d s = slider s) /\
    (exists vx vy vz, particle_trace s = (Some vx, Some vy, Some vz)) /\
    (Paused s ->
     (forall s', ~ step d s Tick s') /\
     (forall s', step d s PlayPause s' ->
        timer s' = Some 20 /\ Playing s' /\ slider s' = slider s)) /\
    (Playing s ->
     (exists s', step d s Tick s') /\
     (forall s', step d s Tick s' ->
        slider s' = (slider s + 1) mod N /\
        (slider s = N - 1 -> slider s' = 0) /\
        (slider s < N - 1 -> slider s' = slider s + 1) /\
        s' = on_slider_input d (slider s') s /\
        tailInput s' = tailInput s /\
        drawn_for_slider d s' /\
        Playing s') /\
     (forall s', step d s PlayPause s' ->
        Paused s' /\ slider s' = slider s /\
        tail_trace s' = tail_trace s /\
        particle_trace s' = particle_trace s)) /\
    (forall i s', step d s (Scrub i) s' ->
       slider s' = range_value 0 (N - 1) i /\ drawn_for_slider d s').
Proof.
  intros Hwf Hmain Hin N.
  destruct (@written_lists F _ _ h a w p d Hwf Hmain Hin)
    as (HN & HNmax & Lx & Ly & Lz).
  split; [reflexivity|].
  split.
  { unfold init. cbn [setIndex slider]. apply PlayerFacts.range_value_id; try assumption; lia. }
  intros s Hs.
  assert (Hr : 0 <= slider s <= D_N d - 1)
    by (apply PlayerFacts.slider_in_range; assumption).
  pose proof (@PlayerFacts.drawn_reachable F d HN HNmax s Hs) as Hd.
  pose proof (@PlayerFacts.shown_index_bounds F d HN s) as Hk.
  split; [exact Hr|]. split; [exact Hd|]. split; [exact Hk|].
  split; [intros H32; apply PlayerFacts.shown_index_slider; assumption|].
  split.
  { destruct Hd as [_ ->].
    destruct (@SyncFacts.at_index_some F (D_list d "x") (shown_index d s) ltac:(lia))
      as [vx ->].
    destruct (@SyncFacts.at_index_some F (D_list d "y") (shown_index d s) ltac:(lia))
      as [vy ->].
    destruct (@SyncFacts.at_index_some F (D_list d "z") (shown_index d s) ltac:(lia))
      as [vz ->].
    eauto. }
  split; [|split].
  - intros Hp. unfold Paused in Hp. split.
    + intros s' Hstep. inversion Hstep; subst. congruence.
    + intros s' Hstep. inversion Hstep; subst.
      unfold on_play_click. rewrite Hp. cbn.
      split; [reflexivity|]. split; [exists 20; reflexivity | reflexivity].
  - intros [ms Hp]. split; [|split].
    + exists (on_tick d s). econstructor. exact Hp.
    + intros s' Hstep.
      assert (Hs' : reachable d s') by (eapply reach_step; eassumption).
      pose proof (@PlayerFacts.drawn_reachable F d HN HNmax s' Hs') as Hd'.
      inversion Hstep; subst.
      destruct (@PlayerFacts.tick_index F d HN (slider s) Hr) as (Em & Hb & Hw & Hi).
      assert (Es : slider (on_tick d s) = Z.rem (1 + slider s) (D_N d)).
      { unfold on_tick. cbv zeta. cbn [setIndex slider set_slider].
        apply PlayerFacts.range_value_id; assumption. }
      rewrite Es.
      split; [exact Em|]. split; [exact Hw|]. split; [exact Hi|].
      split; [apply PlayerFacts.on_tick_as_scrub; assumption|].
      split; [reflexivity|]. split; [exact Hd'|].
      exists ms. unfold on_tick. cbn. exact Hp.
    + intros s' Hstep. inversion Hstep; subst.
      unfold on_play_click. rewrite Hp. cbn. repeat split.
  - intros i s' Hstep.
    assert (Hs' : reachable d s') by (eapply reach_step; eassumption).
    pose proof (@PlayerFacts.drawn_reachable F d HN HNmax s' Hs') as Hd'.
    inversion Hstep; subst.
    split; [|exact Hd'].
    unfold on_slider_input. cbv zeta. cbn [setIndex set_slider slider].
    fold N. rewrite HNmax. reflexivity.
Qed.

End PlayerOfWrittenDocument.

(** ** The horizon mesh *)

Module MeshFacts.
Import Mesh.

Section AnyArithmetic.
Context {F : Type} `{Arith F} `{Trig F} `{MathOps F}.
Variable d : document F.

Lemma th_length (nT : nat) : List.length (th nT) = nT.
Proof. unfold th. rewrite length_map. apply length_seq. Qed.

Lemma ph_length (nP : nat) : List.length (ph nP) = nP.
Proof. unfold ph. rewrite length_map. apply length_seq. Qed.

Lemma th_nth (nT i : nat) :
  (i < nT)%nat ->
  nth_error (th nT) i
  = Some (mul (of_int (Z.of_nat i)) (div fpi (of_int (Z.of_nat nT - 1)))).
Proof.
  intros Hi. unfold th. rewrite nth_error_map, nth_error_seq.
  destruct (Nat.ltb_spec i nT); [reflexivity | lia].
Qed.

Lemma ph_nth (nP j : nat) :
  (j < nP)%nat ->
  nth_error (ph nP) j
  = Some (mul (of_int (Z.of_nat j))
              (div (mul lit_2 fpi) (of_int (Z.of_nat nP - 1)))).
Proof.
  intros Hj. unfold ph. rewrite nth_error_map, nth_error_seq.
  destruct (Nat.ltb_spec j nP); [reflexivity | lia].
Qed.

Lemma entry_map (f : F -> F -> F) (ts ps : list F) (i j : nat) (t p : F) :
  nth_error ts i = Some t -> nth_error ps j = Some p ->
  entry (map (fun t => map (fun p => f t p) ps) ts) i j = Some (f t p).
Proof.
  intros Ht Hp. unfold entry. rewrite nth_error_map, Ht. cbn [option_map].
  rewrite nth_error_map, Hp. reflexivity.
Qed.

(** The mesh has [nT] rows of [nP] entries in each of x, y and z, its
    entry (i, j) is the point of radius [D.rs] at the angles [th[i]] and
    [ph[j]], and it does not depend on the argument [rs]. *)
Theorem horizonMesh_entries (rs : F) (nT nP : nat) :
  let '(x, y, z) := horizonMesh d rs nT nP in
  List.length x = nT /\ List.length y = nT /\ List.length z = nT /\
  Forall (fun row => List.length row = nP) (x ++ y ++ z) /\
  (forall i j, (i < nT)%nat -> (j < nP)%nat ->
     exists t p,
       nth_error (th nT) i = Some t /\ nth_error (ph nP) j = Some p /\
       entry x i j = Some (mul (mul (D_rs d) (sin t)) (cos p)) /\
       entry y i j = Some (mul (mul (D_rs d) (sin t)) (sin p)) /\
       entry z i j = Some (mul (D_rs d) (cos t))) /\
  forall rs', horizonMesh d rs' nT nP = (x, y, z).
Proof.
  unfold horizonMesh.
  rewrite !length_map, th_length.
  split; [reflexivity|]. split; [reflexivity|]. split; [reflexivity|].
  split; [|split; [|reflexivity]].
  - rewrite !Forall_app, !Forall_map, !Forall_forall.
    repeat split; intros t _; rewrite length_map; apply ph_length.
  - intros i j Hi Hj. do 2 eexists.
    split; [apply th_nth; exact Hi|]. split; [apply ph_nth; exact Hj|].
    split; [|split].
    + apply (entry_map (fun t p => mul (mul (D_rs d) (sin t)) (cos p)));
        [apply th_nth; exact Hi | apply ph_nth; exact Hj].
    + apply (entry_map (fun t p => mul (mul (D_rs d) (sin t)) (sin p)));
        [apply th_nth; exact Hi | apply ph_nth; exact Hj].
    + eapply (@entry_map (fun t _ => mul (D_rs d) (cos t)) (th nT) (ph nP) i j);
        [apply th_nth; exact Hi | apply ph_nth; exact Hj].
Qed.

End AnyArithmetic.

Section Sphere.
Local Open Scope R_scope.
Local Abbreviation rsin := Rtrigo_def.sin.
Local Abbreviation rcos := Rtrigo_def.cos.
Variable d : document R.

Lemma on_sphere (r t p : R) :
  r * rsin t * rcos p * (r * rsin t * rcos p)
  + r * rsin t * rsin p * (r * rsin t * rsin p)
  + r * rcos t * (r * rcos t) = r * r.
Proof.
  replace (r * rsin t * rcos p * (r * rsin t * rcos p)
           + r * rsin t * rsin p * (r * rsin t * rsin p)
           + r * rcos t * (r * rcos t))
    with (r * r * (Rsqr (rsin t) * (Rsqr (rsin p) + Rsqr (rcos p)) + Rsqr (rcos t)))
    by (unfold Rsqr; ring).
  rewrite sin2_cos2, Rmult_1_r, sin2_cos2. ring.
Qed.

Lemma last_angle (n : nat) (turn : R) :
  (2 <= n)%nat ->
  IZR (Z.of_nat (n - 1)) * (turn / IZR (Z.of_nat n - 1)) = turn.
Proof.
  intros Hn. replace (Z.of_nat (n - 1)) with (Z.of_nat n - 1)%Z by lia.
  field. apply not_0_IZR. lia.
Qed.

(** In exact arithmetic, for at least 2 rows and 2 columns: every point
    of the mesh lies on the sphere of radius [D.rs] about the origin; the
    first row is the pole (0, 0, D.rs) and the last row the pole
    (0, 0, -D.rs); the last column repeats the first, so the surface is
    closed. *)
Theorem horizonMesh_sphere (rs : R) (nT nP : nat) :
  (2 <= nT)%nat -> (2 <= nP)%nat ->
  let '(x, y, z) := horizonMesh d rs nT nP in
  (forall i j, (i < nT)%nat -> (j < nP)%nat ->
     exists vx vy vz,
       entry x i j = Some vx /\ entry y i j = Some vy /\ entry z i j = Some vz /\
       vx * vx + vy * vy + vz * vz = D_rs d * D_rs d) /\
  (forall j, (j < nP)%nat ->
     entry x 0 j = Some 0 /\ entry y 0 j = Some 0 /\ entry z 0 j = Some (D_rs d) /\
     entry x (nT - 1) j = Some 0 /\ entry y (nT - 1) j = Some 0 /\
     entry z (nT - 1) j = Some (- D_rs d)) /\
  (forall i, (i < nT)%nat ->
     entry x i (nP - 1) = entry x i 0 /\ entry y i (nP - 1) = entry y i 0 /\
     entry z i (nP - 1) = entry z i 0).
Proof.
  intros HT HP.
  pose proof (horizonMesh_entries d rs nT nP) as E.
  destruct (horizonMesh d rs nT nP) as [[x y] z].
  destruct E as (_ & _ & _ & _ & Hent & _).
  split; [|split].
  - intros i j Hi Hj.
    destruct (Hent i j Hi Hj) as (t & p & _ & _ & Ex & Ey & Ez).
    do 3 eexists. split; [exact Ex|]. split; [exact Ey|]. split; [exact Ez|].
    apply on_sphere.
  - intros j Hj.
    destruct (Hent 0%nat j ltac:(lia) Hj) as (t & p & Et & _ & Ex & Ey & Ez).
    rewrite th_nth in Et by lia. injection Et as <-.
    destruct (Hent (nT - 1)%nat j ltac:(lia) Hj) as (t' & p' & Et' & Ep' & Ex' & Ey' & Ez').
    rewrite ph_nth in Ep' by exact Hj. injection Ep' as <-.
    rewrite th_nth in Et' by lia. injection Et' as <-.
    rewrite Ex, Ey, Ez, Ex', Ey', Ez'.
    cbn [mul div of_int fpi sin cos exact exact_trig exact_math].
    rewrite (last_angle PI HT).
    change (IZR (Z.of_nat 0)) with 0. rewrite Rmult_0_l.
    rewrite sin_0, cos_0, sin_PI, cos_PI.
    repeat split; f_equal; ring.
  - intros i Hi.
    destruct (Hent i 0%nat Hi ltac:(lia)) as (t & p & Et & Ep & Ex & Ey & Ez).
    destruct (Hent i (nP - 1)%nat Hi ltac:(lia)) as (t' & p' & Et' & Ep' & Ex' & Ey' & Ez').
    rewrite Et in Et'. injection Et' as <-.
    rewrite ph_nth in Ep by lia. injection Ep as <-.
    rewrite ph_nth in Ep' by lia. injection Ep' as <-.
    rewrite Ex, Ey, Ez, Ex', Ey', Ez'.
    cbn [mul div of_int fpi lit_2 sin cos exact exact_trig exact_math].
    rewrite (last_angle (2 * PI) HP).
    change (IZR (Z.of_nat 0)) with 0. rewrite Rmult_0_l.
    rewrite sin_0, cos_0, sin_2PI, cos_2PI.
    repeat split.
Qed.

End Sphere.
End MeshFacts.

(** ** The animation script *)

Module PygameFacts.
Import Pygame.

Section AnyArithmetic.
Context {F : Type} `{Arith F} `{Trig F} `{MathOps F}.

Lemma np_mul_raises (a b : list F) (e : exn) :
  np_mul a b = Raise e <->
  List.length a <> List.length b /\ List.length a <> 1%nat /\
  List.length b <> 1%nat /\
  e = ValueError "operands could not be broadcast together".
Proof.
  unfold np_mul. destruct (Nat.eqb_spec (List.length a) (List.length b)) as [E | E].
  - split; [discriminate | intros [Hc _]; contradiction].
  - destruct a as [|u [|u' a]]; destruct b as [|v [|v' b]]; cbn in E |- *;
      try (split; [discriminate | intros (_ & Ha & Hb & _); contradiction]);
      try contradiction;
      (split; [intros [= <-]; repeat split; try discriminate; exact E
              | intros (_ & _ & _ & ->); reflexivity]).
Qed.

Lemma np_mul_length (a b c : list F) :
  np_mul a b = Ok c ->
  List.length c
  = if Nat.eqb (List.length a) 1 then List.length b else List.length a.
Proof.
  unfold np_mul. destruct (Nat.eqb_spec (List.length a) (List.length b)) as [E | E].
  - intros [= <-]. rewrite zip_mul_length by exact E.
    destruct (Nat.eqb_spec (List.length a) 1); congruence.
  - destruct a as [|u [|u' a]]; destruct b as [|v [|v' b]]; cbn in E |- *;
      try discriminate; try contradiction;
      intros [= <-]; cbn; rewrite ?length_map; reflexivity.
Qed.

Lemma KartezijskeKoordinate_same_length (r theta : list F) (xP yP : Z) :
  List.length theta = List.length r ->
  KartezijskeKoordinate r theta xP yP
  = Ok (map (fun v => fadd (mul v (of_int 10)) (div (of_int xP) (of_int 2)))
            (zip_mul (np_cos theta) r),
        map (fun v => fadd (mul v (of_int 10)) (div (of_int yP) (of_int 2)))
            (zip_mul (np_sin theta) r)).
Proof.
  intros E. unfold KartezijskeKoordinate.
  rewrite (np_mul_same_length (np_cos theta) r) by (rewrite np_cos_length; exact E).
  cbn [bind].
  rewrite (np_mul_same_length (np_sin theta) r) by (rewrite np_sin_length; exact E).
  reflexivity.
Qed.

(** The shapes of the window coordinates.  The function raises exactly
    when the two arrays differ in length and neither has one element, and
    then it is NumPy's broadcast [ValueError]; otherwise both results have
    the length the broadcast gives (a one-element array is stretched, also
    to length 0); on arrays of one length, entry [i] of X is
    [cos(theta[i]) * r[i] * 10 + xProzora / 2] and entry [i] of Y the same
    with [sin] and [yProzora]. *)
Theorem KartezijskeKoordinate_shapes (r theta : list F) (xProzora yProzora : Z) :
  (forall e,
     KartezijskeKoordinate r theta xProzora yProzora = Raise e <->
     List.length theta <> List.length r /\ List.length theta <> 1%nat /\
     List.length r <> 1%nat /\
     e = ValueError "operands could not be broadcast together") /\
  (forall X Y,
     KartezijskeKoordinate r theta xProzora yProzora = Ok (X, Y) ->
     List.length X
     = (if Nat.eqb (List.length theta) 1 then List.length r else List.length theta) /\
     List.length Y = List.length X) /\
  (List.length theta = List.length r ->
   exists X Y,
     KartezijskeKoordinate r theta xProzora yProzora = Ok (X, Y) /\
     forall i ri ti,
       nth_error r i = Some ri -> nth_error theta i = Some ti ->
       nth_error X i
       = Some (fadd (mul (mul (cos ti) ri) (of_int 10))
                    (div (of_int xProzora) (of_int 2))) /\
       nth_error Y i
       = Some (fadd (mul (mul (sin ti) ri) (of_int 10))
                    (div (of_int yProzora) (of_int 2)))).
Proof.
  split; [|split].
  - intros e. unfold KartezijskeKoordinate.
    destruct (np_mul (np_cos theta) r) as [c | e1] eqn:Ec; cbn [bind].
    + destruct (np_mul (np_sin theta) r) as [s | e2] eqn:Es; cbn [bind].
      * split; [discriminate|]. intros (H2 & H3 & H4 & _).
        assert (Hr : np_mul (np_sin theta) r
                     = Raise (ValueError "operands could not be broadcast together"))
          by (apply np_mul_raises; rewrite np_sin_length; auto).
        congruence.
      * apply np_mul_raises in Es. rewrite np_sin_length in Es.
        assert (Hr : np_mul (np_cos theta) r
                     = Raise (ValueError "operands could not be broadcast together"))
          by (apply np_mul_raises; rewrite np_cos_length; tauto).
        congruence.
    + pose proof Ec as Ec'. apply np_mul_raises in Ec'. rewrite np_cos_length in Ec'.
      destruct Ec' as (H2 & H3 & H4 & ->).
      split; [intros [= <-]; auto | intros (_ & _ & _ & ->); reflexivity].
  - intros X Y. unfold KartezijskeKoordinate.
    destruct (np_mul (np_cos theta) r) as [c | e1] eqn:Ec; cbn [bind]; [|discriminate].
    destruct (np_mul (np_sin theta) r) as [s | e2] eqn:Es; cbn [bind]; [|discriminate].
    intros [= <- <-]. rewrite !length_map.
    apply np_mul_length in Ec. apply np_mul_length in Es.
    rewrite np_cos_length in Ec. rewrite np_sin_length in Es.
    split; congruence.
  - intros E. do 2 eexists.
    split; [apply KartezijskeKoordinate_same_length; exact E|].
    intros i ri ti Hr Ht.
    rewrite !nth_error_map.
    rewrite (@zip_mul_nth F _ (np_cos theta) r i (cos ti) ri)
      by (try exact Hr; unfold np_cos; rewrite nth_error_map, Ht; reflexivity).
    rewrite (@zip_mul_nth F _ (np_sin theta) r i (sin ti) ri)
      by (try exact Hr; unfold np_sin; rewrite nth_error_map, Ht; reflexivity).
    split; reflexivity.
Qed.

(** *** The frame loop *)

Lemma index_in (x : list F) (k : nat) :
  (1 <= k)%nat -> (k <= frames x)%nat ->
  exists a, index x (1000 * Z.of_nat k) = Some a.
Proof.
  unfold frames, index. intros Hk1 Hk.
  assert (Hm : (1000 * k <= List.length x - 1)%nat).
  { etransitivity; [apply Nat.mul_le_mono_l; exact Hk|].
    apply Nat.Div0.mul_div_le. }
  destruct (Z.ltb_spec (1000 * Z.of_nat k) 0) as [Hneg | _]; [lia|].
  replace (Z.to_nat (1000 * Z.of_nat k)) with (1000 * k)%nat by lia.
  destruct (nth_error x (1000 * k)) as [a|] eqn:E; [eauto|].
  apply nth_error_None in E. lia.
Qed.

Lemma index_out (x : list F) (k : nat) :
  (frames x < k)%nat -> index x (1000 * Z.of_nat k) = None.
Proof.
  unfold frames, index. intros Hk.
  destruct (Z.ltb_spec (1000 * Z.of_nat k) 0) as [Hneg | _]; [reflexivity|].
  replace (Z.to_nat (1000 * Z.of_nat k)) with (1000 * k)%nat by lia.
  apply nth_error_None.
  destruct (Nat.le_gt_cases (List.length x) (1000 * k)) as [Hle | Hgt]; [exact Hle|].
  exfalso.
  assert (k <= (List.length x - 1) / 1000)%nat
    by (apply Nat.div_le_lower_bound; lia).
  lia.
Qed.

Lemma samples_S (x y : list F) (k n : nat) (a b : F) :
  index x (1000 * Z.of_nat k) = Some a ->
  index y (1000 * Z.of_nat k) = Some b ->
  samples x y k (S n) = (a, b) :: samples x y (S k) n.
Proof.
  intros Ha Hb. unfold samples. cbn [seq flat_map]. rewrite Ha, Hb. reflexivity.
Qed.

Lemma samples_length (x y : list F) (n k : nat) :
  (List.length (samples x y k n) <= n)%nat.
Proof.
  unfold samples. revert k. induction n as [|n IH]; intros k; cbn [seq flat_map].
  - apply Nat.le_refl.
  - rewrite length_app. specialize (IH (S k)).
    destruct (index x (1000 * Z.of_nat k)); [destruct (index y (1000 * Z.of_nat k))|];
      cbn [List.length]; lia.
Qed.

Lemma frame_loop_from (x y : list F) (polls : list (list event)) :
  List.length y = List.length x ->
  forall (k : nat) (drawn : list (F * F)),
    (k <= frames x)%nat ->
    frame_loop x y (1000 * Z.of_nat k) drawn polls
    = match first_quit polls with
      | Some q =>
          if (k + q <=? frames x)%nat
          then Exited (drawn ++ samples x y (S k) q)
          else IndexError (1000 * Z.of_nat (S (frames x)))
                          (drawn ++ samples x y (S k) (frames x - k))
      | None =>
          if (k + List.length polls <=? frames x)%nat
          then Running (1000 * Z.of_nat (k + List.length polls))
                       (drawn ++ samples x y (S k) (List.length polls))
          else IndexError (1000 * Z.of_nat (S (frames x)))
                          (drawn ++ samples x y (S k) (frames x - k))
      end.
Proof.
  intros Hxy.
  assert (Hfr : frames y = frames x) by (unfold frames; rewrite Hxy; reflexivity).
  induction polls as [|events rest IH]; intros k drawn Hk.
  - cbn [frame_loop first_quit List.length].
    rewrite Nat.add_0_r. destruct (Nat.leb_spec k (frames x)); [|lia].
    unfold samples. cbn [seq flat_map]. rewrite app_nil_r. reflexivity.
  - cbn [frame_loop first_quit List.length].
    replace (1000 * Z.of_nat k + 1000)%Z with (1000 * Z.of_nat (S k))%Z by lia.
    destruct (existsb is_quit events).
    + rewrite Nat.add_0_r. destruct (Nat.leb_spec k (frames x)); [|lia].
      unfold samples. cbn [seq flat_map]. rewrite app_nil_r. reflexivity.
    + destruct (Nat.le_gt_cases (S k) (frames x)) as [Hin | Hout].
      * destruct (@index_in x (S k) ltac:(lia) Hin) as [a Ha].
        destruct (@index_in y (S k) ltac:(lia) ltac:(rewrite Hfr; exact Hin)) as [b Hb].
        rewrite Ha, Hb, (IH (S k) (drawn ++ [(a, b)])%list Hin).
        replace (frames x - k)%nat with (S (frames x - S k)) by lia.
        destruct (first_quit rest) as [q|].
        -- replace (k + S q)%nat with (S k + q)%nat by lia.
           rewrite !(@samples_S x y (S k) _ a b Ha Hb), <- !app_assoc. reflexivity.
        -- replace (k + S (List.length rest))%nat
             with (S k + List.length rest)%nat by lia.
           rewrite !(@samples_S x y (S k) _ a b Ha Hb), <- !app_assoc. reflexivity.
      * rewrite (index_out x Hout).
        replace (frames x - k)%nat with 0%nat by lia.
        replace (frames x) with k by lia.
        unfold samples. cbn [seq flat_map]. rewrite app_nil_r.
        destruct (first_quit rest) as [q|].
        -- destruct (Nat.leb_spec (k + S q) k); [lia | reflexivity].
        -- destruct (Nat.leb_spec (k + S (List.length rest)) k); [lia | reflexivity].
Qed.

(** How the loop ends, for coordinate arrays of one length [n] and
    [frames = (n - 1) div 1000].  Frame [k] (from 1) draws sample
    [1000*k]; sample 0 is never drawn.  When the first close request
    comes in poll [q] (from 0) with [q <= frames], the loop exits having
    drawn the samples 1000, ..., 1000*q.  Without such a request, the loop
    is alive after [p <= frames] polls, having drawn p samples, and is
    stopped by the [IndexError] of [x[1000*(frames+1)]] in poll
    [frames + 1], having drawn the samples 1000, ..., 1000*frames. *)
Theorem frame_loop_outcome (x y : list F) (polls : list (list event)) :
  List.length y = List.length x ->
  frame_loop x y 0 [] polls
  = match first_quit polls with
    | Some q =>
        if (q <=? frames x)%nat
        then Exited (samples x y 1 q)
        else IndexError (1000 * Z.of_nat (S (frames x))) (samples x y 1 (frames x))
    | None =>
        if (List.length polls <=? frames x)%nat
        then Running (1000 * Z.of_nat (List.length polls))
                     (samples x y 1 (List.length polls))
        else IndexError (1000 * Z.of_nat (S (frames x))) (samples x y 1 (frames x))
    end.
Proof.
  intros Hxy.
  pose proof (@frame_loop_from x y polls Hxy 0%nat [] ltac:(lia)) as E.
  change (1000 * Z.of_nat 0)%Z with 0%Z in E.
  cbn [Nat.add app] in E. rewrite Nat.sub_0_r in E. exact E.
Qed.

(** The script on two arrays of one length [n].  On empty arrays
    [print(x[0], y[0])] raises.  Otherwise the first sample is printed and
    the loop starts; it draws at most [(n - 1) div 1000] dots, so none at
    all when [n <= 1000]; and once more than [(n - 1) div 1000] polls have
    passed it is no longer running: it was closed or has raised
    [IndexError]. *)
Theorem script_ends (ugao precnik : list F) (polls : list (list event)) :
  List.length ugao = List.length precnik ->
  (precnik = [] -> script ugao precnik polls = PrintFailed) /\
  (precnik <> [] ->
   exists x0 y0 o,
     script ugao precnik polls = Started x0 y0 o /\
     (List.length (drawn_of o) <= (List.length precnik - 1) / 1000)%nat /\
     ((List.length precnik <= 1000)%nat -> drawn_of o = []) /\
     (((List.length precnik - 1) / 1000 < List.length polls)%nat ->
      forall t drawn, o <> Running t drawn)).
Proof.
  intros E. unfold script.
  rewrite (KartezijskeKoordinate_same_length precnik ugao 1000 1000 E).
  set (x := map _ (zip_mul (np_cos ugao) precnik)).
  set (y := map _ (zip_mul (np_sin ugao) precnik)).
  assert (Lx : List.length x = List.length precnik).
  { unfold x. rewrite length_map, zip_mul_length; rewrite np_cos_length; exact E. }
  assert (Ly : List.length y = List.length x).
  { unfold y. rewrite Lx, length_map, zip_mul_length; rewrite np_sin_length; exact E. }
  assert (Hfr : frames x = ((List.length precnik - 1) / 1000)%nat)
    by (unfold frames; rewrite Lx; reflexivity).
  split.
  - intros ->. destruct x; [reflexivity | discriminate].
  - intros Hne.
    destruct x as [|x0 xs] eqn:Ex; [destruct precnik; [contradiction | discriminate]|].
    destruct y as [|y0 ys] eqn:Ey; [discriminate|].
    cbn [index Z.ltb Z.compare Z.to_nat nth_error].
    exists x0, y0. eexists. split; [reflexivity|].
    rewrite <- Ex, <- Ey in *.
    pose proof (@frame_loop_from x y polls Ly 0%nat [] ltac:(lia)) as El.
    change (1000 * Z.of_nat 0)%Z with 0%Z in El.
    cbn [Nat.add app] in El. rewrite Nat.sub_0_r in El.
    rewrite El, <- Hfr. clear El.
    assert (Hs : forall n, (n <= frames x)%nat ->
                 (List.length (samples x y 1 n) <= frames x)%nat).
    { intros n Hn. etransitivity; [apply samples_length | exact Hn]. }
    assert (Hz : (List.length precnik <= 1000)%nat -> frames x = 0%nat).
    { intros Hle. rewrite Hfr. apply Nat.div_small. lia. }
    destruct (first_quit polls) as [q|].
    + destruct (Nat.leb_spec q (frames x)) as [Hq | Hq]; cbn [drawn_of].
      * split; [apply Hs; exact Hq|]. split; [|discriminate].
        intros Hle. rewrite (Hz Hle) in Hq.
        replace q with 0%nat by lia. reflexivity.
      * split; [apply Hs; apply Nat.le_refl|]. split; [|discriminate].
        intros Hle. rewrite (Hz Hle). reflexivity.
    + destruct (Nat.leb_spec (List.length polls) (frames x)) as [Hq | Hq]; cbn [drawn_of].
      * split; [apply Hs; exact Hq|]. split; [|intros Hlt; lia].
        intros Hle. rewrite (Hz Hle) in Hq.
        replace (List.length polls) with 0%nat by lia. reflexivity.
      * split; [apply Hs; apply Nat.le_refl|]. split; [|discriminate].
        intros Hle. rewrite (Hz Hle). reflexivity.
Qed.

End AnyArithmetic.

Section Exact.
Local Open Scope R_scope.
Local Abbreviation rsin := Rtrigo_def.sin.
Local Abbreviation rcos := Rtrigo_def.cos.

Lemma on_circle (c s r a : R) :
  s * s + c * c = 1 ->
  (c * r * 10 + a - a) * (c * r * 10 + a - a)
  + (s * r * 10 + a - a) * (s * r * 10 + a - a) = (10 * r) * (10 * r).
Proof.
  intros Hcs.
  replace ((c * r * 10 + a - a) * (c * r * 10 + a - a)
           + (s * r * 10 + a - a) * (s * r * 10 + a - a))
    with (100 * r * r * (s * s + c * c)) by ring.
  rewrite Hcs. ring.
Qed.

(** In exact arithmetic, on arrays of one length and a square window of
    side [w]: the point of index [i] lies at distance [10 * |r[i]|] from
    the centre [(w/2, w/2)] of the window; radius 0 is the centre itself,
    where the script draws the black disc for the default window of 1000;
    for [0 <= 10 * r[i] <= w/2] the point is inside the window. *)
Theorem KartezijskeKoordinate_circle (r theta X Y : list R) (w : Z) :
  List.length theta = List.length r ->
  KartezijskeKoordinate r theta w w = Ok (X, Y) ->
  forall i ri xi yi,
    nth_error r i = Some ri -> nth_error X i = Some xi -> nth_error Y i = Some yi ->
    (xi - IZR w / 2) * (xi - IZR w / 2) + (yi - IZR w / 2) * (yi - IZR w / 2)
    = (10 * ri) * (10 * ri) /\
    (ri = 0 -> xi = IZR w / 2 /\ yi = IZR w / 2) /\
    (0 <= 10 * ri <= IZR w / 2 -> 0 <= xi <= IZR w /\ 0 <= yi <= IZR w).
Proof.
  intros E HK i ri xi yi Hr Hx Hy.
  rewrite (KartezijskeKoordinate_same_length r theta w w E) in HK.
  injection HK as <- <-.
  destruct (nth_error theta i) as [ti|] eqn:Ht.
  2:{ apply nth_error_None in Ht. assert (nth_error r i <> None) by congruence.
      apply nth_error_Some in H. lia. }
  rewrite nth_error_map,
    (@zip_mul_nth R _ (np_cos theta) r i (rcos ti) ri) in Hx
    by (try exact Hr; unfold np_cos; rewrite nth_error_map, Ht; reflexivity).
  rewrite nth_error_map,
    (@zip_mul_nth R _ (np_sin theta) r i (rsin ti) ri) in Hy
    by (try exact Hr; unfold np_sin; rewrite nth_error_map, Ht; reflexivity).
  cbn in Hx, Hy. injection Hx as <-. injection Hy as <-.
  pose proof (sin2_cos2 ti) as Hcs. unfold Rsqr in Hcs.
  pose proof (@on_circle (rcos ti) (rsin ti) ri (IZR w / 2) Hcs) as Hc.
  split; [exact Hc|]. split.
  - intros ->. split; ring.
  - intros [H0 Hw].
    pose proof (SIN_bound ti) as [Hs1 Hs2]. pose proof (COS_bound ti) as [Hc1 Hc2].
    assert (Hri : 0 <= ri) by lra.
    split; split; nra.
Qed.

End Exact.
End PygameFacts.

(** ** More on the transform: shapes that raise, points on the sphere *)

Section TransformShapes.
Context {F : Type} `{Arith F} `{Trig F}.

(** The transform raises nothing but NumPy's broadcast [ValueError]; and
    on three arrays none of which has exactly one element it raises
    exactly when the three lengths are not all equal. *)
Theorem spherical_to_cartesian_raises (r th ph : list F) :
  (forall e,
     spherical_to_cartesian r th ph = Raise e ->
     e = ValueError "operands could not be broadcast together") /\
  (List.length r <> 1%nat -> List.length th <> 1%nat -> List.length ph <> 1%nat ->
   ((exists e, spherical_to_cartesian r th ph = Raise e) <->
    ~ (List.length th = List.length r /\ List.length ph = List.length r))).
Proof.
  split.
  - intros e. unfold spherical_to_cartesian.
    destruct (np_mul r (np_sin th)) as [rs | e1] eqn:E1; cbn [bind].
    2:{ intros [= <-]. apply PygameFacts.np_mul_raises in E1. tauto. }
    destruct (np_mul rs (np_cos ph)) as [x | e2] eqn:E2; cbn [bind].
    2:{ intros [= <-]. apply PygameFacts.np_mul_raises in E2. tauto. }
    destruct (np_mul rs (np_sin ph)) as [y | e3] eqn:E3; cbn [bind].
    2:{ intros [= <-]. apply PygameFacts.np_mul_raises in E3. tauto. }
    destruct (np_mul r (np_cos th)) as [z | e4] eqn:E4; cbn [bind].
    2:{ intros [= <-]. apply PygameFacts.np_mul_raises in E4. tauto. }
    discriminate.
  - intros Hr Ht Hp. split.
    + intros [e He] [Lt Lp].
      rewrite (spherical_to_cartesian_same_length r th ph Lt Lp) in He. discriminate.
    + intros Hne. unfold spherical_to_cartesian.
      destruct (Nat.eq_dec (List.length th) (List.length r)) as [Lt | Lt].
      * assert (Lp : List.length ph <> List.length r) by tauto.
        rewrite (np_mul_same_length r (np_sin th)) by (rewrite np_sin_length; congruence).
        cbn [bind].
        assert (Lrs : List.length (zip_mul r (np_sin th)) = List.length r)
          by (apply zip_mul_length; rewrite np_sin_length; congruence).
        assert (E2 : np_mul (zip_mul r (np_sin th)) (np_cos ph)
                     = Raise (ValueError "operands could not be broadcast together")).
        { apply PygameFacts.np_mul_raises. rewrite Lrs, np_cos_length.
          repeat split; congruence. }
        rewrite E2. cbn [bind]. eauto.
      * assert (E1 : np_mul r (np_sin th)
                     = Raise (ValueError "operands could not be broadcast together")).
        { apply PygameFacts.np_mul_raises. rewrite np_sin_length.
          repeat split; congruence. }
        rewrite E1. cbn [bind]. eauto.
Qed.

End TransformShapes.

Section TransformSphere.
Local Open Scope R_scope.
Local Abbreviation rsin := Rtrigo_def.sin.
Local Abbreviation rcos := Rtrigo_def.cos.

(** In exact arithmetic, on arrays of one length and for every radius and
    angle, also outside their usual ranges: point [i] lies at distance
    [|r[i]|] from the origin; for [theta[i] = 0] it is [(0, 0, r[i])]
    whatever the azimuth, for [theta[i] = pi] it is [(0, 0, -r[i])]; and
    the azimuths [phi[i]] and [phi[i] + 2*pi] give the same point. *)
Theorem spherical_to_cartesian_sphere (r th ph x y z : list R) :
  List.length th = List.length r -> List.length ph = List.length r ->
  spherical_to_cartesian r th ph = Ok (x, y, z) ->
  forall i ri ti pi,
    nth_error r i = Some ri -> nth_error th i = Some ti -> nth_error ph i = Some pi ->
    exists xi yi zi,
      nth_error x i = Some xi /\ nth_error y i = Some yi /\ nth_error z i = Some zi /\
      xi * xi + yi * yi + zi * zi = ri * ri /\
      (ti = 0 -> xi = 0 /\ yi = 0 /\ zi = ri) /\
      (ti = PI -> xi = 0 /\ yi = 0 /\ zi = - ri) /\
      xi = ri * rsin ti * rcos (pi + 2 * PI) /\
      yi = ri * rsin ti * rsin (pi + 2 * PI).
Proof.
  intros Lt Lp E i ri ti pi Hr Ht Hp.
  rewrite (spherical_to_cartesian_same_length r th ph Lt Lp) in E.
  injection E as <- <- <-.
  assert (Hs : nth_error (np_sin th) i = Some (rsin ti))
    by (unfold np_sin; rewrite nth_error_map, Ht; reflexivity).
  assert (Hc : nth_error (np_cos th) i = Some (rcos ti))
    by (unfold np_cos; rewrite nth_error_map, Ht; reflexivity).
  assert (Hsp : nth_error (np_sin ph) i = Some (rsin pi))
    by (unfold np_sin; rewrite nth_error_map, Hp; reflexivity).
  assert (Hcp : nth_error (np_cos ph) i = Some (rcos pi))
    by (unfold np_cos; rewrite nth_error_map, Hp; reflexivity).
  exists (ri * rsin ti * rcos pi), (ri * rsin ti * rsin pi), (ri * rcos ti).
  split; [exact (zip_mul_nth _ _ _ (zip_mul_nth _ _ _ Hr Hs) Hcp)|].
  split; [exact (zip_mul_nth _ _ _ (zip_mul_nth _ _ _ Hr Hs) Hsp)|].
  split; [exact (zip_mul_nth _ _ _ Hr Hc)|].
  split; [apply MeshFacts.on_sphere|].
  split; [|split].
  - intros ->. rewrite sin_0, cos_0. repeat split; ring.
  - intros ->. rewrite sin_PI, cos_PI. repeat split; ring.
  - rewrite sin_plus, cos_plus, sin_2PI, cos_2PI. split; ring.
Qed.

End TransformSphere.

(** ** Instances of the further facts on the two-sample orbit *)

Section MoreInstances.
Local Open Scope R_scope.
Local Abbreviation rsin := Rtrigo_def.sin.
Local Abbreviation rcos := Rtrigo_def.cos.

Lemma orbit_written :
  In ("geodesic_viewer.html"%string, orbit_doc)
     (files (done_io (csv_host table) args_orbit orbit_doc)).
Proof. left. reflexivity. Defined.


Lemma document_consistent_witness :
  (host_wf (csv_host table) /\
   main (csv_host table) args_orbit io0
   = (Ok tt, done_io (csv_host table) args_orbit orbit_doc) /\
   In ("geodesic_viewer.html"%string, orbit_doc)
      (files (done_io (csv_host table) args_orbit orbit_doc))) /\
  exists x : list R,
    lookup "x" (data_json orbit_doc) = Some (JList x) /\
    lookup "N" (data_json orbit_doc) = Some (JInt (Z.of_nat (List.length x))) /\
    Nmax orbit_doc = (Z.of_nat (List.length x) - 1)%Z.
Proof.
  split; [split; [exact (csv_host_wf wf_table) | split; [exact main_orbit | exact orbit_written]]|].
  destruct (@document_consistent R _ _ (csv_host table) args_orbit _ _ orbit_doc
              (csv_host_wf wf_table) main_orbit orbit_written)
    as (x & y & z & Hx & _ & _ & HN & _ & _ & _ & Hmax & _).
  exists x. auto.
Defined.

Lemma payload_points_witness :
  (host_wf (csv_host table) /\
   main (csv_host table) args_orbit io0
   = (Ok tt, done_io (csv_host table) args_orbit orbit_doc) /\
   In ("geodesic_viewer.html"%string, orbit_doc)
      (files (done_io (csv_host table) args_orbit orbit_doc))) /\
  exists arr x,
    (np_load (csv_host table) (input_path args_orbit) = Ok arr \/
     np_loadtxt (csv_host table) (input_path args_orbit) = Ok arr) /\
    lookup "x" (data_json orbit_doc) = Some (JList x) /\
    List.length x = nrows arr.
Proof.
  split; [split; [exact (csv_host_wf wf_table) | split; [exact main_orbit | exact orbit_written]]|].
  destruct (@payload_points R _ _ (csv_host table) args_orbit _ _ orbit_doc
              (csv_host_wf wf_table) main_orbit orbit_written)
    as (arr & x & y & z & Harr & Hx & _ & _ & HL & _).
  exists arr, x. auto.
Defined.

Lemma load_trajectory_result_witness :
  load_trajectory (csv_host table6) "orbit.csv" "csv" = Ok table /\
  ndim table = 2%nat /\ ncols table = 4%nat.
Proof.
  assert (Hl : load_trajectory (csv_host table6) "orbit.csv" "csv" = Ok table)
    by reflexivity.
  split; [exact Hl|].
  destruct (@load_trajectory_result R (csv_host table6) "orbit.csv" "csv" table Hl)
    as (_ & arr & _ & Hd & Hc & _).
  auto.
Defined.

Lemma button_tells_state_witness :
  Player.reachable orbit_doc (Player.on_play_click (Player.init orbit_doc)) /\
  ((Player.timer (Player.on_play_click (Player.init orbit_doc)) = None /\
    Player.playBtn (Player.on_play_click (Player.init orbit_doc)) = "▶ Play"%string) \/
   (Player.timer (Player.on_play_click (Player.init orbit_doc)) = Some 20%Z /\
    Player.playBtn (Player.on_play_click (Player.init orbit_doc)) = "⏸ Pause"%string)).
Proof.
  assert (Hr : Player.reachable orbit_doc (Player.on_play_click (Player.init orbit_doc)))
    by (eapply Player.reach_step; [apply Player.reach_init | apply Player.step_play_pause]).
  split; [exact Hr|].
  exact (@SyncFacts.button_tells_state R orbit_doc _ Hr).
Defined.

Lemma other_controls_witness :
  (Player.reachable orbit_doc (Player.init orbit_doc) /\
   Player.step orbit_doc (Player.init orbit_doc) (Player.Scrub 1)
     (Player.on_slider_input orbit_doc 1 (Player.init orbit_doc))) /\
  Player.timer (Player.on_slider_input orbit_doc 1 (Player.init orbit_doc))
  = Player.timer (Player.init orbit_doc) /\
  Player.playBtn (Player.on_slider_input orbit_doc 1 (Player.init orbit_doc))
  = Player.playBtn (Player.init orbit_doc).
Proof.
  assert (Hr : Player.reachable orbit_doc (Player.init orbit_doc))
    by apply Player.reach_init.
  assert (Hs : Player.step orbit_doc (Player.init orbit_doc) (Player.Scrub 1)
                 (Player.on_slider_input orbit_doc 1 (Player.init orbit_doc)))
    by apply Player.step_scrub.
  split; [split; [exact Hr | exact Hs]|].
  apply (proj1 (@SyncFacts.other_controls R orbit_doc _ _ _ Hr Hs)).
  discriminate.
Defined.

Lemma page_in_sync_witness :
  (host_wf (csv_host table) /\
   main (csv_host table) args_orbit io0
   = (Ok tt, done_io (csv_host table) args_orbit orbit_doc) /\
   In ("geodesic_viewer.html"%string, orbit_doc)
      (files (done_io (csv_host table) args_orbit orbit_doc)) /\
   (Player.D_N orbit_doc <= 2 ^ 31)%Z /\
   Player.reachable orbit_doc (Player.init orbit_doc)) /\
  Sync.drawn_in_sync orbit_doc (Player.init orbit_doc).
Proof.
  assert (H31 : (Player.D_N orbit_doc <= 2 ^ 31)%Z) by (cbn; lia).
  split.
  { split; [exact (csv_host_wf wf_table)|]. split; [exact main_orbit|].
    split; [exact orbit_written|]. split; [exact H31 | apply Player.reach_init]. }
  exact (proj1 (proj2 (@page_in_sync R _ _ (csv_host table) args_orbit _ _ orbit_doc
                         (Player.init orbit_doc) (csv_host_wf wf_table) main_orbit
                         orbit_written H31 (Player.reach_init orbit_doc)))).
Defined.

Lemma full_lap_witness :
  (host_wf (csv_host table) /\
   main (csv_host table) args_orbit io0
   = (Ok tt, done_io (csv_host table) args_orbit orbit_doc) /\
   In ("geodesic_viewer.html"%string, orbit_doc)
      (files (done_io (csv_host table) args_orbit orbit_doc)) /\
   (Player.D_N orbit_doc <= 2 ^ 31)%Z /\
   Player.reachable orbit_doc (Player.init orbit_doc)) /\
  Sync.ticks orbit_doc 2 (Player.init orbit_doc) = Player.init orbit_doc.
Proof.
  assert (H31 : (Player.D_N orbit_doc <= 2 ^ 31)%Z) by (cbn; lia).
  split.
  { split; [exact (csv_host_wf wf_table)|]. split; [exact main_orbit|].
    split; [exact orbit_written|]. split; [exact H31 | apply Player.reach_init]. }
  exact (proj2 (@full_lap R _ _ (csv_host table) args_orbit _ _ orbit_doc
                  (Player.init orbit_doc) (csv_host_wf wf_table) main_orbit
                  orbit_written H31 (Player.reach_init orbit_doc))).
Defined.

Lemma horizonMesh_sphere_witness :
  ((2 <= 3)%nat /\ (2 <= 2)%nat) /\
  let '(x, y, z) := Mesh.horizonMesh orbit_doc 1 3 2 in
  forall j, (j < 2)%nat ->
    Mesh.entry x 0 j = Some 0 /\ Mesh.entry z 2 j = Some (- Mesh.D_rs orbit_doc).
Proof.
  assert (HT : (2 <= 3)%nat) by lia.
  assert (HP : (2 <= 2)%nat) by lia.
  split; [split; [exact HT | exact HP]|].
  pose proof (@MeshFacts.horizonMesh_sphere orbit_doc 1 3 2 HT HP) as T.
  destruct (Mesh.horizonMesh orbit_doc 1 3 2) as [[x y] z].
  destruct T as (_ & Hpole & _).
  intros j Hj. destruct (Hpole j Hj) as (Hx & _ & _ & _ & _ & Hz).
  split; [exact Hx | exact Hz].
Defined.

Lemma frame_loop_outcome_witness :
  List.length [3; 4] = List.length [1; 2] /\
  Pygame.frame_loop [1; 2] [3; 4] 0 [] [[Pygame.OTHER]; [Pygame.QUIT]]
  = Pygame.IndexError 1000 [].
Proof.
  split; [reflexivity|].
  rewrite (@PygameFacts.frame_loop_outcome R [1; 2] [3; 4]
             [[Pygame.OTHER]; [Pygame.QUIT]] eq_refl).
  reflexivity.
Defined.

Lemma script_ends_witness :
  List.length [0; 1] = List.length [5; 5] /\
  exists x0 y0 o,
    Pygame.script [0; 1] [5; 5] [[Pygame.OTHER]] = Pygame.Started x0 y0 o /\
    Pygame.drawn_of o = [] /\
    forall t drawn, o <> Pygame.Running t drawn.
Proof.
  split; [reflexivity|].
  destruct (proj2 (@PygameFacts.script_ends R _ _ _ [0; 1] [5; 5] [[Pygame.OTHER]] eq_refl)
              ltac:(discriminate))
    as (x0 & y0 & o & Hs & _ & Hd & Hr).
  exists x0, y0, o. split; [exact Hs|]. split.
  - apply Hd. cbn. lia.
  - apply Hr. cbn. lia.
Defined.

Lemma KartezijskeKoordinate_circle_witness :
  (List.length [PI] = List.length [0] /\
   Pygame.KartezijskeKoordinate [0] [PI] 1000 1000
   = Ok ([rcos PI * 0 * 10 + 1000 / 2], [rsin PI * 0 * 10 + 1000 / 2])) /\
  rcos PI * 0 * 10 + 1000 / 2 = 1000 / 2.
Proof.
  assert (HK : Pygame.KartezijskeKoordinate [0] [PI] 1000 1000
               = Ok ([rcos PI * 0 * 10 + 1000 / 2], [rsin PI * 0 * 10 + 1000 / 2]))
    by reflexivity.
  split; [split; [reflexivity | exact HK]|].
  destruct (@PygameFacts.KartezijskeKoordinate_circle [0] [PI] _ _ 1000 eq_refl HK
              0%nat 0 _ _ eq_refl eq_refl eq_refl) as (_ & Hc & _).
  exact (proj1 (Hc eq_refl)).
Defined.

Lemma spherical_to_cartesian_sphere_witness :
  (List.length [PI] = List.length [2] /\ List.length [1] = List.length [2] /\
   spherical_to_cartesian [2] [PI] [1]
   = Ok ([2 * rsin PI * rcos 1], [2 * rsin PI * rsin 1], [2 * rcos PI])) /\
  exists xi yi zi,
    nth_error [2 * rsin PI * rcos 1] 0 = Some xi /\
    nth_error [2 * rsin PI * rsin 1] 0 = Some yi /\
    nth_error [2 * rcos PI] 0 = Some zi /\
    xi = 0 /\ yi = 0 /\ zi = - 2.
Proof.
  assert (E : spherical_to_cartesian [2] [PI] [1]
              = Ok ([2 * rsin PI * rcos 1], [2 * rsin PI * rsin 1], [2 * rcos PI]))
    by reflexivity.
  split; [split; [reflexivity | split; [reflexivity | exact E]]|].
  destruct (@spherical_to_cartesian_sphere [2] [PI] [1] _ _ _ eq_refl eq_refl E
              0%nat 2 PI 1 eq_refl eq_refl eq_refl)
    as (xi & yi & zi & Hx & Hy & Hz & _ & _ & Hpole & _).
  exists xi, yi, zi. split; [exact Hx|]. split; [exact Hy|]. split; [exact Hz|].
  exact (Hpole eq_refl).
Defined.

Lemma play_pause_cycle_witness :
  (host_wf (csv_host table) /\
   main (csv_host table) args_orbit io0
   = (Ok tt, done_io (csv_host table) args_orbit orbit_doc) /\
   In ("geodesic_viewer.html"%string, orbit_doc)
      (files (done_io (csv_host table) args_orbit orbit_doc))) /\
  Player.D_N orbit_doc = 2%Z /\
  Player.slider (Player.init orbit_doc) = 0%Z /\
  Player.slider (Player.on_tick orbit_doc (Player.on_play_click (Player.init orbit_doc)))
  = 1%Z /\
  Sync.drawn_for_slider orbit_doc
    (Player.on_tick orbit_doc (Player.on_play_click (Player.init orbit_doc))).
Proof.
  split; [split; [exact (csv_host_wf wf_table) | split; [exact main_orbit | exact orbit_written]]|].
  destruct (@play_pause_cycle R _ _ (csv_host table) args_orbit _ _ orbit_doc
              (csv_host_wf wf_table) main_orbit orbit_written)
    as (_ & Hinit & Hreach).
  split; [reflexivity|]. split; [exact Hinit|].
  assert (Hr : Player.reachable orbit_doc (Player.on_play_click (Player.init orbit_doc)))
    by (eapply Player.reach_step; [apply Player.reach_init | apply Player.step_play_pause]).
  destruct (Hreach _ Hr) as (_ & _ & _ & _ & _ & _ & Hplay & _).
  destruct (Hplay (ex_intro _ 20%Z eq_refl)) as (_ & Htick & _).
  assert (Hst : Player.step orbit_doc (Player.on_play_click (Player.init orbit_doc))
                  Player.Tick
                  (Player.on_tick orbit_doc (Player.on_play_click (Player.init orbit_doc))))
    by (eapply Player.step_tick; reflexivity).
  destruct (Htick _ Hst) as (_ & _ & Hnext & _ & _ & Hdrawn & _).
  split; [|exact Hdrawn].
  rewrite Hnext; [reflexivity | cbn; lia].
Defined.

End MoreInstances.
